(** * TSRPC connection core: a shallow embedding of [BaseConnection]

    The connection runtime is single-threaded and cooperative: every
    [async] method runs to its next [await] without interruption, and is
    resumed later by the event loop.  Each method is therefore embedded
    as the sequence of its synchronous segments: [f] (or [f_start]) is
    the code up to the first [await], [f_afterX] the code that runs when
    the awaited [X] has settled.  A segment is a function in a state and
    writer monad over the connection object [Conn]; the writer collects
    the calls the segment makes to its collaborators (logger, flows,
    transport, timers) and the invocations of the callbacks stored on
    pending calls.

    The main development follows
    [packages/tsrpc-base/src/base/BaseConnection.ts]; the module [Legacy]
    follows the older copy of the class kept in the repository (status
    names [Opened]/[Closed], [implementApi]).  The definitions come
    first, the properties after them. *)

From stdpp Require Import base option list strings gmap.
From Stdlib Require Import ZArith Lia.

(** ** Protocol data *)

Inductive ConnectionStatus :=
| Connecting | Connected | Disconnecting | Disconnected.

#[global] Instance ConnectionStatus_eq_dec : EqDecision ConnectionStatus.
Proof. solve_decision. Defined.

Inductive Side := server | client.

Inductive BaseConnectionDataType := text | buffer.

#[global] Instance BaseConnectionDataType_eq_dec :
  EqDecision BaseConnectionDataType.
Proof. solve_decision. Defined.

(** Modelled from the spec: the error kinds are declared in
    [TransportDataSchema.ts], which is not part of the sources. *)
Inductive TsrpcErrorType :=
| ApiError | NetworkError | ServerError | ClientError | RemoteError
| LocalError.

#[global] Instance TsrpcErrorType_eq_dec : EqDecision TsrpcErrorType.
Proof. solve_decision. Defined.

(** Modelled from the spec: [TsrpcError] is not part of the sources; it
    has a message, a type and an optional short code, and is built by
    [new TsrpcError(message, {type, code})]. *)
Record TsrpcError := mkTsrpcError {
  message : string;
  type : TsrpcErrorType;
  code : option string
}.

#[global] Instance TsrpcError_eq_dec : EqDecision TsrpcError.
Proof. solve_decision. Defined.

(** Request, response and message bodies are values the connection never
    inspects ([any] in the source). *)
Definition Body := string.

(** Modelled from the spec: [ApiReturn<T>] is [{isSucc: true, res}] or
    [{isSucc: false, err}]. *)
Inductive ApiReturn :=
| ApiSucc (res : Body)
| ApiFail (err : TsrpcError).

#[global] Instance ApiReturn_eq_dec : EqDecision ApiReturn.
Proof. unfold Body. solve_decision. Defined.

Definition isSucc (r : ApiReturn) : bool :=
  match r with ApiSucc _ => true | ApiFail _ => false end.

(** Modelled from the spec: [OpResult<T>] is [{isSucc: true, res}] or
    [{isSucc: false, errMsg}]; decoding failures also carry an
    [errPhase]. *)
Inductive OpResult (A : Type) :=
| OpSucc (res : A)
| OpFail (errMsg : string) (errPhase : option string).
Arguments OpSucc {A} res.
Arguments OpFail {A} errMsg errPhase.

Definition OpResultVoid := OpResult unit.

(** Modelled from the spec: the schema fingerprint exchanged between
    the two sides. *)
Record ProtoInfo := mkProtoInfo {
  md5 : string;
  lastModified : Z;
  tsrpc : string;
  node : option string
}.

(** Modelled from the spec: the wire-level tagged union, declared in
    [TransportData.ts], which is not part of the sources. *)
Inductive TransportData :=
| td_req (serviceName : string) (sn : Z) (body : Body)
         (protoInfo : option ProtoInfo)
| td_res (serviceName : option string) (sn : Z) (body : Body)
         (protoInfo : option ProtoInfo)
| td_err (sn : Z) (err : TsrpcError) (protoInfo : option ProtoInfo)
| td_msg (serviceName : string) (body : Body)
| td_heartbeat (sn : Z) (isReply : option bool)
| td_custom (payload : string).

(** ['protoInfo' in transportData && transportData.protoInfo]. *)
Definition td_protoInfo (td : TransportData) : option ProtoInfo :=
  match td with
  | td_req _ _ _ p | td_res _ _ _ p | td_err _ _ p => p
  | _ => None
  end.

(** [string | Uint8Array]. *)
Inductive RawData :=
| raw_text (s : string)
| raw_buffer (bytes : list Z).

Definition raw_dataType (d : RawData) : BaseConnectionDataType :=
  match d with raw_text _ => text | raw_buffer _ => buffer end.

Inductive BoxType := box_req | box_res | box_err | box_msg
                   | box_heartbeat | box_custom.

(** Modelled from the spec: the envelope ("box") types are declared in
    [TransportData.ts], which is not part of the sources; a box is the
    framing around an encoded body that carries type, sn and routing
    information. *)
Record Box := mkBox {
  box_type : BoxType;
  box_sn : Z;
  box_protoInfo : option ProtoInfo;
  box_payload : string
}.

(** Per-call [TransportOptions]; [dataType] is the override read by
    [_sendTransportData]. *)
Record TransportOptions := mkTransportOptions {
  opt_timeout : option Z;
  opt_abortKey : option string;
  opt_abortSignal : option nat;
  opt_dataType : option BaseConnectionDataType
}.

(** [BaseConnectionOptions], without the logger and the styler. *)
Record BaseConnectionOptions := mkOptions {
  logConnect : bool;
  logApi : bool;
  logMsg : bool;
  logReqBody : bool;
  logResBody : bool;
  debugBuf : bool;
  callApiTimeout : Z;
  apiCallTimeout : Z;
  returnInnerError : bool;
  skipEncodeValidate : bool;
  skipDecodeValidate : bool;
  heartbeat : bool;
  heartbeatSendInterval : Z;
  heartbeatRecvTimeout : Z
}.

Definition defaultBaseConnectionOptions : BaseConnectionOptions :=
  {| logConnect := true; logApi := true; logMsg := true;
     logReqBody := true; logResBody := true; debugBuf := false;
     callApiTimeout := 15000; apiCallTimeout := 15000;
     returnInnerError := true;
     skipEncodeValidate := false; skipDecodeValidate := false;
     heartbeat := true; heartbeatSendInterval := 1000;
     heartbeatRecvTimeout := 5000 |}.

(** A JavaScript number used as a condition: [0] is falsy. *)
Definition truthyZ (z : Z) : bool := negb (z =? 0)%Z.

(** A JavaScript string used as a condition: the empty string is falsy. *)
Definition truthyStr (s : string) : bool :=
  match s with EmptyString => false | _ => true end.

(** The double quote character (code 34), as a string. *)
Definition dquote : string :=
  String (Ascii.Ascii false true false false false true false false)
    EmptyString.

(** ** Counter *)

(** Modelled from the spec: the [Counter] class is not part of the
    sources.  It returns successive positive integers starting at its
    minimum; [getNext()] increments and returns, [getNext(true)] returns
    the next value without advancing; past the ceiling the value resets
    to the minimum. *)
Record Counter := mkCounter {
  ctr_min : Z;
  ctr_max : Z;
  ctr_last : Z
}.

Definition MAX_SAFE_INTEGER : Z := 9007199254740991.

Definition newCounter (min : Z) : Counter :=
  {| ctr_min := min; ctr_max := MAX_SAFE_INTEGER;
     ctr_last := MAX_SAFE_INTEGER |}.

Definition ctr_next (c : Counter) : Z :=
  if (ctr_max c <=? ctr_last c)%Z then ctr_min c else (ctr_last c + 1)%Z.

Definition getNext (notInc : bool) (c : Counter) : Z * Counter :=
  let n := ctr_next c in
  (n, if notInc then c
      else {| ctr_min := ctr_min c; ctr_max := ctr_max c; ctr_last := n |}).

(** ** JavaScript [Map] with number keys

    Entries are kept in insertion order; [set] on an existing key keeps
    its position. *)
Definition JsMap (V : Type) := list (Z * V).

Module JsMap.
Section ops.
Context {V : Type}.

Fixpoint get (k : Z) (m : JsMap V) : option V :=
  match m with
  | [] => None
  | (k', v) :: m' => if (k' =? k)%Z then Some v else get k m'
  end.

Fixpoint set (k : Z) (v : V) (m : JsMap V) : JsMap V :=
  match m with
  | [] => [(k, v)]
  | (k', v') :: m' =>
      if (k' =? k)%Z then (k, v) :: m' else (k', v') :: set k v m'
  end.

Fixpoint delete (k : Z) (m : JsMap V) : JsMap V :=
  match m with
  | [] => []
  | (k', v) :: m' =>
      if (k' =? k)%Z then delete k m' else (k', v) :: delete k m'
  end.

Definition has (k : Z) (m : JsMap V) : bool :=
  match get k m with Some _ => true | None => false end.

End ops.
End JsMap.

(** ** Objects owned by a connection *)

Abbreviation ItemId := nat (only parsing).
Abbreviation PromiseId := nat (only parsing).
Abbreviation TimerId := nat (only parsing).

(** An API handler is a function supplied by the user; the connection
    only stores it. *)
Abbreviation ApiHandler := nat (only parsing).

(** [PendingCallApiItem].  Items are objects shared between the pending
    map and the [callApi] invocation that created them, so they live in a
    store ([items]) and are referred to by their index.  [onReturn] is
    only ever assigned the closure built by [_waitApiReturn] for this very
    item; the closure is represented by the promise it resolves. *)
Record PendingCallApiItem := mkItem {
  sn : Z;
  apiName : string;
  req : Body;
  isAborted : bool;
  abortKey : option string;
  abortSignal : option nat;
  onAbort : option nat;
  onReturn : option PromiseId
}.

(** The promise created by [_waitApiReturn], with the [timer] variable
    its two closures share. *)
Record ReturnPromise := mkReturnPromise {
  rp_timer : option TimerId;
  rp_value : option ApiReturn
}.

(** What a timer runs when it fires. *)
Inductive TimerCallback :=
| cb_apiTimeout (item : ItemId) (p : PromiseId)
| cb_disconnectTimeout
| cb_sendHeartbeat
| cb_recvHeartbeatTimeout.

Record Timer := mkTimer {
  tm_callback : TimerCallback;
  tm_delay : Z;
  tm_armed : bool
}.

Record Heartbeat := mkHeartbeat {
  hb_sn : Counter;
  sendTimer : option TimerId;
  recvTimeout : option TimerId;
  lastSendTime : Z
}.

(** Modelled from the spec: [TransportDataUtil] is not part of the
    sources; it is the codec collaborator that encodes and decodes bodies
    and envelopes.  The functions below are the ones the connection
    calls, with [serviceMap] and [tsbuffer] already supplied; a
    function installed in [_encodeBoxText], [_decodeBoxText] or
    [_stringifyBodyJson] by a transport stands in the place of the
    default one. *)
Record TransportDataUtil := mkUtil {
  encodeBodyBuffer : TransportData -> bool -> OpResult Box;
  encodeBodyText : TransportData -> bool -> OpResult Box;
  encodeBoxBuffer : Box -> option bool -> OpResult RawData;
  encodeBoxText : Box -> option bool -> OpResult RawData;
  decodeBoxText :
    string -> JsMap PendingCallApiItem -> bool -> option Box ->
    OpResult Box;
  decodeBoxBuffer :
    list Z -> JsMap PendingCallApiItem -> bool -> option Box ->
    OpResult Box;
  decodeBodyText : Box -> bool -> OpResult TransportData;
  decodeBodyBuffer : Box -> bool -> OpResult TransportData
}.

(** The parts of a connection fixed at construction, and the members a
    concrete transport supplies. *)
Record Config := mkConfig {
  side : Side;
  dataType : BaseConnectionDataType;
  options : BaseConnectionOptions;
  _localProtoInfo : ProtoInfo;
  _encodeSkipSN : option bool;
  _recvCustom : bool;
  _errConnNotConnected : string;
  util : TransportDataUtil
}.

Definition connName (cfg : Config) : string :=
  match side cfg with server => "connection" | client => "client" end.

Record Conn := mkConn {
  config : Config;
  _status : ConnectionStatus;
  _disconnecting : option PromiseId;
  _remoteProtoInfo : option ProtoInfo;
  _callApiSn : Counter;
  _pendingCallApis : JsMap ItemId;
  _apiHandlers : gmap string (option ApiHandler);
  _heartbeat : option Heartbeat;
  lastHeartbeatLatency : Z;
  items : list PendingCallApiItem;
  promises : list ReturnPromise;
  timers : list Timer;
  disconnects : list (option OpResultVoid)
}.

(** Assignments to the fields of the connection. *)
Definition set_status (v : ConnectionStatus) (c : Conn) : Conn :=
  mkConn (config c) v (_disconnecting c) (_remoteProtoInfo c)
    (_callApiSn c) (_pendingCallApis c) (_apiHandlers c) (_heartbeat c)
    (lastHeartbeatLatency c) (items c) (promises c) (timers c)
    (disconnects c).

Definition set_disconnecting (v : option PromiseId) (c : Conn) : Conn :=
  mkConn (config c) (_status c) v (_remoteProtoInfo c) (_callApiSn c)
    (_pendingCallApis c) (_apiHandlers c) (_heartbeat c)
    (lastHeartbeatLatency c) (items c) (promises c) (timers c)
    (disconnects c).

Definition set_remoteProtoInfo (v : option ProtoInfo) (c : Conn) : Conn :=
  mkConn (config c) (_status c) (_disconnecting c) v (_callApiSn c)
    (_pendingCallApis c) (_apiHandlers c) (_heartbeat c)
    (lastHeartbeatLatency c) (items c) (promises c) (timers c)
    (disconnects c).

Definition set_callApiSn (v : Counter) (c : Conn) : Conn :=
  mkConn (config c) (_status c) (_disconnecting c) (_remoteProtoInfo c)
    v (_pendingCallApis c) (_apiHandlers c) (_heartbeat c)
    (lastHeartbeatLatency c) (items c) (promises c) (timers c)
    (disconnects c).

Definition set_pendingCallApis (v : JsMap ItemId) (c : Conn) : Conn :=
  mkConn (config c) (_status c) (_disconnecting c) (_remoteProtoInfo c)
    (_callApiSn c) v (_apiHandlers c) (_heartbeat c)
    (lastHeartbeatLatency c) (items c) (promises c) (timers c)
    (disconnects c).

Definition set_apiHandlers (v : gmap string (option ApiHandler)) (c : Conn)
  : Conn :=
  mkConn (config c) (_status c) (_disconnecting c) (_remoteProtoInfo c)
    (_callApiSn c) (_pendingCallApis c) v (_heartbeat c)
    (lastHeartbeatLatency c) (items c) (promises c) (timers c)
    (disconnects c).

Definition set_heartbeat (v : option Heartbeat) (c : Conn) : Conn :=
  mkConn (config c) (_status c) (_disconnecting c) (_remoteProtoInfo c)
    (_callApiSn c) (_pendingCallApis c) (_apiHandlers c) v
    (lastHeartbeatLatency c) (items c) (promises c) (timers c)
    (disconnects c).

Definition set_lastHeartbeatLatency (v : Z) (c : Conn) : Conn :=
  mkConn (config c) (_status c) (_disconnecting c) (_remoteProtoInfo c)
    (_callApiSn c) (_pendingCallApis c) (_apiHandlers c) (_heartbeat c)
    v (items c) (promises c) (timers c) (disconnects c).

Definition set_items (v : list PendingCallApiItem) (c : Conn) : Conn :=
  mkConn (config c) (_status c) (_disconnecting c) (_remoteProtoInfo c)
    (_callApiSn c) (_pendingCallApis c) (_apiHandlers c) (_heartbeat c)
    (lastHeartbeatLatency c) v (promises c) (timers c) (disconnects c).

Definition set_promises (v : list ReturnPromise) (c : Conn) : Conn :=
  mkConn (config c) (_status c) (_disconnecting c) (_remoteProtoInfo c)
    (_callApiSn c) (_pendingCallApis c) (_apiHandlers c) (_heartbeat c)
    (lastHeartbeatLatency c) (items c) v (timers c) (disconnects c).

Definition set_timers (v : list Timer) (c : Conn) : Conn :=
  mkConn (config c) (_status c) (_disconnecting c) (_remoteProtoInfo c)
    (_callApiSn c) (_pendingCallApis c) (_apiHandlers c) (_heartbeat c)
    (lastHeartbeatLatency c) (items c) (promises c) v (disconnects c).

Definition set_disconnects (v : list (option OpResultVoid)) (c : Conn)
  : Conn :=
  mkConn (config c) (_status c) (_disconnecting c) (_remoteProtoInfo c)
    (_callApiSn c) (_pendingCallApis c) (_apiHandlers c) (_heartbeat c)
    (lastHeartbeatLatency c) (items c) (promises c) (timers c) v.

(** A freshly constructed connection. *)
Definition newConnection (cfg : Config) : Conn :=
  {| config := cfg; _status := Disconnected; _disconnecting := None;
     _remoteProtoInfo := None; _callApiSn := newCounter 1;
     _pendingCallApis := []; _apiHandlers := ∅; _heartbeat := None;
     lastHeartbeatLatency := 0; items := []; promises := [];
     timers := []; disconnects := [] |}.

(** ** Calls to collaborators *)

(** The methods of [Logger]. *)
Inductive LogLevel := debug | info | warn | error.

(** Modelled from the spec: the data handed to the flows, declared in
    [BaseConnectionFlows.ts], which is not part of the sources.  In the
    data of the call flows [return] is absent before the call. *)
Record CallApiFlowData := mkCallApiFlowData {
  f_apiName : string;
  f_req : Body;
  f_return : option ApiReturn
}.

Record CallApiReturnFlowData := mkCallApiReturnFlowData {
  fr_apiName : string;
  fr_req : Body;
  fr_return : ApiReturn
}.

Record SendDataFlowData := mkSendDataFlowData {
  sd_data : RawData;
  sd_transportData : TransportData;
  sd_call : option nat
}.

Record RecvDataFlowData := mkRecvDataFlowData {
  rd_data : RawData;
  rd_decodedData : option TransportData
}.

Record MsgFlowData := mkMsgFlowData {
  mf_msgName : string;
  mf_msg : Body
}.

(** [this.flows.X.exec(data, this.logger)]. *)
Inductive FlowCall :=
| postConnectFlow
| postDisconnectFlow (isManual : bool) (reason : option string)
| preCallApiFlow (d : CallApiFlowData)
| preCallApiReturnFlow (d : CallApiReturnFlowData)
| preSendDataFlow (d : SendDataFlowData)
| postSendDataFlow (d : SendDataFlowData)
| preRecvDataFlow (data : RawData)
| preRecvMsgFlow (d : MsgFlowData).

(** What a segment does besides changing the connection, in the order
    it does it: calls of the logger, of a flow, of the transport
    ([_sendData], [_doDisconnect]), of the timers and of other
    collaborators, invocations of the callbacks stored on a pending call
    ([onReturn], [onAbort]), and calls of the resolver of a call's
    promise. *)
Inductive Effect :=
| e_log (level : LogLevel) (tag : string)
| e_flow (f : FlowCall)
| e_sendData (data : RawData) (td : TransportData)
             (opts : option TransportOptions)
| e_doDisconnect (isManual : bool) (reason : option string)
| e_setTimeout (t : TimerId) (ms : Z)
| e_clearTimeout (t : TimerId)
| e_onReturn (item : ItemId) (ret : ApiReturn)
| e_resolve (p : PromiseId) (ret : ApiReturn)
| e_onAbort (item : ItemId)
| e_addAbortListener (signal : nat) (sn : Z)
| e_apiCallExecute (serviceName : string) (sn : Z) (body : Body)
                   (protoInfo : option ProtoInfo)
| e_emitMsg (msgName : string) (msg : Body)
| e_recvCustom (td : TransportData).

(** What an [async] method has come to at the end of a segment. *)
Inductive Async (A K : Type) :=
| Resolved (a : A)
| PROMISE_ABORTED
| Suspended (k : K).
Arguments Resolved {A K} a.
Arguments PROMISE_ABORTED {A K}.
Arguments Suspended {A K} k.

(** ** The monad of segments *)

Definition M (A : Type) : Type := Conn -> A * Conn * list Effect.

#[global] Instance M_ret : MRet M := fun A a st => (a, st, []).

#[global] Instance M_bind : MBind M := fun A B f m st =>
  let '(a, st1, e1) := m st in
  let '(b, st2, e2) := f a st1 in
  (b, st2, e1 ++ e2).

Definition getS : M Conn := fun st => (st, st, []).
Definition modify (f : Conn -> Conn) : M unit := fun st => (tt, f st, []).
Definition emit (e : Effect) : M unit := fun st => (tt, st, [e]).
Definition when (b : bool) (m : M unit) : M unit :=
  if b then m else mret tt.
Definition log (level : LogLevel) (tag : string) : M unit :=
  emit (e_log level tag).

Definition result {A} (r : A * Conn * list Effect) : A := r.1.1.
Definition state {A} (r : A * Conn * list Effect) : Conn := r.1.2.
Definition effects {A} (r : A * Conn * list Effect) : list Effect := r.2.

(** *** The object store *)

Definition noItem : PendingCallApiItem :=
  {| sn := 0; apiName := ""; req := ""; isAborted := false;
     abortKey := None; abortSignal := None; onAbort := None;
     onReturn := None |}.

(** Reading through a reference.  Every reference handed to a segment
    was returned by [callApi], so the fallback is never used. *)
Definition deref (st : Conn) (id : ItemId) : PendingCallApiItem :=
  default noItem (items st !! id).

Definition set_onReturn (v : option PromiseId) (it : PendingCallApiItem)
  : PendingCallApiItem :=
  {| sn := sn it; apiName := apiName it; req := req it;
     isAborted := isAborted it; abortKey := abortKey it;
     abortSignal := abortSignal it; onAbort := onAbort it;
     onReturn := v |}.

Definition set_isAborted (v : bool) (it : PendingCallApiItem)
  : PendingCallApiItem :=
  {| sn := sn it; apiName := apiName it; req := req it;
     isAborted := v; abortKey := abortKey it;
     abortSignal := abortSignal it; onAbort := onAbort it;
     onReturn := onReturn it |}.

Definition newItem (it : PendingCallApiItem) : M ItemId := fun st =>
  (length (items st), set_items (items st ++ [it]) st, []).

Definition updateItem (id : ItemId)
  (f : PendingCallApiItem -> PendingCallApiItem) : M unit :=
  modify (fun st => set_items (alter f id (items st)) st).

Definition pending_set (k : Z) (id : ItemId) : M unit :=
  modify (fun st =>
    set_pendingCallApis (JsMap.set k id (_pendingCallApis st)) st).

Definition pending_delete (k : Z) : M unit :=
  modify (fun st =>
    set_pendingCallApis (JsMap.delete k (_pendingCallApis st)) st).

(** [setTimeout(cb, ms)] and [clearTimeout(t)]. *)
Definition setTimeout (cb : TimerCallback) (ms : Z) : M TimerId :=
  fun st =>
    let t := length (timers st) in
    (t, set_timers (timers st ++ [mkTimer cb ms true]) st,
     [e_setTimeout t ms]).

Definition disarm (tm : Timer) : Timer :=
  mkTimer (tm_callback tm) (tm_delay tm) false.

Definition clearTimeout (t : TimerId) : M unit := fun st =>
  (tt, set_timers (alter disarm t (timers st)) st, [e_clearTimeout t]).

Definition newPromise : M PromiseId := fun st =>
  (length (promises st),
   set_promises (promises st ++ [mkReturnPromise None None]) st, []).

Definition set_rp_timer (v : option TimerId) (p : ReturnPromise)
  : ReturnPromise :=
  mkReturnPromise v (rp_value p).

(** [rs(ret)]: settles the promise unless it is already settled. *)
Definition settle (ret : ApiReturn) (p : ReturnPromise) : ReturnPromise :=
  match rp_value p with
  | Some _ => p
  | None => mkReturnPromise (rp_timer p) (Some ret)
  end.

Definition resolve (p : PromiseId) (ret : ApiReturn) : M unit :=
  modify (fun st => set_promises (alter (settle ret) p (promises st)) st);;
  emit (e_resolve p ret).

(** [map.forEach(f)] on the pending map while [f] may delete entries: an
    entry deleted before it is reached is not visited. *)
Fixpoint forEach_from (entries : list (Z * ItemId))
  (f : ItemId -> M unit) : M unit :=
  match entries with
  | [] => mret tt
  | (k, id) :: rest =>
      st ← getS;
      when (JsMap.has k (_pendingCallApis st)) (f id);;
      forEach_from rest f
  end.

Definition pending_forEach (f : ItemId -> M unit) : M unit :=
  st ← getS;
  forEach_from (_pendingCallApis st) f.

(** ** Transport: the send pipeline *)

Definition errConnNotConnected (st : Conn) : OpResultVoid :=
  OpFail (_errConnNotConnected (config st)) None.

(** What [_sendBox] keeps across its awaits. *)
Record SendBoxCont := mkSendBoxCont {
  sb_transportData : TransportData;
  sb_options : option TransportOptions;
  sb_call : option nat
}.

Record SendDataCont := mkSendDataCont {
  sc_data : RawData;
  sc_transportData : TransportData;
  sc_call : option nat
}.

(** [_sendBox], up to [await this.flows.preSendDataFlow.exec(...)]. *)
Definition _sendBox (box : Box) (dt : BaseConnectionDataType)
  (transportData : TransportData) (opts : option TransportOptions)
  (call : option nat) : M (Async OpResultVoid SendBoxCont) :=
  st ← getS;
  let cfg := config st in
  when (debugBuf (options cfg)) (log debug "[debugBuf] [SendBox]");;
  let opEncodeBox :=
    if decide (dt = buffer)
    then encodeBoxBuffer (util cfg) box (_encodeSkipSN cfg)
    else encodeBoxText (util cfg) box (_encodeSkipSN cfg) in
  match opEncodeBox with
  | OpFail errMsg errPhase => mret (Resolved (OpFail errMsg errPhase))
  | OpSucc data =>
      emit (e_flow (preSendDataFlow
                      (mkSendDataFlowData data transportData call)));;
      mret (Suspended (mkSendBoxCont transportData opts call))
  end.

(** [_sendBox], from the result [pre] of the flow up to
    [await this._sendData(...)]. *)
Definition _sendBox_afterPreSendData (k : SendBoxCont)
  (pre : option SendDataFlowData) : M (Async OpResultVoid SendDataCont) :=
  match pre with
  | None => mret PROMISE_ABORTED
  | Some pre =>
      st ← getS;
      if decide (_status st = Connected) then
        when (debugBuf (options (config st)))
             (log debug "[debugBuf] [SendData]");;
        emit (e_sendData (sd_data pre) (sb_transportData k)
                         (sb_options k));;
        mret (Suspended (mkSendDataCont (sd_data pre)
                           (sb_transportData k) (sb_call k)))
      else mret (Resolved (errConnNotConnected st))
  end.

(** [_sendBox], from the result [opSend] of [_sendData] to the end. *)
Definition _sendBox_afterSendData (k : SendDataCont)
  (opSend : OpResultVoid) : M OpResultVoid :=
  match opSend with
  | OpSucc _ =>
      emit (e_flow (postSendDataFlow
                      (mkSendDataFlowData (sc_data k)
                         (sc_transportData k) (sc_call k))));;
      mret opSend
  | OpFail _ _ => mret opSend
  end.

(** [_sendTransportData]: it has no await of its own and ends by
    returning the promise of [_sendBox]. *)
Definition _sendTransportData (transportData : TransportData)
  (opts : option TransportOptions) (call : option nat)
  : M (Async OpResultVoid SendBoxCont) :=
  st ← getS;
  let cfg := config st in
  when (debugBuf (options cfg))
       (log debug "[debugBuf] [SendTransportData]");;
  if decide (_status st = Connected) then
    let dt := default (dataType cfg) (opts ≫= opt_dataType) in
    let opEncodeBody :=
      if decide (dt = buffer)
      then encodeBodyBuffer (util cfg) transportData
             (skipEncodeValidate (options cfg))
      else encodeBodyText (util cfg) transportData
             (skipEncodeValidate (options cfg)) in
    match opEncodeBody with
    | OpFail errMsg errPhase => mret (Resolved (OpFail errMsg errPhase))
    | OpSucc box => _sendBox box dt transportData opts call
    end
  else mret (Resolved (errConnNotConnected st)).

(** ** API client *)

Definition timeoutReturn : ApiReturn :=
  ApiFail (mkTsrpcError "Request Timeout" NetworkError (Some "TIMEOUT")).

(** [_waitApiReturn]: the promise executor runs at once; it arms the
    timer when [timeout] is truthy and installs [onReturn]. *)
Definition _waitApiReturn (pendingItem : ItemId) (timeout : Z)
  : M PromiseId :=
  p ← newPromise;
  (if truthyZ timeout then
     t ← setTimeout (cb_apiTimeout pendingItem p) timeout;
     modify (fun st =>
       set_promises (alter (set_rp_timer (Some t)) p (promises st)) st)
   else mret tt);;
  updateItem pendingItem (set_onReturn (Some p));;
  mret p.

(** The timer callback of [_waitApiReturn]. *)
Definition apiTimeout (pendingItem : ItemId) (p : PromiseId) : M unit :=
  modify (fun st =>
    set_promises (alter (set_rp_timer None) p (promises st)) st);;
  st ← getS;
  pending_delete (sn (deref st pendingItem));;
  resolve p timeoutReturn.

(** [item.onReturn?.(ret)]: nothing when no closure is installed,
    otherwise the body of the closure built by [_waitApiReturn]. *)
Definition call_onReturn (item : ItemId) (ret : ApiReturn) : M unit :=
  st ← getS;
  match onReturn (deref st item) with
  | None => mret tt
  | Some p =>
      emit (e_onReturn item ret);;
      match rp_timer (default (mkReturnPromise None None)
                              (promises st !! p)) with
      | Some t =>
          clearTimeout t;;
          modify (fun st =>
            set_promises (alter (set_rp_timer None) p (promises st)) st)
      | None => mret tt
      end;;
      pending_delete (sn (deref st item));;
      resolve p ret
  end.

(** [abort(sn)]. *)
Definition abort (sn0 : Z) : M unit :=
  st ← getS;
  match JsMap.get sn0 (_pendingCallApis st) with
  | None => mret tt
  | Some pendingItem =>
      pending_delete sn0;;
      when (logApi (options (config st))) (log info "[callApi] [Abort]");;
      updateItem pendingItem (set_onReturn None);;
      updateItem pendingItem (set_isAborted true);;
      match onAbort (deref st pendingItem) with
      | Some _ => emit (e_onAbort pendingItem)
      | None => mret tt
      end
  end.

Definition abortByKey (key : string) : M unit :=
  pending_forEach (fun v =>
    st ← getS;
    if decide (abortKey (deref st v) = Some key)
    then abort (sn (deref st v)) else mret tt).

Definition abortAll : M unit :=
  pending_forEach (fun v => st ← getS; abort (sn (deref st v))).

(** [_recvApiReturn]: it is only called with [res] and [err] data. *)
Definition _recvApiReturn (transportData : TransportData) : M unit :=
  let dispatch (sn0 : Z) (apiReturn : ApiReturn) : M unit :=
    st ← getS;
    match JsMap.get sn0 (_pendingCallApis st) with
    | None => mret tt
    | Some item =>
        if isAborted (deref st item) then mret tt
        else call_onReturn item apiReturn
    end in
  match transportData with
  | td_err sn0 err _ =>
      if (sn0 =? 0)%Z then log error "[RemoteErr]"
      else dispatch sn0 (ApiFail err)
  | td_res _ sn0 body _ => dispatch sn0 (ApiSucc body)
  | _ => mret tt
  end.

(** What [_doCallApi] keeps across its awaits. *)
Record DoCallApiCont := mkDoCallApiCont {
  dc_pendingItem : ItemId;
  dc_promiseSend : Async OpResultVoid SendBoxCont;
  dc_promiseReturn : PromiseId
}.

(** [_doCallApi], up to [await promiseSend]. *)
Definition _doCallApi (serviceName : string) (req0 : Body)
  (pendingItem : ItemId) (opts : option TransportOptions)
  : M DoCallApiCont :=
  st ← getS;
  let transportData :=
    td_req serviceName (sn (deref st pendingItem)) req0
      (match _remoteProtoInfo st with
       | None => Some (_localProtoInfo (config st))
       | Some _ => None
       end) in
  promiseSend ← _sendTransportData transportData opts None;
  promiseReturn ← _waitApiReturn pendingItem
    (default (callApiTimeout (options (config st)))
             (opts ≫= opt_timeout));
  mret (mkDoCallApiCont pendingItem promiseSend promiseReturn).

(** [_doCallApi], from the result of [promiseSend] up to
    [await promiseReturn]. *)
Definition _doCallApi_afterSend (k : DoCallApiCont)
  (opSend : OpResultVoid) : M (Async ApiReturn DoCallApiCont) :=
  match opSend with
  | OpFail errMsg _ =>
      mret (Resolved (ApiFail (mkTsrpcError errMsg LocalError None)))
  | OpSucc _ => mret (Suspended k)
  end.

(** [_doCallApi], from the value [ret] of [promiseReturn] to the end. *)
Definition _doCallApi_afterReturn (k : DoCallApiCont) (ret : ApiReturn)
  : M (Async ApiReturn DoCallApiCont) :=
  st ← getS;
  if isAborted (deref st (dc_pendingItem k))
  then mret PROMISE_ABORTED else mret (Resolved ret).

(** What [callApi] keeps across its awaits. *)
Inductive CallApiCont :=
| awaits_preCallApiFlow (pendingItem : ItemId) (apiName0 : string)
    (opts : option TransportOptions)
| awaits_doCallApi (pendingItem : ItemId) (apiName0 : string)
    (preCall : CallApiFlowData) (k : DoCallApiCont)
| awaits_preCallApiReturnFlow (pendingItem : ItemId) (apiName0 : string).

(** [callApi], up to [await this.flows.preCallApiFlow.exec(...)]. *)
Definition callApi (apiName0 : string) (req0 : Body)
  (opts : option TransportOptions) : M CallApiCont :=
  st ← getS;
  let '(sn0, ctr) := getNext false (_callApiSn st) in
  modify (set_callApiSn ctr);;
  when (logApi (options (config st))) (log info "[callApi] [Req]");;
  pendingItem ← newItem
    {| sn := sn0; apiName := apiName0; req := req0; isAborted := false;
       abortKey := opts ≫= opt_abortKey;
       abortSignal := opts ≫= opt_abortSignal;
       onAbort := None; onReturn := None |};
  pending_set sn0 pendingItem;;
  match opts ≫= opt_abortSignal with
  | Some signal => emit (e_addAbortListener signal sn0)
  | None => mret tt
  end;;
  emit (e_flow (preCallApiFlow (mkCallApiFlowData apiName0 req0 None)));;
  mret (awaits_preCallApiFlow pendingItem apiName0 opts).

(** [callApi], from the value [ret] (of [preCall.return] or of
    [_doCallApi]) up to [await this.flows.preCallApiReturnFlow.exec]. *)
Definition callApi_afterGetReturn (pendingItem : ItemId)
  (apiName0 : string) (preCall : CallApiFlowData) (ret : ApiReturn)
  : M (Async ApiReturn CallApiCont) :=
  st ← getS;
  if isAborted (deref st pendingItem) then mret PROMISE_ABORTED
  else
    emit (e_flow (preCallApiReturnFlow
                    (mkCallApiReturnFlowData (f_apiName preCall)
                       (f_req preCall) ret)));;
    mret (Suspended (awaits_preCallApiReturnFlow pendingItem apiName0)).

(** [callApi], from the result [preCall] of the flow up to the next
    await: of [_doCallApi], or, when the flow supplied a return value,
    of the return flow. *)
Definition callApi_afterPreCall (pendingItem : ItemId)
  (apiName0 : string) (opts : option TransportOptions)
  (preCall : option CallApiFlowData) : M (Async ApiReturn CallApiCont) :=
  st ← getS;
  match preCall with
  | Some preCall =>
      if isAborted (deref st pendingItem) then
        abort (sn (deref st pendingItem));;
        mret PROMISE_ABORTED
      else
        match f_return preCall with
        | Some ret =>
            callApi_afterGetReturn pendingItem apiName0 preCall ret
        | None =>
            k ← _doCallApi (f_apiName preCall) (f_req preCall)
                  pendingItem opts;
            mret (Suspended
                    (awaits_doCallApi pendingItem apiName0 preCall k))
        end
  | None =>
      abort (sn (deref st pendingItem));;
      mret PROMISE_ABORTED
  end.

(** [callApi], from the result [preReturn] of the return flow to the
    end. *)
Definition callApi_afterPreReturn (pendingItem : ItemId)
  (apiName0 : string) (preReturn : option CallApiReturnFlowData)
  : M (Async ApiReturn CallApiCont) :=
  st ← getS;
  match preReturn with
  | Some preReturn =>
      if isAborted (deref st pendingItem) then
        abort (sn (deref st pendingItem));;
        mret PROMISE_ABORTED
      else
        let ret := fr_return preReturn in
        when (logApi (options (config st)))
          (if isSucc ret then log info "[callApi] [Res]"
           else match ret with
                | ApiFail e =>
                    if decide (type e = ApiError)
                    then log info "[callApi] [Err]"
                    else log error "[callApi] [Err]"
                | ApiSucc _ => mret tt
                end);;
        pending_delete (sn (deref st pendingItem));;
        mret (Resolved ret)
  | None =>
      abort (sn (deref st pendingItem));;
      mret PROMISE_ABORTED
  end.

(** ** Heartbeat *)

Definition set_hb_sendTimer (v : option TimerId) (hb : Heartbeat)
  : Heartbeat :=
  mkHeartbeat (hb_sn hb) v (recvTimeout hb) (lastSendTime hb).

Definition set_hb_recvTimeout (v : option TimerId) (hb : Heartbeat)
  : Heartbeat :=
  mkHeartbeat (hb_sn hb) (sendTimer hb) v (lastSendTime hb).

Definition modify_heartbeat (f : Heartbeat -> Heartbeat) : M unit :=
  modify (fun st => set_heartbeat (f <$> _heartbeat st) st).

Definition _stopHeartbeat : M unit :=
  st ← getS;
  match _heartbeat st ≫= sendTimer with
  | Some t => clearTimeout t
  | None => mret tt
  end;;
  match _heartbeat st ≫= recvTimeout with
  | Some t => clearTimeout t
  | None => mret tt
  end;;
  modify (set_heartbeat None).

(** [now] stands for the value of [performance.now()]. *)
Definition _sendHeartbeat (now : Z) : M unit :=
  st ← getS;
  match _heartbeat st with
  | None => mret tt
  | Some hb =>
      let '(n, ctr) := getNext false (hb_sn hb) in
      modify (set_heartbeat
                (Some (mkHeartbeat ctr (sendTimer hb) (recvTimeout hb)
                         now)));;
      _ ← _sendTransportData (td_heartbeat n None) None None;
      mret tt
  end.

Definition _resetHeartbeatTimeout : M unit :=
  st ← getS;
  match _heartbeat st with
  | None => mret tt
  | Some hb =>
      match recvTimeout hb with
      | Some t => clearTimeout t
      | None => mret tt
      end;;
      t ← setTimeout cb_recvHeartbeatTimeout
            (heartbeatRecvTimeout (options (config st)));
      modify_heartbeat (set_hb_recvTimeout (Some t))
  end.

Definition _startHeartbeat (now : Z) : M unit :=
  st ← getS;
  match _heartbeat st with
  | Some _ => mret tt
  | None =>
      (if truthyZ (heartbeatSendInterval (options (config st))) then
         modify (set_heartbeat
                   (Some (mkHeartbeat (newCounter 1) None None 0)));;
         _sendHeartbeat now
       else mret tt);;
      _resetHeartbeatTimeout
  end.

(** [_recvHeartbeat(data)] for [data = {type: 'heartbeat', sn, isReply}]. *)
Definition _recvHeartbeat (now : Z) (sn0 : Z) (isReply : option bool)
  : M unit :=
  st ← getS;
  match _heartbeat st with
  | None => mret tt
  | Some _ =>
      _resetHeartbeatTimeout;;
      if default false isReply then
        modify (fun st =>
          set_lastHeartbeatLatency
            (now - default 0 (lastSendTime <$> _heartbeat st))%Z st);;
        if truthyZ (heartbeatSendInterval (options (config st))) then
          t ← setTimeout cb_sendHeartbeat
                (heartbeatSendInterval (options (config st)));
          modify_heartbeat (set_hb_sendTimer (Some t))
        else mret tt
      else
        _ ← _sendTransportData (td_heartbeat sn0 (Some true)) None None;
        mret tt
  end.

(** ** Status and disconnection *)

(** The [status] setter. *)
Definition status_setter (now : Z) (newStatus : ConnectionStatus)
  : M unit :=
  st ← getS;
  if decide (_status st = newStatus) then mret tt
  else
    modify (set_status newStatus);;
    if decide (newStatus = Connected) then
      when (heartbeat (options (config st))) (_startHeartbeat now);;
      emit (e_flow postConnectFlow)
    else mret tt.

Definition statusName (s : ConnectionStatus) : string :=
  match s with
  | Connecting => "Connecting" | Connected => "Connected"
  | Disconnecting => "Disconnecting" | Disconnected => "Disconnected"
  end.

Definition lostConnReturn (reason : option string) : ApiReturn :=
  ApiFail (mkTsrpcError
    ("Disconnected to server" ++
     match reason with
     | Some r => if truthyStr r then ", reason: " ++ r else ""
     | None => ""
     end)
    NetworkError (Some "LOST_CONN")).

(** What a call of [_disconnect] returns: a value, or the promise kept
    in [_disconnecting]. *)
Inductive DisconnectReturn :=
| dr_value (r : OpResultVoid)
| dr_promise (p : PromiseId).

Definition newDisconnectPromise : M PromiseId := fun st =>
  (length (disconnects st),
   set_disconnects (disconnects st ++ [None]) st, []).

(** [_disconnect], with the body of the inner [async] function up to
    [await Promise.race(...)]. *)
Definition _disconnect (isManual : bool) (reason : option string)
  : M DisconnectReturn :=
  st ← getS;
  match _disconnecting st with
  | Some p => mret (dr_promise p)
  | None =>
      if decide (_status st = Disconnected) then
        mret (dr_value (OpSucc tt))
      else if decide (_status st = Connected) then
        modify (set_status Disconnecting);;
        _stopHeartbeat;;
        pending_forEach (fun v => call_onReturn v (lostConnReturn reason));;
        emit (e_doDisconnect isManual reason);;
        _ ← setTimeout cb_disconnectTimeout 3000;
        p ← newDisconnectPromise;
        modify (set_disconnecting (Some p));;
        mret (dr_promise p)
      else
        mret (dr_value (OpFail
          ("You can only call " ++ dquote ++ "disconnect" ++ dquote
           ++ " if the " ++ connName (config st) ++ " status is "
           ++ dquote ++ "Connected" ++ dquote
           ++ " (the current status is " ++ dquote
           ++ statusName (_status st) ++ dquote ++ ")") None))
  end.

(** The [then] callback on the result [v] of [_doDisconnect]. *)
Definition _disconnect_doDisconnectDone (v : OpResultVoid) : M unit :=
  match v with
  | OpSucc _ => mret tt
  | OpFail _ _ => log debug "[DisconnectErr]"
  end.

(** The inner function of [_disconnect] after the race, to its end. *)
Definition _disconnect_afterRace (isManual : bool)
  (reason : option string) (p : PromiseId) : M OpResultVoid :=
  modify (set_status Disconnected);;
  st ← getS;
  when (logConnect (options (config st)))
    (match side (config st) with
     | client =>
         if negb isManual
         then log warn "[Disconnect] Lost connection to the server"
         else log info "[Disconnect] Disconnected successfully"
     | server => log info "[Disconnect] Connection disconnected"
     end);;
  emit (e_flow (postDisconnectFlow isManual reason));;
  modify (fun st =>
    set_disconnects (<[p := Some (OpSucc tt)]> (disconnects st)) st);;
  mret (OpSucc tt).

(** The final [then] callback: [this._disconnecting = undefined]. *)
Definition _disconnect_settled : M unit :=
  modify (set_disconnecting None).

(** A timer fires: at most once, and not after [clearTimeout]. *)
Definition timer_fired (now : Z) (t : TimerId) : M unit :=
  st ← getS;
  match timers st !! t with
  | Some tm =>
      if tm_armed tm then
        modify (fun st => set_timers (alter disarm t (timers st)) st);;
        match tm_callback tm with
        | cb_apiTimeout item p => apiTimeout item p
        | cb_disconnectTimeout =>
            log debug "[DisconnectErr] _doDisconnect timeout"
        | cb_sendHeartbeat => _sendHeartbeat now
        | cb_recvHeartbeatTimeout =>
            _ ← _disconnect false (Some "Receive heartbeat timeout");
            mret tt
        end
      else mret tt
  | None => mret tt
  end.

(** ** Transport: the receive pipeline *)

(** [_recvApiReq]: builds an [ApiCall] and executes it; [ApiCall] is a
    collaborator. *)
Definition _recvApiReq (serviceName : string) (sn0 : Z) (body : Body)
  (protoInfo : option ProtoInfo) : M unit :=
  emit (e_apiCallExecute serviceName sn0 body protoInfo).

(** [_recvMsg], up to [await this.flows.preRecvMsgFlow.exec(...)]. *)
Definition _recvMsg (serviceName : string) (body : Body) : M unit :=
  st ← getS;
  when (logMsg (options (config st))) (log info "[RecvMsg]");;
  emit (e_flow (preRecvMsgFlow (mkMsgFlowData serviceName body))).

(** [_recvMsg], from the result of the flow to the end. *)
Definition _recvMsg_afterPreRecvMsg (serviceName : string) (body : Body)
  (pre : option MsgFlowData) : M unit :=
  match pre with
  | None => mret tt
  | Some _ => emit (e_emitMsg serviceName body)
  end.

Definition _recvTransportData (now : Z) (transportData : TransportData)
  : M unit :=
  st ← getS;
  when (debugBuf (options (config st)))
       (log debug "[debugBuf] [RecvTransportData]");;
  match td_protoInfo transportData with
  | Some p => modify (set_remoteProtoInfo (Some p))
  | None => mret tt
  end;;
  match transportData with
  | td_req serviceName sn0 body protoInfo =>
      _recvApiReq serviceName sn0 body protoInfo
  | td_res _ _ _ _ | td_err _ _ _ => _recvApiReturn transportData
  | td_msg serviceName body => _recvMsg serviceName body
  | td_heartbeat sn0 isReply => _recvHeartbeat now sn0 isReply
  | td_custom _ =>
      when (_recvCustom (config st)) (emit (e_recvCustom transportData))
  end.

Definition errProtoDifferent : string :=
  "Cannot decode body from the data, because the serviceProto is different between the local and remote.".

Definition errBodyUnknown : string :=
  "Cannot decode body from the data, the box encoding is valid, but the body encoding is unknown.".

(** [_recvBox]: it has no await. *)
Definition _recvBox (now : Z) (box : Box) (dt : BaseConnectionDataType)
  : M OpResultVoid :=
  st ← getS;
  let cfg := config st in
  when (debugBuf (options cfg)) (log debug "[debugBuf] [RecvBox]");;
  let opDecodeBody :=
    if decide (dt = text)
    then decodeBodyText (util cfg) box (skipDecodeValidate (options cfg))
    else decodeBodyBuffer (util cfg) box
           (skipDecodeValidate (options cfg)) in
  match opDecodeBody with
  | OpFail errMsg errPhase =>
      when (debugBuf (options cfg)) (log debug "[DecodeBodyErr]");;
      let protoNotSynced :=
        match box_protoInfo box with
        | Some remote =>
            negb (String.eqb (md5 remote) (md5 (_localProtoInfo cfg)))
        | None => false
        end in
      let errReason :=
        if decide (errPhase = Some "validate") then errMsg
        else if decide (dt = text) then errMsg
        else if protoNotSynced then errProtoDifferent
        else errBodyUnknown in
      log error "[RecvDataErr] ";;
      match box_type box with
      | box_req =>
          _ ← _sendTransportData
                (td_err (box_sn box)
                   (mkTsrpcError errReason RemoteError None)
                   (Some (_localProtoInfo cfg))) None None;
          mret tt
      | box_res =>
          _recvTransportData now
            (td_err (box_sn box)
               (mkTsrpcError errReason LocalError None)
               (box_protoInfo box))
      | _ => mret tt
      end;;
      mret (OpFail errReason None)
  | OpSucc transportData =>
      _recvTransportData now transportData;;
      mret (OpSucc tt)
  end.

(** [_recvData], up to [await this.flows.preRecvDataFlow.exec(...)];
    what it keeps across the await is [boxInfo]. *)
Definition _recvData (data : RawData) (boxInfo : option Box)
  : M (Async OpResultVoid (option Box)) :=
  st ← getS;
  if decide (_status st = Connected) then
    when (debugBuf (options (config st)))
         (log debug "[debugBuf] [RecvData]");;
    emit (e_flow (preRecvDataFlow data));;
    mret (Suspended boxInfo)
  else mret PROMISE_ABORTED.

Definition pendingView (st : Conn) : JsMap PendingCallApiItem :=
  (fun e => (e.1, deref st e.2)) <$> _pendingCallApis st.

(** [_recvData], from the result [pre] of the flow to the end. *)
Definition _recvData_afterPreRecvData (now : Z) (boxInfo : option Box)
  (pre : option RecvDataFlowData)
  : M (Async OpResultVoid (option Box)) :=
  match pre with
  | None =>
      log debug "[preRecvDataFlow] Canceled";;
      mret PROMISE_ABORTED
  | Some pre =>
      match rd_decodedData pre with
      | Some decodedData =>
          _recvTransportData now decodedData;;
          mret (Resolved (OpSucc tt))
      | None =>
          st ← getS;
          let cfg := config st in
          let data := rd_data pre in
          let dt := raw_dataType data in
          let opDecodeBox :=
            match data with
            | raw_text s =>
                decodeBoxText (util cfg) s (pendingView st)
                  (skipDecodeValidate (options cfg)) boxInfo
            | raw_buffer b =>
                decodeBoxBuffer (util cfg) b (pendingView st)
                  (skipDecodeValidate (options cfg)) boxInfo
            end in
          match opDecodeBox with
          | OpFail errMsg errPhase =>
              log debug "[RecvDataErr]";;
              (if decide (dt = text) then
                 log error "[RecvDataErr] Invalid data format."
               else if decide (errPhase = Some "validate") then
                 log error "[RecvDataErr] Invalid data format."
               else log error "[RecvDataErr] Unknown buffer encoding");;
              _ ← _sendTransportData
                    (td_err 0 (mkTsrpcError errMsg RemoteError None)
                       (Some (_localProtoInfo cfg))) None None;
              mret (Resolved (OpFail errMsg None))
          | OpSucc box =>
              _ ← _recvBox now box dt;
              mret (Resolved (OpSucc tt))
          end
      end
  end.

(** ** The connection as a transition system

    An event is one uninterrupted run of connection code: a call of a
    method by the user or the transport, the resumption of a suspended
    method with the value it was waiting for, or a timer firing. *)
Inductive Event :=
| ev_status (now : Z) (newStatus : ConnectionStatus)
| ev_callApi (apiName0 : string) (req0 : Body)
    (opts : option TransportOptions)
| ev_callApi_afterPreCall (pendingItem : ItemId) (apiName0 : string)
    (opts : option TransportOptions) (preCall : option CallApiFlowData)
| ev_doCallApi_afterSend (k : DoCallApiCont) (opSend : OpResultVoid)
| ev_doCallApi_afterReturn (k : DoCallApiCont) (ret : ApiReturn)
| ev_callApi_afterGetReturn (pendingItem : ItemId) (apiName0 : string)
    (preCall : CallApiFlowData) (ret : ApiReturn)
| ev_callApi_afterPreReturn (pendingItem : ItemId) (apiName0 : string)
    (preReturn : option CallApiReturnFlowData)
| ev_abort (sn0 : Z)
| ev_abortByKey (key : string)
| ev_abortAll
| ev_sendTransportData (td : TransportData)
    (opts : option TransportOptions) (call : option nat)
| ev_sendBox_afterPreSendData (k : SendBoxCont)
    (pre : option SendDataFlowData)
| ev_sendBox_afterSendData (k : SendDataCont) (opSend : OpResultVoid)
| ev_recvData (data : RawData) (boxInfo : option Box)
| ev_recvData_afterPreRecvData (now : Z) (boxInfo : option Box)
    (pre : option RecvDataFlowData)
| ev_recvTransportData (now : Z) (td : TransportData)
| ev_recvMsg_afterPreRecvMsg (serviceName : string) (body : Body)
    (pre : option MsgFlowData)
| ev_disconnect (isManual : bool) (reason : option string)
| ev_disconnect_doDisconnectDone (v : OpResultVoid)
| ev_disconnect_afterRace (isManual : bool) (reason : option string)
    (p : PromiseId)
| ev_disconnect_settled
| ev_timer (now : Z) (t : TimerId).

Definition ignore {A} (m : M A) : M unit := _ ← m; mret tt.

Definition handle (ev : Event) : M unit :=
  match ev with
  | ev_status now s => status_setter now s
  | ev_callApi a r o => ignore (callApi a r o)
  | ev_callApi_afterPreCall i a o pc =>
      ignore (callApi_afterPreCall i a o pc)
  | ev_doCallApi_afterSend k op => ignore (_doCallApi_afterSend k op)
  | ev_doCallApi_afterReturn k r => ignore (_doCallApi_afterReturn k r)
  | ev_callApi_afterGetReturn i a pc r =>
      ignore (callApi_afterGetReturn i a pc r)
  | ev_callApi_afterPreReturn i a pr =>
      ignore (callApi_afterPreReturn i a pr)
  | ev_abort sn0 => abort sn0
  | ev_abortByKey key => abortByKey key
  | ev_abortAll => abortAll
  | ev_sendTransportData td o c => ignore (_sendTransportData td o c)
  | ev_sendBox_afterPreSendData k pre =>
      ignore (_sendBox_afterPreSendData k pre)
  | ev_sendBox_afterSendData k op => ignore (_sendBox_afterSendData k op)
  | ev_recvData d b => ignore (_recvData d b)
  | ev_recvData_afterPreRecvData now b pre =>
      ignore (_recvData_afterPreRecvData now b pre)
  | ev_recvTransportData now td => _recvTransportData now td
  | ev_recvMsg_afterPreRecvMsg s b pre => _recvMsg_afterPreRecvMsg s b pre
  | ev_disconnect m r => ignore (_disconnect m r)
  | ev_disconnect_doDisconnectDone v => _disconnect_doDisconnectDone v
  | ev_disconnect_afterRace m r p => ignore (_disconnect_afterRace m r p)
  | ev_disconnect_settled => _disconnect_settled
  | ev_timer now t => timer_fired now t
  end.

(** Running a sequence of events and collecting what they emit. *)
Fixpoint run (evs : list Event) : M unit :=
  match evs with
  | [] => mret tt
  | ev :: evs' => handle ev;; run evs'
  end.

(** ** The older copy of the class

    It has the same members; its status values are called [Opening],
    [Opened], [Closing] and [Closed], its logger has [log] where the
    newer one has [info], and the data type is one of its options.  Only
    the methods that differ from the ones above are embedded. *)
Module Legacy.

Definition Opening : ConnectionStatus := Connecting.
Definition Opened : ConnectionStatus := Connected.
Definition Closing : ConnectionStatus := Disconnecting.
Definition Closed : ConnectionStatus := Disconnected.

(** The getter [_nextSn]: [this._callApiSn.getNext(true)]. *)
Definition _nextSn (st : Conn) : Z := (getNext true (_callApiSn st)).1.

(** [_sendTransportData], up to
    [await this.flows.preSendDataFlow.exec(...)]. *)
Definition _sendTransportData (transportData : TransportData)
  (opts : option TransportOptions)
  : M (Async OpResultVoid SendBoxCont) :=
  st ← getS;
  let cfg := config st in
  if decide (_status st = Opened) then
    let dt := default (dataType cfg) (opts ≫= opt_dataType) in
    let opEncodeBody :=
      if decide (dt = buffer)
      then encodeBodyBuffer (util cfg) transportData
             (skipEncodeValidate (options cfg))
      else encodeBodyText (util cfg) transportData
             (skipEncodeValidate (options cfg)) in
    match opEncodeBody with
    | OpFail errMsg errPhase => mret (Resolved (OpFail errMsg errPhase))
    | OpSucc box =>
        let opEncodeBox :=
          if decide (dt = buffer)
          then encodeBoxBuffer (util cfg) box None
          else encodeBoxText (util cfg) box (_encodeSkipSN cfg) in
        match opEncodeBox with
        | OpFail errMsg errPhase =>
            mret (Resolved (OpFail errMsg errPhase))
        | OpSucc data =>
            emit (e_flow (preSendDataFlow
                            (mkSendDataFlowData data transportData None)));;
            mret (Suspended (mkSendBoxCont transportData opts None))
        end
    end
  else
    mret (Resolved (OpFail
      ("Connection status is not " ++ dquote ++ "opened" ++ dquote
       ++ ", cannot send any data.") None)).

(** [_sendTransportData], from the result of the flow to the end: it
    returns the promise of [_sendData]. *)
Definition _sendTransportData_afterPreSendData (k : SendBoxCont)
  (pre : option SendDataFlowData) : M (Async OpResultVoid SendDataCont) :=
  match pre with
  | None => mret PROMISE_ABORTED
  | Some pre =>
      emit (e_sendData (sd_data pre) (sb_transportData k) (sb_options k));;
      mret (Suspended (mkSendDataCont (sd_data pre)
                         (sb_transportData k) None))
  end.

(** [_doCallApi], up to [await promiseSend]. *)
Definition _doCallApi (serviceName : string) (req0 : Body)
  (pendingItem : ItemId) (opts : option TransportOptions)
  : M DoCallApiCont :=
  st ← getS;
  let transportData :=
    td_req serviceName (_nextSn st) req0
      (match _remoteProtoInfo st with
       | None => Some (_localProtoInfo (config st))
       | Some _ => None
       end) in
  promiseSend ← _sendTransportData transportData opts;
  promiseReturn ← _waitApiReturn pendingItem
    (default (callApiTimeout (options (config st)))
             (opts ≫= opt_timeout));
  mret (mkDoCallApiCont pendingItem promiseSend promiseReturn).

(** [callApi], up to [await this.flows.preCallApiFlow.exec(...)]. *)
Definition callApi (apiName0 : string) (req0 : Body)
  (opts : option TransportOptions) : M CallApiCont :=
  st ← getS;
  let '(sn0, ctr) := getNext false (_callApiSn st) in
  modify (set_callApiSn ctr);;
  when (logApi (options (config st))) (log info "[CallApi] [Req]");;
  pendingItem ← newItem
    {| sn := sn0; apiName := apiName0; req := req0; isAborted := false;
       abortKey := opts ≫= opt_abortKey;
       abortSignal := opts ≫= opt_abortSignal;
       onAbort := None; onReturn := None |};
  pending_set sn0 pendingItem;;
  match opts ≫= opt_abortSignal with
  | Some signal => emit (e_addAbortListener signal sn0)
  | None => mret tt
  end;;
  emit (e_flow (preCallApiFlow (mkCallApiFlowData apiName0 req0 None)));;
  mret (awaits_preCallApiFlow pendingItem apiName0 opts).

(** [abort(sn)]. *)
Definition abort (sn0 : Z) : M unit :=
  st ← getS;
  match JsMap.get sn0 (_pendingCallApis st) with
  | None => mret tt
  | Some pendingItem =>
      pending_delete sn0;;
      when (logApi (options (config st))) (log info "[CallApi] [Abort]");;
      updateItem pendingItem (set_onReturn None);;
      updateItem pendingItem (set_isAborted true);;
      match onAbort (deref st pendingItem) with
      | Some _ => emit (e_onAbort pendingItem)
      | None => mret tt
      end
  end.

(** [callApi], from the result [preCall] of the flow up to the next
    await; this copy reads the value supplied by the flow from
    [preCall.ret], for which [f_return] stands here. *)
Definition callApi_afterPreCall (pendingItem : ItemId)
  (apiName0 : string) (opts : option TransportOptions)
  (preCall : option CallApiFlowData) : M (Async ApiReturn CallApiCont) :=
  st ← getS;
  match preCall with
  | Some preCall =>
      if isAborted (deref st pendingItem) then
        abort (sn (deref st pendingItem));;
        mret PROMISE_ABORTED
      else
        match f_return preCall with
        | Some ret =>
            emit (e_flow (preCallApiReturnFlow
                            (mkCallApiReturnFlowData (f_apiName preCall)
                               (f_req preCall) ret)));;
            mret (Suspended
                    (awaits_preCallApiReturnFlow pendingItem apiName0))
        | None =>
            k ← _doCallApi (f_apiName preCall) (f_req preCall)
                  pendingItem opts;
            mret (Suspended
                    (awaits_doCallApi pendingItem apiName0 preCall k))
        end
  | None =>
      abort (sn (deref st pendingItem));;
      mret PROMISE_ABORTED
  end.

(** [_recvApiReturn], up to
    [await this.flows.preCallApiReturnFlow.exec(...)]; it keeps [item]. *)
Definition _recvApiReturn (transportData : TransportData)
  : M (option ItemId) :=
  let lookup (sn0 : Z) (apiReturn : ApiReturn) : M (option ItemId) :=
    st ← getS;
    match JsMap.get sn0 (_pendingCallApis st) with
    | None =>
        log error "Invalid SN for callApi return: ";;
        mret None
    | Some item =>
        if isAborted (deref st item) then mret None
        else
          emit (e_flow (preCallApiReturnFlow
                          (mkCallApiReturnFlowData
                             (apiName (deref st item))
                             (req (deref st item)) apiReturn)));;
          mret (Some item)
    end in
  match transportData with
  | td_res _ sn0 body _ => lookup sn0 (ApiSucc body)
  | td_err sn0 err _ => lookup sn0 (ApiFail err)
  | _ => mret None
  end.

(** [_recvApiReturn], from the result [pre] of the flow to the end. *)
Definition _recvApiReturn_afterPreCallApiReturn (item : ItemId)
  (pre : option CallApiReturnFlowData) : M unit :=
  st ← getS;
  match pre with
  | Some pre =>
      if isAborted (deref st item) then mret tt
      else call_onReturn item (fr_return pre)
  | None => mret tt
  end.

(** The names that a plain object inherits from [Object.prototype].
    Each of them holds a function, and [__proto__] holds the prototype
    object itself: all of them are truthy. *)
Definition Object_prototype_keys : list string :=
  ["constructor"; "__defineGetter__"; "__defineSetter__";
   "hasOwnProperty"; "__lookupGetter__"; "__lookupSetter__";
   "isPrototypeOf"; "propertyIsEnumerable"; "toString"; "valueOf";
   "__proto__"; "toLocaleString"].

(** [this._apiHandlers[apiName]] used as a condition.  [_apiHandlers]
    is a plain object, created as [{}]: the map holds its own keys, an
    own key holds a handler (a function, which is truthy) or
    [undefined], and a name that is not an own key is looked up in
    [Object.prototype]. *)
Definition apiHandler_truthy (st : Conn) (apiName0 : string) : bool :=
  match _apiHandlers st !! apiName0 with
  | Some (Some _) => true
  | Some None => false
  | None => bool_decide (apiName0 ∈ Object_prototype_keys)
  end.

(** [implementApi]: the result is [inl msg] when it throws
    [new Error(msg)]. *)
Definition implementApi (apiName0 : string) (handler : ApiHandler)
  : M (string + unit) :=
  st ← getS;
  if apiHandler_truthy st apiName0 then
    mret (inl ("implementApi duplicately for: " ++ apiName0)%string)
  else
    modify (set_apiHandlers
              (<[apiName0 := Some handler]> (_apiHandlers st)));;
    log info "API implemented succ: ";;
    mret (inr tt).

End Legacy.

(** ** Well-formed pending maps *)

(** Every entry of the pending map is keyed by the sequence number of a
    stored item that is not aborted, and no key occurs twice. *)
Definition entry_okb (st : Conn) (e : Z * ItemId) : bool :=
  match items st !! e.2 with
  | Some it => (sn it =? e.1)%Z && negb (isAborted it)
  | None => false
  end.

Fixpoint nodup_keysb (m : JsMap ItemId) : bool :=
  match m with
  | [] => true
  | (k, _) :: m' => negb (JsMap.has k m') && nodup_keysb m'
  end.

Definition wf_pendingb (st : Conn) : bool :=
  forallb (entry_okb st) (_pendingCallApis st)
  && nodup_keysb (_pendingCallApis st).

(** The number of times [onReturn] of [item] was invoked in a trace. *)
Definition is_onReturn (item : ItemId) (e : Effect) : bool :=
  match e with
  | e_onReturn i _ => Nat.eqb i item
  | _ => false
  end.

Definition count_onReturn (item : ItemId) (es : list Effect) : nat :=
  length (List.filter (is_onReturn item) es).

Definition is_sendData (e : Effect) : bool :=
  match e with e_sendData _ _ _ => true | _ => false end.

Definition is_postDisconnect (e : Effect) : bool :=
  match e with e_flow (postDisconnectFlow _ _) => true | _ => false end.

(** ** A concrete client, used to run the embedding *)

Definition demoUtil : TransportDataUtil :=
  {| encodeBodyBuffer := fun _ _ => OpSucc (mkBox box_req 0 None "body");
     encodeBodyText := fun _ _ => OpSucc (mkBox box_req 0 None "body");
     encodeBoxBuffer := fun _ _ => OpSucc (raw_buffer [1%Z]);
     encodeBoxText := fun b _ => OpSucc (raw_text (box_payload b));
     decodeBoxText := fun _ _ _ _ => OpFail "cannot decode" None;
     decodeBoxBuffer := fun _ _ _ _ => OpFail "cannot decode" None;
     decodeBodyText := fun _ _ => OpFail "cannot decode" None;
     decodeBodyBuffer := fun _ _ => OpFail "cannot decode" None |}.

Definition demoConfig (opts : BaseConnectionOptions) : Config :=
  {| side := client; dataType := text; options := opts;
     _localProtoInfo := mkProtoInfo "md5-local" 0 "4.0" None;
     _encodeSkipSN := None; _recvCustom := false;
     _errConnNotConnected := "The client is not connected";
     util := demoUtil |}.

(** A client that has just been connected (heartbeat disabled). *)
Definition quietOptions : BaseConnectionOptions :=
  {| logConnect := false; logApi := false; logMsg := false;
     logReqBody := false; logResBody := false; debugBuf := false;
     callApiTimeout := 15000; apiCallTimeout := 15000;
     returnInnerError := true;
     skipEncodeValidate := false; skipDecodeValidate := false;
     heartbeat := false; heartbeatSendInterval := 0;
     heartbeatRecvTimeout := 5000 |}.

Definition demoConnected : Conn :=
  state (status_setter 0 Connected (newConnection (demoConfig quietOptions))).

Definition echoFlow : CallApiFlowData := mkCallApiFlowData "Echo" "hi" None.

(** The client after [callApi('Echo', 'hi')] has reached its first
    await: the call is registered, [onReturn] is not yet installed. *)
Definition demoCalling : Conn :=
  state (callApi "Echo" "hi" None demoConnected).

(** The same client once the flow has returned and [_doCallApi] waits
    for the request to be sent. *)
Definition demoWaiting : Conn :=
  state (callApi_afterPreCall 0 "Echo" None (Some echoFlow) demoCalling).

(** A client in receive-only heartbeat mode. *)
Definition recvOnlyOptions : BaseConnectionOptions :=
  {| logConnect := false; logApi := false; logMsg := false;
     logReqBody := false; logResBody := false; debugBuf := false;
     callApiTimeout := 15000; apiCallTimeout := 15000;
     returnInnerError := true;
     skipEncodeValidate := false; skipDecodeValidate := false;
     heartbeat := true; heartbeatSendInterval := 0;
     heartbeatRecvTimeout := 5000 |}.

Definition demoRecvOnly : Conn :=
  state (status_setter 0 Connected
           (newConnection (demoConfig recvOnlyOptions))).

(** A client whose disconnection is in flight. *)
Definition demoDisconnecting : Conn :=
  state (_disconnect true None demoConnected).

(** The older client with two calls started, both in their pre-call
    flow, and with only the first of them. *)
Definition legacyOneCall : Conn :=
  state (Legacy.callApi "A" "x" None demoConnected).

Definition legacyTwoCalls : Conn :=
  state (Legacy.callApi "B" "y" None legacyOneCall).

(** The request of a call is sent as data handed to [preSendDataFlow];
    [req_sns] lists the sequence numbers of the requests in a trace. *)
Definition req_sn (e : Effect) : option Z :=
  match e with
  | e_flow (preSendDataFlow d) =>
      match sd_transportData d with
      | td_req _ sn0 _ _ => Some sn0
      | _ => None
      end
  | _ => None
  end.

Definition req_sns (es : list Effect) : list Z := omap req_sn es.

(** A client with the default heartbeat (a ping every second). *)
Definition pingOptions : BaseConnectionOptions :=
  {| logConnect := false; logApi := false; logMsg := false;
     logReqBody := false; logResBody := false; debugBuf := false;
     callApiTimeout := 15000; apiCallTimeout := 15000;
     returnInnerError := true;
     skipEncodeValidate := false; skipDecodeValidate := false;
     heartbeat := true; heartbeatSendInterval := 1000;
     heartbeatRecvTimeout := 5000 |}.

Definition demoPinging : Conn :=
  state (status_setter 0 Connected
           (newConnection (demoConfig pingOptions))).

(** A heartbeat whose send pipeline was started while the client was
    connected. *)
Definition demoPing : TransportData := td_heartbeat 1 None.

Definition demoPingCont : SendBoxCont := mkSendBoxCont demoPing None None.

Definition demoPingData : SendDataFlowData :=
  mkSendDataFlowData (raw_text "body") demoPing None.

(** ** Relations between the states around a segment

    A relation between the state before a segment, the state after it
    and what the segment emitted is transitional when it holds of a
    segment that does nothing and of two segments run one after the
    other. *)
Class Transitional (R : Conn -> Conn -> list Effect -> Prop) := {
  R_refl : forall st, R st st [];
  R_trans : forall st st1 st2 e1 e2,
    R st st1 e1 -> R st1 st2 e2 -> R st st2 (e1 ++ e2)
}.

(** [sat R m]: the relation holds of the segment [m], whatever state it
    starts in. *)
Definition sat (R : Conn -> Conn -> list Effect -> Prop) {A} (m : M A)
  : Prop :=
  forall st, R st (state (m st)) (effects (m st)).

(** Nothing is handed to the transport. *)
Definition no_send : Conn -> Conn -> list Effect -> Prop :=
  fun _ _ es => List.filter is_sendData es = [].

(** The pending calls are left alone. *)
Definition frames : Conn -> Conn -> list Effect -> Prop :=
  fun st st' es =>
    _pendingCallApis st' = _pendingCallApis st
    /\ items st' = items st
    /\ forall item, count_onReturn item es = 0.

(** The status is kept and the post-disconnect flow is not run. *)
Definition keeps_status : Conn -> Conn -> list Effect -> Prop :=
  fun st st' es =>
    _status st' = _status st
    /\ List.filter is_postDisconnect es = [].

(** Every request carries the sequence number [n]. *)
Definition only_req (n : Z) : Conn -> Conn -> list Effect -> Prop :=
  fun _ _ es => Forall (fun e => forall m, req_sn e = Some m -> m = n) es.

(** Every entry of the pending map is keyed by the sequence number of a
    stored item that is not aborted, and no key occurs twice (the
    property that [wf_pendingb] decides). *)
Definition pending_ok (st : Conn) : Prop :=
  (forall k id, (k, id) ∈ _pendingCallApis st ->
     exists it, items st !! id = Some it /\ sn it = k
                /\ isAborted it = false)
  /\ NoDup (_pendingCallApis st).*1.

(** What a segment may do to the pending calls: items are only added,
    keep their sequence number and stay aborted once aborted; entries
    are only added for new items; and [onReturn] is invoked at most once
    per item, only for an item that was in the map or is new, which is
    then no longer in the map. *)
Record tracks (st st' : Conn) (es : list Effect) : Prop := mkTracks {
  tr_ok : pending_ok st';
  tr_len : length (items st) <= length (items st');
  tr_item : forall id it, items st !! id = Some it ->
    exists it', items st' !! id = Some it' /\ sn it' = sn it
                /\ (isAborted it = true -> isAborted it' = true);
  tr_sub : forall k id, (k, id) ∈ _pendingCallApis st' ->
    (k, id) ∈ _pendingCallApis st \/ length (items st) <= id;
  tr_once : forall id, count_onReturn id es <= 1;
  tr_ret : forall id, 0 < count_onReturn id es ->
    ((exists k, (k, id) ∈ _pendingCallApis st)
     \/ length (items st) <= id)
    /\ id < length (items st')
    /\ forall k, (k, id) ∉ _pendingCallApis st'
}.

Definition tracked : Conn -> Conn -> list Effect -> Prop :=
  fun st st' es => pending_ok st -> tracks st st' es.

(** ** Messages: [sendMsg] *)

(** [this.flows.preSendMsgFlow.exec(data, this.logger)] and
    [this.flows.postSendMsgFlow.exec(data, this.logger)]. *)
Inductive SendMsgFlowCall :=
| preSendMsgFlow (d : MsgFlowData)
| postSendMsgFlow (d : MsgFlowData).

(** What [sendMsg] keeps across the await of [_sendTransportData]: the
    data returned by the flow, and the promise it awaits. *)
Record SendMsgCont := mkSendMsgCont {
  sm_pre : MsgFlowData;
  sm_promiseSend : Async OpResultVoid SendBoxCont
}.

(** [sendMsg], up to [await this.flows.preSendMsgFlow.exec(...)]: the
    call of the flow, which is the result, is all it does. *)
Definition sendMsg (msgName : string) (msg : Body) : M SendMsgFlowCall :=
  mret (preSendMsgFlow (mkMsgFlowData msgName msg)).

(** [sendMsg], from the result [pre] of the flow up to
    [await this._sendTransportData(...)]. *)
Definition sendMsg_afterPreSendMsg (opts : option TransportOptions)
  (pre : option MsgFlowData) : M (Async OpResultVoid SendMsgCont) :=
  match pre with
  | None => mret PROMISE_ABORTED
  | Some pre =>
      promiseSend ← _sendTransportData
                      (td_msg (mf_msgName pre) (mf_msg pre)) opts None;
      mret (Suspended (mkSendMsgCont pre promiseSend))
  end.

(** [sendMsg], from the result [opResult] of [_sendTransportData] to the
    end.  The call of [postSendMsgFlow.exec] is the last statement before
    [return opResult]; it is the first component of the result. *)
Definition sendMsg_afterSend (k : SendMsgCont) (opResult : OpResultVoid)
  : M (SendMsgFlowCall * OpResultVoid) :=
  st ← getS;
  match opResult with
  | OpSucc _ => when (logMsg (options (config st))) (log info "[SendMsg]")
  | OpFail errMsg _ =>
      log error
        ("[SendMsgErr] " ++ mf_msgName (sm_pre k) ++ " " ++ errMsg)%string
  end;;
  mret (postSendMsgFlow (sm_pre k), opResult).

(** ** The older copy of the class: messages and the receive pipeline *)

Module LegacyIO.

(** [sendMsg]: its first segment is the one above. *)
Definition sendMsg_afterPreSendMsg (opts : option TransportOptions)
  (pre : option MsgFlowData) : M (Async OpResultVoid SendMsgCont) :=
  match pre with
  | None => mret PROMISE_ABORTED
  | Some pre =>
      promiseSend ← Legacy._sendTransportData
                      (td_msg (mf_msgName pre) (mf_msg pre)) opts;
      mret (Suspended (mkSendMsgCont pre promiseSend))
  end.

(** [sendMsg], from the result of [_sendTransportData] to the end; this
    copy has no [postSendMsgFlow]. *)
Definition sendMsg_afterSend (k : SendMsgCont) (opResult : OpResultVoid)
  : M OpResultVoid :=
  st ← getS;
  match opResult with
  | OpSucc _ => when (logMsg (options (config st))) (log info "[SendMsg]")
  | OpFail _ _ =>
      log error
        ("[SendMsgErr] [" ++ mf_msgName (sm_pre k) ++ "] XXXXXXXX")%string
  end;;
  mret opResult.

(** [_recvMsg], up to [await this.flows.preRecvMsgFlow.exec(...)]; the
    rest of it is [_recvMsg_afterPreRecvMsg]. *)
Definition _recvMsg (serviceName : string) (body : Body) : M unit :=
  emit (e_flow (preRecvMsgFlow (mkMsgFlowData serviceName body))).

(** What [_recvTransportData] has started and left suspended. *)
Inductive RecvCont :=
| recv_done
| awaits_preCallApiReturnFlow (item : ItemId)
| awaits_preRecvMsgFlow (serviceName : string) (body : Body).

(** [_recvTransportData]: the [heartbeat] case is empty, and there is no
    case for [custom]. *)
Definition _recvTransportData (transportData : TransportData)
  : M RecvCont :=
  match td_protoInfo transportData with
  | Some p => modify (set_remoteProtoInfo (Some p))
  | None => mret tt
  end;;
  match transportData with
  | td_req serviceName sn0 body protoInfo =>
      _recvApiReq serviceName sn0 body protoInfo;;
      mret recv_done
  | td_res _ _ _ _ | td_err _ _ _ =>
      item ← Legacy._recvApiReturn transportData;
      mret (match item with
            | Some item => awaits_preCallApiReturnFlow item
            | None => recv_done
            end)
  | td_msg serviceName body =>
      _recvMsg serviceName body;;
      mret (awaits_preRecvMsgFlow serviceName body)
  | td_heartbeat _ _ => mret recv_done
  | td_custom _ => mret recv_done
  end.

(** [_recvData], up to [await this.flows.preRecvDataFlow.exec(...)]: the
    result tells whether the flow was called. *)
Definition _recvData (data : RawData) : M bool :=
  st ← getS;
  if decide (_status st = Legacy.Opened) then
    emit (e_flow (preRecvDataFlow data));;
    mret true
  else mret false.

(** [_recvData], from the result [pre] of the flow to the end; the data
    decoded by the flow is read from [pre.parsedTransportData], for which
    [rd_decodedData] stands here, and the decoders are called without
    [boxInfo]. *)
Definition _recvData_afterPreRecvData (pre : option RecvDataFlowData)
  : M RecvCont :=
  match pre with
  | None =>
      log debug "[preRecvDataFlow] Canceled";;
      mret recv_done
  | Some pre =>
      match rd_decodedData pre with
      | Some parsedTransportData => _recvTransportData parsedTransportData
      | None =>
          st ← getS;
          let cfg := config st in
          let data := rd_data pre in
          let opDecodeBox :=
            match data with
            | raw_text s =>
                decodeBoxText (util cfg) s (pendingView st)
                  (skipDecodeValidate (options cfg)) None
            | raw_buffer b =>
                decodeBoxBuffer (util cfg) b (pendingView st)
                  (skipDecodeValidate (options cfg)) None
            end in
          match opDecodeBox with
          | OpFail errMsg _ =>
              log error "[DecodeBoxErr] Received data:";;
              log error ("[DecodeBoxErr] " ++ errMsg)%string;;
              mret recv_done
          | OpSucc box =>
              let opDecodeBody :=
                match data with
                | raw_text _ =>
                    decodeBodyText (util cfg) box
                      (skipDecodeValidate (options cfg))
                | raw_buffer _ =>
                    decodeBodyBuffer (util cfg) box
                      (skipDecodeValidate (options cfg))
                end in
              match opDecodeBody with
              | OpFail errMsg _ =>
                  log error "[DecodeBodyErr] Received body:";;
                  log error ("[DecodeBodyErr] " ++ errMsg)%string;;
                  mret recv_done
              | OpSucc transportData => _recvTransportData transportData
              end
          end
      end
  end.

End LegacyIO.

(** ** Log levels: [setLogLevel]

    A logger is an object with four methods.  What a method does is left
    open; [empty] is the method that does nothing, and
    [logger.m.bind(logger)] is the method [m] of [logger]. *)
Module Logger.
Section logger.
Context {Method : Type}.
Variable empty : Method.

Record Logger := mkLogger {
  debug : Method;
  info : Method;
  warn : Method;
  error : Method
}.

(** [setLogLevel(logger, logLevel)]; the result is [inl msg] when it
    throws [new Error(msg)]. *)
Definition setLogLevel (logger : Logger) (logLevel : string)
  : string + Logger :=
  if String.eqb logLevel "none" then
    inr {| debug := empty; info := empty; warn := empty; error := empty |}
  else if String.eqb logLevel "error" then
    inr {| debug := empty; info := empty; warn := empty;
           error := error logger |}
  else if String.eqb logLevel "warn" then
    inr {| debug := empty; info := empty; warn := warn logger;
           error := error logger |}
  else if String.eqb logLevel "info" then
    inr {| debug := empty; info := info logger; warn := warn logger;
           error := error logger |}
  else if String.eqb logLevel "debug" then
    inr {| debug := debug logger; info := info logger;
           warn := warn logger; error := error logger |}
  else inl ("Invalid logLevel: '" ++ logLevel ++ "'")%string.

End logger.
End Logger.

(** ** More concrete clients *)

Definition keyOptions (key : string) : TransportOptions :=
  {| opt_timeout := None; opt_abortKey := Some key;
     opt_abortSignal := None; opt_dataType := None |}.

(** A client with three calls started, the first and the third of them
    with the abort key ["page"]. *)
Definition demoKeyed : Conn :=
  state (run [ev_callApi "A" "x" (Some (keyOptions "page"));
              ev_callApi "B" "y" None;
              ev_callApi "C" "z" (Some (keyOptions "page"))]
           demoConnected).

(** A client that is not connected, with one call started. *)
Definition demoOffline : Conn :=
  state (callApi "Echo" "hi" None (newConnection (demoConfig quietOptions))).

(** What a trace does besides logging. *)
Definition is_log (e : Effect) : bool :=
  match e with e_log _ _ => true | _ => false end.

Definition calls (es : list Effect) : list Effect :=
  List.filter (fun e => negb (is_log e)) es.

(** A connected client whose body encoder rejects everything. *)
Definition rejectingUtil : TransportDataUtil :=
  {| encodeBodyBuffer := fun _ _ => OpFail "Invalid body" (Some "validate");
     encodeBodyText := fun _ _ => OpFail "Invalid body" (Some "validate");
     encodeBoxBuffer := encodeBoxBuffer demoUtil;
     encodeBoxText := encodeBoxText demoUtil;
     decodeBoxText := decodeBoxText demoUtil;
     decodeBoxBuffer := decodeBoxBuffer demoUtil;
     decodeBodyText := decodeBodyText demoUtil;
     decodeBodyBuffer := decodeBodyBuffer demoUtil |}.

Definition demoRejecting : Conn :=
  state (status_setter 0 Connected
           (newConnection
              {| side := client; dataType := text; options := quietOptions;
                 _localProtoInfo := mkProtoInfo "md5-local" 0 "4.0" None;
                 _encodeSkipSN := None; _recvCustom := false;
                 _errConnNotConnected := "The client is not connected";
                 util := rejectingUtil |})).

(** The transport data that [_recvTransportData] passes to
    [_recvApiReturn]. *)
Definition is_return (td : TransportData) : bool :=
  match td with
  | td_res _ _ _ _ | td_err _ _ _ => true
  | _ => false
  end.

(** A segment keeps a part of the connection as it is. *)
Definition keeps {A} (part : Conn -> A) : Conn -> Conn -> list Effect -> Prop :=
  fun st st' _ => part st' = part st.

(** * Properties *)

(** Unfolding the monad of segments. *)
Ltac munfold :=
  cbv [mbind mret M_bind M_ret getS modify emit log when ignore
       state effects result] in *.

(** ** Facts about [JsMap] *)

Section jsmap.
Context {V : Type}.
Implicit Types (m : JsMap V) (k : Z) (v : V).

Lemma JsMap_get_elem k v m : JsMap.get k m = Some v -> (k, v) ∈ m.
Proof.
  induction m as [|[k' v'] m IH]; simpl; [done|].
  destruct (Z.eqb_spec k' k) as [->|].
  - intros [= ->]. left.
  - intros. right. auto.
Qed.

Lemma JsMap_get_None k m : JsMap.get k m = None -> forall v, (k, v) ∉ m.
Proof.
  induction m as [|[k' v'] m IH]; simpl; intros H v Hin.
  - by apply elem_of_nil in Hin.
  - destruct (Z.eqb_spec k' k) as [->|]; [done|].
    apply elem_of_cons in Hin as [[= ? ?]|Hin]; [congruence|].
    by eapply IH.
Qed.

Lemma JsMap_elem_get k v m :
  NoDup m.*1 -> (k, v) ∈ m -> JsMap.get k m = Some v.
Proof.
  induction m as [|[k' v'] m IH]; simpl; intros Hnd Hin.
  - by apply elem_of_nil in Hin.
  - apply NoDup_cons in Hnd as [Hk Hnd].
    apply elem_of_cons in Hin as [[= -> ->]|Hin].
    + by rewrite Z.eqb_refl.
    + destruct (Z.eqb_spec k' k) as [->|]; [|auto].
      exfalso. apply Hk. apply list_elem_of_fmap. by exists (k, v).
Qed.

Lemma JsMap_has_elem k m : JsMap.has k m = true -> exists v, (k, v) ∈ m.
Proof.
  unfold JsMap.has. destruct (JsMap.get k m) eqn:E; [|done].
  intros _. eexists. by apply JsMap_get_elem.
Qed.

Lemma JsMap_elem_has k v m : (k, v) ∈ m -> JsMap.has k m = true.
Proof.
  unfold JsMap.has. destruct (JsMap.get k m) eqn:E; [done|].
  intros H. by eapply JsMap_get_None in E.
Qed.

Lemma JsMap_elem_delete k k' v m :
  (k', v) ∈ JsMap.delete k m <-> (k', v) ∈ m /\ k' <> k.
Proof.
  induction m as [|[k0 v0] m IH]; simpl.
  - split; [intros H; by apply elem_of_nil in H
           |intros [H _]; by apply elem_of_nil in H].
  - destruct (Z.eqb_spec k0 k) as [->|Hne].
    + rewrite IH, elem_of_cons. split.
      * intros [? ?]. auto.
      * intros [[[= -> ->]|?] ?]; [done|auto].
    + rewrite !elem_of_cons, IH. split.
      * intros [[= -> ->]|[? ?]]; auto.
      * intros [[?|?] ?]; auto.
Qed.

Lemma JsMap_get_delete k m : JsMap.get k (JsMap.delete k m) = None.
Proof.
  induction m as [|[k0 v0] m IH]; simpl; [done|].
  destruct (Z.eqb_spec k0 k) as [->|Hne]; [done|]. simpl.
  by destruct (Z.eqb_spec k0 k).
Qed.

Lemma JsMap_keys_delete k m : sublist (JsMap.delete k m).*1 m.*1.
Proof.
  induction m as [|[k0 v0] m IH]; simpl; [done|].
  destruct (Z.eqb_spec k0 k); simpl; by constructor.
Qed.

Lemma JsMap_NoDup_delete k m : NoDup m.*1 -> NoDup (JsMap.delete k m).*1.
Proof. intros. eapply sublist_NoDup; [done|apply JsMap_keys_delete]. Qed.

Lemma JsMap_keys_set k v m :
  forall k', k' ∈ (JsMap.set k v m).*1 -> k' = k \/ k' ∈ m.*1.
Proof.
  induction m as [|[k0 v0] m IH]; simpl; intros k' H.
  - apply list_elem_of_singleton in H. by left.
  - destruct (Z.eqb_spec k0 k) as [->|Hne]; simpl in H.
    + apply elem_of_cons in H as [->|H]; [by left|].
      right. by right.
    + apply elem_of_cons in H as [->|H]; [right; left|].
      apply IH in H as [?|?]; [by left|right; by right].
Qed.

Lemma JsMap_NoDup_set k v m : NoDup m.*1 -> NoDup (JsMap.set k v m).*1.
Proof.
  induction m as [|[k0 v0] m IH]; simpl; intros Hnd.
  - apply NoDup_singleton.
  - apply NoDup_cons in Hnd as [Hk Hnd].
    destruct (Z.eqb_spec k0 k) as [->|Hne]; simpl.
    + by apply NoDup_cons.
    + apply NoDup_cons. split; [|auto].
      intros H. apply JsMap_keys_set in H as [?|?]; done.
Qed.

Lemma JsMap_elem_set k v k' v' m :
  NoDup m.*1 ->
  (k', v') ∈ JsMap.set k v m ->
  (k' = k /\ v' = v) \/ ((k', v') ∈ m /\ k' <> k).
Proof.
  induction m as [|[k0 v0] m IH]; simpl; intros Hnd H.
  - apply list_elem_of_singleton in H as [= -> ->]. by left.
  - apply NoDup_cons in Hnd as [Hk Hnd].
    destruct (Z.eqb_spec k0 k) as [->|Hne].
    + apply elem_of_cons in H as [[= -> ->]|H]; [by left|].
      right. split; [by right|]. intros ->. apply Hk.
      apply list_elem_of_fmap. by exists (k, v').
    + apply elem_of_cons in H as [[= -> ->]|H].
      * right. split; [left|done].
      * apply IH in H as [?|[? ?]]; [by left|right; split; [by right|done]|done].
Qed.

Lemma JsMap_get_set k v m : JsMap.get k (JsMap.set k v m) = Some v.
Proof.
  induction m as [|[k0 v0] m IH]; simpl.
  - by rewrite Z.eqb_refl.
  - destruct (Z.eqb_spec k0 k) as [->|Hne]; simpl.
    + by rewrite Z.eqb_refl.
    + by destruct (Z.eqb_spec k0 k).
Qed.
End jsmap.

(** ** Composing segments

    A transitional relation holds of a method as soon as it holds of the
    primitives the method is made of. *)
Section sat.
Context (R : Conn -> Conn -> list Effect -> Prop) `{!Transitional R}.

Lemma sat_ret {A} (a : A) : sat R (mret a).
Proof. intros st. apply R_refl. Qed.

Lemma sat_getS : sat R getS.
Proof. intros st. apply R_refl. Qed.

Lemma sat_bind {A B} (m : M A) (f : A -> M B) :
  sat R m -> (forall a, sat R (f a)) -> sat R (m ≫= f).
Proof.
  intros Hm Hf st. specialize (Hm st).
  unfold sat, state, effects in *. unfold mbind, M_bind.
  destruct (m st) as [[a st1] e1]. specialize (Hf a st1).
  destruct (f a st1) as [[b st2] e2]. simpl in *.
  eapply R_trans; eauto.
Qed.

Lemma sat_when (b : bool) (m : M unit) : sat R m -> sat R (when b m).
Proof. destruct b; [done|]. intros _. apply sat_ret. Qed.

Lemma sat_ignore {A} (m : M A) : sat R m -> sat R (ignore m).
Proof. intros. apply sat_bind; [done|]. intros. apply sat_ret. Qed.

Lemma sat_forEach_from (l : list (Z * ItemId)) (f : ItemId -> M unit) :
  (forall id, sat R (f id)) -> sat R (forEach_from l f).
Proof.
  intros Hf. induction l as [|[k id] l IH]; simpl.
  - apply sat_ret.
  - apply sat_bind; [apply sat_getS|]. intros st.
    apply sat_bind; [apply sat_when, Hf|]. intros _. apply IH.
Qed.

Lemma sat_pending_forEach (f : ItemId -> M unit) :
  (forall id, sat R (f id)) -> sat R (pending_forEach f).
Proof.
  intros. apply sat_bind; [apply sat_getS|]. intros.
  by apply sat_forEach_from.
Qed.

Lemma sat_run (evs : list Event) :
  (forall ev, sat R (handle ev)) -> sat R (run evs).
Proof.
  intros H. induction evs as [|ev evs IH]; simpl.
  - apply sat_ret.
  - apply sat_bind; [apply H|]. intros _. apply IH.
Qed.
End sat.

Create HintDb sat discriminated.

#[local] Hint Extern 1 (sat _ (mret _)) => apply sat_ret; apply _ : sat.
#[local] Hint Extern 1 (sat _ getS) => apply sat_getS; apply _ : sat.

(** One step of a proof by composition: split a bind, close a
    primitive from the hint database, or take a branch. *)
Ltac sat_step :=
  first
    [ progress cbv zeta
    | solve [auto with sat]
    | apply sat_pending_forEach; [apply _|intros ?]
    | apply sat_forEach_from; [apply _|intros ?]
    | apply sat_when; [apply _|]
    | apply sat_ignore; [apply _|]
    | apply sat_bind; [apply _| |intros ?]
    | match goal with
      | |- sat _ (match ?x with _ => _ end) => destruct x
      | |- sat _ (let '(_, _) := ?x in _) => destruct x
      end ].
Ltac sat_auto := repeat sat_step.

(** ** Segments that never hand data to the transport *)

#[global] Instance no_send_transitional : Transitional no_send.
Proof.
  split; [done|]. unfold no_send. intros ????? H1 H2.
  by rewrite List.filter_app, H1, H2.
Qed.

Lemma no_send_modify f : sat no_send (modify f).
Proof. done. Qed.

Lemma no_send_emit e : is_sendData e = false -> sat no_send (emit e).
Proof. intros H st. unfold no_send. simpl. by rewrite H. Qed.

#[local] Hint Resolve no_send_modify : sat.
#[local] Hint Extern 1 (sat no_send (emit _)) =>
  apply no_send_emit; reflexivity : sat.
#[local] Hint Extern 1 (sat no_send (log _ _)) =>
  apply no_send_emit; reflexivity : sat.
#[local] Hint Extern 1 (sat no_send (setTimeout _ _)) => done : sat.
#[local] Hint Extern 1 (sat no_send (clearTimeout _)) => done : sat.
#[local] Hint Extern 1 (sat no_send newPromise) => done : sat.
#[local] Hint Extern 1 (sat no_send newDisconnectPromise) => done : sat.
#[local] Hint Extern 1 (sat no_send (newItem _)) => done : sat.

Lemma no_send_resolve p r : sat no_send (resolve p r).
Proof. unfold resolve. sat_auto. Qed.

Lemma no_send_updateItem i f : sat no_send (updateItem i f).
Proof. unfold updateItem. sat_auto. Qed.

Lemma no_send_pending_delete k : sat no_send (pending_delete k).
Proof. unfold pending_delete. sat_auto. Qed.

Lemma no_send_pending_set k i : sat no_send (pending_set k i).
Proof. unfold pending_set. sat_auto. Qed.

Lemma no_send_modify_heartbeat f : sat no_send (modify_heartbeat f).
Proof. unfold modify_heartbeat. sat_auto. Qed.

#[local] Hint Resolve no_send_resolve no_send_updateItem
  no_send_pending_delete no_send_pending_set no_send_modify_heartbeat
  : sat.

Lemma no_send_sendBox b d td o c : sat no_send (_sendBox b d td o c).
Proof. unfold _sendBox. sat_auto. Qed.
#[local] Hint Resolve no_send_sendBox : sat.

Lemma no_send_sendTransportData td o c :
  sat no_send (_sendTransportData td o c).
Proof. unfold _sendTransportData. sat_auto. Qed.
#[local] Hint Resolve no_send_sendTransportData : sat.

Lemma no_send_sendBox_afterSendData k op :
  sat no_send (_sendBox_afterSendData k op).
Proof. unfold _sendBox_afterSendData. sat_auto. Qed.

Lemma no_send_waitApiReturn i t : sat no_send (_waitApiReturn i t).
Proof. unfold _waitApiReturn. sat_auto. Qed.

Lemma no_send_apiTimeout i p : sat no_send (apiTimeout i p).
Proof. unfold apiTimeout. sat_auto. Qed.

Lemma no_send_call_onReturn i r : sat no_send (call_onReturn i r).
Proof. unfold call_onReturn. sat_auto. Qed.

Lemma no_send_abort k : sat no_send (abort k).
Proof. unfold abort. sat_auto. Qed.

#[local] Hint Resolve no_send_sendBox_afterSendData no_send_waitApiReturn
  no_send_apiTimeout no_send_call_onReturn no_send_abort : sat.

Lemma no_send_abortByKey k : sat no_send (abortByKey k).
Proof. unfold abortByKey. sat_auto. Qed.

Lemma no_send_abortAll : sat no_send abortAll.
Proof. unfold abortAll. sat_auto. Qed.

Lemma no_send_recvApiReturn td : sat no_send (_recvApiReturn td).
Proof. unfold _recvApiReturn. sat_auto. Qed.

Lemma no_send_doCallApi s r i o : sat no_send (_doCallApi s r i o).
Proof. unfold _doCallApi. sat_auto. Qed.

Lemma no_send_doCallApi_afterSend k op :
  sat no_send (_doCallApi_afterSend k op).
Proof. unfold _doCallApi_afterSend. sat_auto. Qed.

Lemma no_send_doCallApi_afterReturn k r :
  sat no_send (_doCallApi_afterReturn k r).
Proof. unfold _doCallApi_afterReturn. sat_auto. Qed.

Lemma no_send_callApi a r o : sat no_send (callApi a r o).
Proof. unfold callApi. sat_auto. Qed.

Lemma no_send_callApi_afterGetReturn i a pc r :
  sat no_send (callApi_afterGetReturn i a pc r).
Proof. unfold callApi_afterGetReturn. sat_auto. Qed.

#[local] Hint Resolve no_send_abortByKey no_send_abortAll
  no_send_recvApiReturn no_send_doCallApi no_send_doCallApi_afterSend
  no_send_doCallApi_afterReturn no_send_callApi
  no_send_callApi_afterGetReturn : sat.

Lemma no_send_callApi_afterPreCall i a o pc :
  sat no_send (callApi_afterPreCall i a o pc).
Proof. unfold callApi_afterPreCall. sat_auto. Qed.

Lemma no_send_callApi_afterPreReturn i a pr :
  sat no_send (callApi_afterPreReturn i a pr).
Proof. unfold callApi_afterPreReturn. sat_auto. Qed.

Lemma no_send_stopHeartbeat : sat no_send _stopHeartbeat.
Proof. unfold _stopHeartbeat. sat_auto. Qed.

Lemma no_send_sendHeartbeat now : sat no_send (_sendHeartbeat now).
Proof. unfold _sendHeartbeat. sat_auto. Qed.

Lemma no_send_resetHeartbeatTimeout : sat no_send _resetHeartbeatTimeout.
Proof. unfold _resetHeartbeatTimeout. sat_auto. Qed.

#[local] Hint Resolve no_send_callApi_afterPreCall
  no_send_callApi_afterPreReturn no_send_stopHeartbeat
  no_send_sendHeartbeat no_send_resetHeartbeatTimeout : sat.

Lemma no_send_startHeartbeat now : sat no_send (_startHeartbeat now).
Proof. unfold _startHeartbeat. sat_auto. Qed.

Lemma no_send_recvHeartbeat now s r : sat no_send (_recvHeartbeat now s r).
Proof. unfold _recvHeartbeat. sat_auto. Qed.

#[local] Hint Resolve no_send_startHeartbeat no_send_recvHeartbeat : sat.

Lemma no_send_status_setter now s : sat no_send (status_setter now s).
Proof. unfold status_setter. sat_auto. Qed.

Lemma no_send_disconnect m r : sat no_send (_disconnect m r).
Proof. unfold _disconnect. sat_auto. Qed.

Lemma no_send_disconnect_afterRace m r p :
  sat no_send (_disconnect_afterRace m r p).
Proof. unfold _disconnect_afterRace. sat_auto. Qed.

#[local] Hint Resolve no_send_status_setter no_send_disconnect
  no_send_disconnect_afterRace : sat.

Lemma no_send_timer_fired now t : sat no_send (timer_fired now t).
Proof. unfold timer_fired. sat_auto. Qed.

Lemma no_send_recvTransportData now td :
  sat no_send (_recvTransportData now td).
Proof.
  unfold _recvTransportData, _recvApiReq, _recvMsg. sat_auto.
Qed.
#[local] Hint Resolve no_send_timer_fired no_send_recvTransportData : sat.

Lemma no_send_recvBox now b d : sat no_send (_recvBox now b d).
Proof. unfold _recvBox. sat_auto. Qed.
#[local] Hint Resolve no_send_recvBox : sat.

Lemma no_send_recvData d b : sat no_send (_recvData d b).
Proof. unfold _recvData. sat_auto. Qed.

Lemma no_send_recvData_afterPreRecvData now b pre :
  sat no_send (_recvData_afterPreRecvData now b pre).
Proof. unfold _recvData_afterPreRecvData. sat_auto. Qed.

Lemma handle_no_send_unless_connected (ev : Event) (st : Conn) :
  _status st <> Connected ->
  List.filter is_sendData (effects (handle ev st)) = [].
Proof.
  intros Hst.
  assert (Hall : forall A (m : M A), sat no_send m ->
            List.filter is_sendData (effects (m st)) = []) by (intros ?? H; apply H).
  destruct ev; simpl; try reflexivity;
    try (apply Hall; first [apply sat_ignore; [apply _|] | idtac];
         solve [auto with sat
               | apply no_send_recvData
               | apply no_send_recvData_afterPreRecvData
               | unfold _recvMsg_afterPreRecvMsg, _disconnect_doDisconnectDone,
                   _disconnect_settled; sat_auto]).
  (* the only segment that calls [_sendData] *)
  unfold ignore, _sendBox_afterPreSendData. destruct pre as [d|]; munfold.
  - destruct (decide (_status st = Connected)); [done|]. reflexivity.
  - reflexivity.
Qed.

(** ** Segments that leave the pending calls alone *)

Lemma count_onReturn_app item es1 es2 :
  count_onReturn item (es1 ++ es2)
  = count_onReturn item es1 + count_onReturn item es2.
Proof.
  unfold count_onReturn. by rewrite List.filter_app, length_app.
Qed.

#[global] Instance frames_transitional : Transitional frames.
Proof.
  split; [done|]. unfold frames.
  intros ????? (H1 & H2 & H3) (H4 & H5 & H6).
  split; [congruence|]. split; [congruence|].
  intros item. by rewrite count_onReturn_app, H3, H6.
Qed.

Lemma frames_emit e :
  (forall item, is_onReturn item e = false) -> sat frames (emit e).
Proof.
  intros H st. split; [done|]. split; [done|]. intros item.
  unfold count_onReturn. simpl. by rewrite H.
Qed.

#[local] Hint Extern 1 (sat frames (emit _)) =>
  apply frames_emit; reflexivity : sat.
#[local] Hint Extern 1 (sat frames (log _ _)) =>
  apply frames_emit; reflexivity : sat.
#[local] Hint Extern 1 (sat frames (setTimeout _ _)) => done : sat.
#[local] Hint Extern 1 (sat frames (clearTimeout _)) => done : sat.
#[local] Hint Extern 1 (sat frames newPromise) => done : sat.
#[local] Hint Extern 1 (sat frames newDisconnectPromise) => done : sat.
#[local] Hint Extern 1 (sat frames (modify (set_status _))) => done : sat.
#[local] Hint Extern 1 (sat frames (modify (set_heartbeat _))) =>
  done : sat.
#[local] Hint Extern 1 (sat frames (modify (set_disconnecting _))) =>
  done : sat.
#[local] Hint Extern 1 (sat frames (modify (set_remoteProtoInfo _))) =>
  done : sat.
#[local] Hint Extern 1 (sat frames (modify (set_callApiSn _))) =>
  done : sat.
#[local] Hint Extern 1 (sat frames (modify (fun st => set_promises _ st)))
  => done : sat.
#[local] Hint Extern 1 (sat frames (modify (fun st => set_timers _ st)))
  => done : sat.
#[local] Hint Extern 1
  (sat frames (modify (fun st => set_lastHeartbeatLatency _ st))) =>
  done : sat.
#[local] Hint Extern 1
  (sat frames (modify (fun st => set_disconnects _ st))) => done : sat.

Lemma frames_resolve p r : sat frames (resolve p r).
Proof. unfold resolve. sat_auto. Qed.

Lemma frames_modify_heartbeat f : sat frames (modify_heartbeat f).
Proof. done. Qed.

#[local] Hint Resolve frames_resolve frames_modify_heartbeat : sat.

Lemma frames_sendBox b d td o c : sat frames (_sendBox b d td o c).
Proof. unfold _sendBox. sat_auto. Qed.
#[local] Hint Resolve frames_sendBox : sat.

Lemma frames_sendTransportData td o c :
  sat frames (_sendTransportData td o c).
Proof. unfold _sendTransportData. sat_auto. Qed.
#[local] Hint Resolve frames_sendTransportData : sat.

Lemma frames_sendBox_afterPreSendData k pre :
  sat frames (_sendBox_afterPreSendData k pre).
Proof. unfold _sendBox_afterPreSendData. sat_auto. Qed.

Lemma frames_sendBox_afterSendData k op :
  sat frames (_sendBox_afterSendData k op).
Proof. unfold _sendBox_afterSendData. sat_auto. Qed.

Lemma frames_stopHeartbeat : sat frames _stopHeartbeat.
Proof. unfold _stopHeartbeat. sat_auto. Qed.

Lemma frames_sendHeartbeat now : sat frames (_sendHeartbeat now).
Proof. unfold _sendHeartbeat. sat_auto. Qed.

Lemma frames_resetHeartbeatTimeout : sat frames _resetHeartbeatTimeout.
Proof. unfold _resetHeartbeatTimeout. sat_auto. Qed.

#[local] Hint Resolve frames_stopHeartbeat frames_sendHeartbeat
  frames_resetHeartbeatTimeout : sat.

Lemma frames_startHeartbeat now : sat frames (_startHeartbeat now).
Proof. unfold _startHeartbeat. sat_auto. Qed.

Lemma frames_recvHeartbeat now s r : sat frames (_recvHeartbeat now s r).
Proof. unfold _recvHeartbeat. sat_auto. Qed.

#[local] Hint Resolve frames_startHeartbeat frames_recvHeartbeat : sat.

Lemma frames_status_setter now s : sat frames (status_setter now s).
Proof. unfold status_setter. sat_auto. Qed.

Lemma frames_disconnect_afterRace m r p :
  sat frames (_disconnect_afterRace m r p).
Proof. unfold _disconnect_afterRace. sat_auto. Qed.

Lemma frames_callApi_afterGetReturn i a pc r :
  sat frames (callApi_afterGetReturn i a pc r).
Proof. unfold callApi_afterGetReturn. sat_auto. Qed.

Lemma frames_doCallApi_afterSend k op :
  sat frames (_doCallApi_afterSend k op).
Proof. unfold _doCallApi_afterSend. sat_auto. Qed.

Lemma frames_doCallApi_afterReturn k r :
  sat frames (_doCallApi_afterReturn k r).
Proof. unfold _doCallApi_afterReturn. sat_auto. Qed.

Lemma frames_recvData d b : sat frames (_recvData d b).
Proof. unfold _recvData. sat_auto. Qed.

Lemma frames_recvMsg s b : sat frames (_recvMsg s b).
Proof. unfold _recvMsg. sat_auto. Qed.

Lemma frames_recvMsg_afterPreRecvMsg s b pre :
  sat frames (_recvMsg_afterPreRecvMsg s b pre).
Proof. unfold _recvMsg_afterPreRecvMsg. sat_auto. Qed.

Lemma frames_recvApiReq s k b p : sat frames (_recvApiReq s k b p).
Proof. unfold _recvApiReq. sat_auto. Qed.

(** ** The pending map and the calls it has answered *)

#[global] Instance tracked_transitional : Transitional tracked.
Proof.
  split.
  - intros st Hok.
    split; auto; try (intros id; unfold count_onReturn; simpl; lia).
    intros id it H. exists it. auto.
  - intros st st1 st2 e1 e2 H1 H2 Hok.
    specialize (H1 Hok). specialize (H2 (tr_ok _ _ _ H1)).
    destruct H1 as [ok1 len1 item1 sub1 once1 ret1].
    destruct H2 as [ok2 len2 item2 sub2 once2 ret2].
    split; [done|lia| | | |].
    + intros id it Hit.
      destruct (item1 _ _ Hit) as (it1 & Hit1 & Hsn1 & Hab1).
      destruct (item2 _ _ Hit1) as (it2 & Hit2 & Hsn2 & Hab2).
      exists it2. split; [done|]. split; [congruence|auto].
    + intros k id Hin. destruct (sub2 _ _ Hin) as [Hin1|Hfresh].
      * apply sub1 in Hin1. done.
      * right. lia.
    + intros id. rewrite count_onReturn_app.
      pose proof (once1 id). pose proof (once2 id).
      destruct (decide (0 < count_onReturn id e1)) as [Hp1|]; [|lia].
      destruct (decide (0 < count_onReturn id e2)) as [Hp2|]; [|lia].
      exfalso. destruct (ret1 _ Hp1) as (_ & Hlt & Hnot).
      destruct (ret2 _ Hp2) as ([[k Hin]|Hfresh] & _ & _).
      * by apply (Hnot k).
      * lia.
    + intros id. rewrite count_onReturn_app. intros Hpos.
      destruct (decide (0 < count_onReturn id e1)) as [Hp1|Hz1].
      * destruct (ret1 _ Hp1) as (Hfrom & Hlt & Hnot).
        split; [done|]. split; [lia|].
        intros k Hin. destruct (sub2 _ _ Hin) as [Hin1|Hfresh].
        -- by apply (Hnot k).
        -- lia.
      * assert (Hp2 : 0 < count_onReturn id e2) by lia.
        destruct (ret2 _ Hp2) as ([[k Hin]|Hfresh] & Hlt & Hnot).
        -- split; [|done]. destruct (sub1 _ _ Hin); [left; eauto|by right].
        -- split; [|done]. right. lia.
Qed.

Lemma frames_tracked st st' es : frames st st' es -> tracked st st' es.
Proof.
  intros (Hp & Hi & Hc) [Hok Hnd].
  split.
  - split; rewrite Hp; [|done]. intros k id Hin. rewrite Hi. auto.
  - by rewrite Hi.
  - intros id it H. exists it. rewrite Hi. auto.
  - intros k id Hin. left. by rewrite <- Hp.
  - intros id. rewrite Hc. lia.
  - intros id. rewrite Hc. lia.
Qed.

Lemma sat_frames_tracked {A} (m : M A) : sat frames m -> sat tracked m.
Proof. intros H st. apply frames_tracked, H. Qed.

#[local] Hint Resolve frames_sendBox_afterPreSendData
  frames_sendBox_afterSendData frames_status_setter
  frames_disconnect_afterRace frames_callApi_afterGetReturn
  frames_doCallApi_afterSend frames_doCallApi_afterReturn
  frames_recvData frames_recvMsg frames_recvMsg_afterPreRecvMsg
  frames_recvApiReq : sat.

#[local] Hint Extern 5 (sat tracked _) =>
  apply sat_frames_tracked; solve [auto with sat] : sat.

Lemma deref_Some st id it : items st !! id = Some it -> deref st id = it.
Proof. unfold deref. by intros ->. Qed.

Lemma pending_ok_deref st k id :
  pending_ok st -> (k, id) ∈ _pendingCallApis st ->
  sn (deref st id) = k /\ isAborted (deref st id) = false
  /\ id < length (items st).
Proof.
  intros [Hok _] Hin. destruct (Hok _ _ Hin) as (it & Hit & Hsn & Hab).
  rewrite (deref_Some _ _ _ Hit). split; [done|]. split; [done|].
  by eapply lookup_lt_Some.
Qed.

(** A segment that adds no item, removes entries only, and invokes no
    [onReturn]. *)
Lemma tracks_quiet st st' es :
  pending_ok st ->
  length (items st') = length (items st) ->
  (forall id it, items st !! id = Some it ->
     exists it', items st' !! id = Some it' /\ sn it' = sn it
       /\ (isAborted it = true -> isAborted it' = true)
       /\ ((exists k, (k, id) ∈ _pendingCallApis st') ->
           isAborted it' = isAborted it)) ->
  (forall k i, (k, i) ∈ _pendingCallApis st' ->
     (k, i) ∈ _pendingCallApis st) ->
  NoDup (_pendingCallApis st').*1 ->
  (forall i, count_onReturn i es = 0) ->
  tracks st st' es.
Proof.
  intros [Hok Hnd] Hlen Hitem Hsub Hnd' Hcount. split.
  - split; [|done]. intros k id Hin.
    destruct (Hok _ _ (Hsub _ _ Hin)) as (it & Hit & Hsn & Hab).
    destruct (Hitem _ _ Hit) as (it' & Hit' & Hsn' & _ & Hsame).
    exists it'. split; [done|]. split; [congruence|].
    rewrite Hsame; [done|eauto].
  - lia.
  - intros id it Hit.
    destruct (Hitem _ _ Hit) as (it' & Hit' & Hsn' & Hab' & _). eauto.
  - intros k i Hin. left. auto.
  - intros i. rewrite Hcount. lia.
  - intros i. rewrite Hcount. lia.
Qed.

Lemma tracked_updateItem id f :
  (forall it, sn (f it) = sn it) ->
  (forall it, isAborted (f it) = isAborted it) ->
  sat tracked (updateItem id f).
Proof.
  intros Hsn Hab st Hok. unfold updateItem. munfold. simpl.
  apply tracks_quiet; simpl; auto.
  - apply length_alter.
  - intros j it Hit.
    destruct (decide (id = j)) as [->|Hne].
    + rewrite list_lookup_alter_eq, Hit. simpl. exists (f it).
      rewrite Hsn, Hab. auto.
    + rewrite list_lookup_alter_ne by done. exists it. auto.
  - by destruct Hok.
Qed.

Lemma tracked_pending_delete k : sat tracked (pending_delete k).
Proof.
  intros st Hok. unfold pending_delete. munfold. simpl.
  apply tracks_quiet; simpl; auto.
  - intros j it Hit. exists it. auto.
  - intros k' i Hin. by apply JsMap_elem_delete in Hin as [? _].
  - apply JsMap_NoDup_delete. by destruct Hok.
Qed.

#[local] Hint Resolve tracked_pending_delete : sat.
#[local] Hint Extern 1 (sat tracked (updateItem _ (set_onReturn _))) =>
  apply tracked_updateItem; reflexivity : sat.

Lemma tracked_abort sn0 : sat tracked (abort sn0).
Proof.
  intros st Hok. unfold abort. munfold.
  destruct (JsMap.get sn0 (_pendingCallApis st)) as [id|] eqn:Hget;
    [|by apply tracked_transitional].
  apply JsMap_get_elem in Hget.
  destruct (pending_ok_deref _ _ _ Hok Hget) as (Hsn & Hab & Hlt).
  unfold pending_delete, updateItem. munfold.
  assert (Hes : forall es,
    (forall i, count_onReturn i es = 0) ->
    tracks st
      (set_items
         (alter (set_isAborted true) id
            (alter (set_onReturn None) id (items st)))
         (set_pendingCallApis (JsMap.delete sn0 (_pendingCallApis st)) st))
      es).
  { intros es Hes. apply tracks_quiet; simpl; auto.
    - by rewrite !length_alter.
    - intros j it Hit.
      destruct (decide (id = j)) as [->|Hne];
        [rewrite !list_lookup_alter_eq|rewrite !list_lookup_alter_ne by done].
      + rewrite Hit. simpl. eexists. split; [done|]. split; [done|].
        split; [done|]. intros [k Hin].
        apply JsMap_elem_delete in Hin as [Hin Hne].
        destruct (pending_ok_deref _ _ _ Hok Hin) as (Hsn' & _ & _).
        congruence.
      + exists it. auto.
    - intros k' i Hin. by apply JsMap_elem_delete in Hin as [? _].
    - apply JsMap_NoDup_delete. by destruct Hok. }
  destruct (logApi (options (config st))), (onAbort (deref st id));
    simpl; apply Hes; intros i; reflexivity.
Qed.

#[local] Hint Resolve tracked_abort : sat.

Lemma tracks_new_call st c' es k it :
  pending_ok st ->
  sn it = k -> isAborted it = false ->
  (forall i, count_onReturn i es = 0) ->
  _pendingCallApis c'
    = JsMap.set k (length (items st)) (_pendingCallApis st) ->
  items c' = items st ++ [it] ->
  tracks st c' es.
Proof.
  intros [Hok Hnd] Hsn Hab Hes Hp Hi. split.
  - split; rewrite Hp; [|by apply JsMap_NoDup_set].
    intros k' id Hin. rewrite Hi.
    apply JsMap_elem_set in Hin as [[-> ->]|[Hin _]]; [| |done].
    + exists it. split; [apply list_lookup_middle; done|]. done.
    + destruct (Hok _ _ Hin) as (it' & Hit & ?).
      exists it'. split; [|done]. by apply lookup_app_l_Some.
  - rewrite Hi, length_app. lia.
  - intros id it' Hit. exists it'. rewrite Hi.
    split; [by apply lookup_app_l_Some|auto].
  - intros k' id Hin. rewrite Hp in Hin.
    apply JsMap_elem_set in Hin as [[-> ->]|[Hin _]];
      [right; lia|by left|done].
  - intros i. rewrite Hes. lia.
  - intros i. rewrite Hes. lia.
Qed.

Lemma tracked_callApi a r o : sat tracked (callApi a r o).
Proof.
  intros st Hok. unfold callApi, getNext, newItem, pending_set.
  munfold. simpl.
  destruct (logApi (options (config st)));
    destruct (option_bind _ _ opt_abortSignal o); simpl;
    (eapply tracks_new_call; [done| | | |reflexivity|reflexivity];
     [reflexivity|reflexivity|intros i; reflexivity]).
Qed.

#[local] Hint Resolve tracked_callApi : sat.

(** *** Invoking [onReturn] *)

(** What [item.onReturn?.(ret)] does, spelled out. *)
Lemma call_onReturn_None st item ret :
  onReturn (deref st item) = None ->
  call_onReturn item ret st = (tt, st, []).
Proof. intros H. unfold call_onReturn. munfold. by rewrite H. Qed.

Lemma call_onReturn_Some st item ret p :
  onReturn (deref st item) = Some p ->
  let r := call_onReturn item ret st in
  items (state r) = items st
  /\ _pendingCallApis (state r)
     = JsMap.delete (sn (deref st item)) (_pendingCallApis st)
  /\ _status (state r) = _status st
  /\ (forall i, List.filter (is_onReturn i) (effects r)
                = if decide (i = item) then [e_onReturn item ret] else [])
  /\ List.filter is_postDisconnect (effects r) = [].
Proof.
  intros H. unfold call_onReturn. munfold. rewrite H.
  unfold pending_delete, resolve, clearTimeout. munfold.
  destruct (rp_timer (default (mkReturnPromise None None)
                        (promises st !! p))); simpl;
    (repeat split; [intros i; destruct (decide (i = item)) as [->|Hne];
       [by rewrite Nat.eqb_refl
       |by destruct (Nat.eqb_spec item i) as [->|]]]).
Qed.

Lemma count_onReturn_filter i es l :
  List.filter (is_onReturn i) es = l -> count_onReturn i es = length l.
Proof. unfold count_onReturn. by intros ->. Qed.

Lemma call_onReturn_tracks st k item ret :
  pending_ok st -> (k, item) ∈ _pendingCallApis st ->
  tracks st (state (call_onReturn item ret st))
    (effects (call_onReturn item ret st)).
Proof.
  intros Hok Hin.
  destruct (pending_ok_deref _ _ _ Hok Hin) as (Hsn & Hab & Hlt).
  destruct (onReturn (deref st item)) as [p|] eqn:Hon.
  - destruct (call_onReturn_Some st item ret p Hon)
      as (Hi & Hp & _ & Hf & _).
    assert (Hc : forall i, count_onReturn i (effects (call_onReturn item ret st))
                           = if decide (i = item) then 1 else 0).
    { intros i. rewrite (count_onReturn_filter _ _ _ (Hf i)).
      by destruct (decide (i = item)). }
    split.
    + split; rewrite Hp; [|apply JsMap_NoDup_delete; by destruct Hok].
      intros k' id Hin'. apply JsMap_elem_delete in Hin' as [Hin' _].
      rewrite Hi. by apply Hok.
    + by rewrite Hi.
    + intros id it Hit. exists it. rewrite Hi. auto.
    + intros k' id Hin'. rewrite Hp in Hin'.
      apply JsMap_elem_delete in Hin' as [Hin' _]. by left.
    + intros i. rewrite Hc. destruct (decide (i = item)); lia.
    + intros i. rewrite Hc. destruct (decide (i = item)) as [->|]; [|lia].
      intros _. split; [left; eauto|]. split; [by rewrite Hi|].
      intros k' Hin'. rewrite Hp in Hin'.
      apply JsMap_elem_delete in Hin' as [Hin' Hne].
      destruct (pending_ok_deref _ _ _ Hok Hin') as (Hsn' & _ & _).
      congruence.
  - rewrite (call_onReturn_None _ _ _ Hon). by apply tracked_transitional.
Qed.

Lemma tracked_recvApiReturn td : sat tracked (_recvApiReturn td).
Proof.
  assert (Hd : forall sn0 r st, pending_ok st ->
    let m : M unit :=
      st ← getS;
      match JsMap.get sn0 (_pendingCallApis st) with
      | None => mret tt
      | Some item =>
          if isAborted (deref st item) then mret tt
          else call_onReturn item r
      end in
    tracks st (state (m st)) (effects (m st))).
  { intros sn0 r st Hok. munfold.
    destruct (JsMap.get sn0 (_pendingCallApis st)) as [item|] eqn:Hget;
      [|by apply tracked_transitional].
    destruct (isAborted (deref st item));
      [by apply tracked_transitional|].
    apply JsMap_get_elem in Hget.
    destruct (call_onReturn item r st) as [[[] st'] es] eqn:E.
    pose proof (call_onReturn_tracks st sn0 item r Hok Hget) as H.
    by rewrite E in H. }
  intros st Hok. unfold _recvApiReturn.
  destruct td as [| |sn1 err1 pinfo1| | |];
    try (by apply tracked_transitional).
  - by apply Hd.
  - destruct (sn1 =? 0)%Z; [|by apply Hd].
    apply sat_frames_tracked; [|done]. sat_auto.
Qed.

#[local] Hint Resolve tracked_recvApiReturn : sat.

(** The loop of [_disconnect] over the pending calls.  An entry still to
    be visited is still in the map: only the keys of visited entries
    have been deleted. *)
Lemma forEach_onReturn_tracks ret l st :
  pending_ok st ->
  NoDup l.*1 ->
  (forall e, e ∈ l -> e ∈ _pendingCallApis st) ->
  let m := forEach_from l (fun v => call_onReturn v ret) in
  tracks st (state (m st)) (effects (m st)).
Proof.
  revert st. induction l as [|[k id] l IH]; intros st Hok Hnd Hl; simpl.
  - by apply tracked_transitional.
  - apply NoDup_cons in Hnd as [Hk Hnd].
    assert (Hin : (k, id) ∈ _pendingCallApis st) by (apply Hl; left).
    munfold. rewrite (JsMap_elem_has _ _ _ Hin).
    pose proof (call_onReturn_tracks st k id ret Hok Hin) as H1.
    assert (Hrest : forall e, e ∈ l ->
              e ∈ _pendingCallApis (state (call_onReturn id ret st))).
    { intros [k' id'] He.
      assert (k' <> k).
      { intros ->. apply Hk. apply list_elem_of_fmap. by exists (k, id'). }
      assert (Hin' : (k', id') ∈ _pendingCallApis st) by (apply Hl; by right).
      destruct (onReturn (deref st id)) as [p|] eqn:Hon.
      - destruct (call_onReturn_Some st id ret p Hon) as (_ & Hp & _).
        rewrite Hp. apply JsMap_elem_delete. split; [done|].
        destruct (pending_ok_deref _ _ _ Hok Hin) as (-> & _). done.
      - by rewrite (call_onReturn_None _ _ _ Hon). }
    unfold state, effects in *.
    destruct (call_onReturn id ret st) as [[[] st1] e1]. simpl in *.
    specialize (IH st1 (tr_ok _ _ _ H1) Hnd Hrest).
    destruct (forEach_from l (fun v => call_onReturn v ret) st1)
      as [[[] st2] e2]. simpl in *.
    apply (R_trans (R:=tracked) st st1 st2 e1 e2); [by intros _|by intros _|done].
Qed.

Lemma tracked_disconnect m r : sat tracked (_disconnect m r).
Proof.
  unfold _disconnect.
  apply sat_bind; [apply _|apply sat_getS; apply _|intros st0].
  destruct (_disconnecting st0); [sat_auto|].
  destruct (decide (_status st0 = Disconnected)); [sat_auto|].
  destruct (decide (_status st0 = Connected)); [|sat_auto].
  apply sat_bind; [apply _|sat_auto|intros _].
  apply sat_bind; [apply _|sat_auto|intros _].
  apply sat_bind; [apply _| |intros _; sat_auto].
  intros st Hok. unfold pending_forEach. munfold.
  pose proof (forEach_onReturn_tracks (lostConnReturn r)
                (_pendingCallApis st) st Hok) as H.
  unfold state, effects in *. simpl in *.
  destruct (forEach_from (_pendingCallApis st)
              (fun v => call_onReturn v (lostConnReturn r)) st)
    as [[[] st1] e1].
  apply H; [by destruct Hok|auto].
Qed.

#[local] Hint Resolve tracked_disconnect : sat.

Lemma tracked_waitApiReturn i t : sat tracked (_waitApiReturn i t).
Proof. unfold _waitApiReturn. sat_auto. Qed.

Lemma tracked_apiTimeout i p : sat tracked (apiTimeout i p).
Proof. unfold apiTimeout. sat_auto. Qed.

Lemma tracked_abortByKey k : sat tracked (abortByKey k).
Proof. unfold abortByKey. sat_auto. Qed.

Lemma tracked_abortAll : sat tracked abortAll.
Proof. unfold abortAll. sat_auto. Qed.

#[local] Hint Resolve tracked_waitApiReturn tracked_apiTimeout
  tracked_abortByKey tracked_abortAll : sat.

Lemma tracked_doCallApi s r i o : sat tracked (_doCallApi s r i o).
Proof. unfold _doCallApi. sat_auto. Qed.

#[local] Hint Resolve tracked_doCallApi : sat.

Lemma tracked_callApi_afterPreCall i a o pc :
  sat tracked (callApi_afterPreCall i a o pc).
Proof. unfold callApi_afterPreCall. sat_auto. Qed.

Lemma tracked_callApi_afterPreReturn i a pr :
  sat tracked (callApi_afterPreReturn i a pr).
Proof. unfold callApi_afterPreReturn. sat_auto. Qed.

Lemma tracked_timer_fired now t : sat tracked (timer_fired now t).
Proof. unfold timer_fired. sat_auto. Qed.

Lemma tracked_recvTransportData now td :
  sat tracked (_recvTransportData now td).
Proof. unfold _recvTransportData. sat_auto. Qed.

#[local] Hint Resolve tracked_callApi_afterPreCall
  tracked_callApi_afterPreReturn tracked_timer_fired
  tracked_recvTransportData : sat.

Lemma tracked_recvBox now b d : sat tracked (_recvBox now b d).
Proof. unfold _recvBox. sat_auto. Qed.

#[local] Hint Resolve tracked_recvBox : sat.

Lemma tracked_recvData_afterPreRecvData now b pre :
  sat tracked (_recvData_afterPreRecvData now b pre).
Proof. unfold _recvData_afterPreRecvData. sat_auto. Qed.

#[local] Hint Resolve tracked_recvData_afterPreRecvData : sat.

Lemma tracked_handle ev : sat tracked (handle ev).
Proof.
  destruct ev; simpl; sat_auto;
    unfold _disconnect_doDisconnectDone, _disconnect_settled; sat_auto.
Qed.

Lemma tracked_run evs : sat tracked (run evs).
Proof. apply sat_run; [apply _|]. apply tracked_handle. Qed.

Lemma pending_ok_newConnection cfg : pending_ok (newConnection cfg).
Proof.
  split; simpl; [|apply NoDup_nil_2].
  intros k id H. by apply elem_of_nil in H.
Qed.

Lemma nodup_keysb_NoDup (m : JsMap ItemId) :
  nodup_keysb m = true -> NoDup m.*1.
Proof.
  induction m as [|[k v] m IH]; simpl; [intros _; apply NoDup_nil_2|].
  intros H. apply andb_prop in H as [Hk Hm].
  apply NoDup_cons. split; [|auto].
  intros Hin. apply list_elem_of_fmap in Hin as ([k' v'] & Hk' & Hin).
  simpl in Hk'. subst k'.
  by rewrite (JsMap_elem_has _ _ _ Hin) in Hk.
Qed.

Lemma wf_pendingb_ok st : wf_pendingb st = true -> pending_ok st.
Proof.
  unfold wf_pendingb. intros H. apply andb_prop in H as [Hall Hnd].
  split; [|by apply nodup_keysb_NoDup].
  intros k id Hin. rewrite forallb_forall in Hall.
  apply list_elem_of_In in Hin. specialize (Hall _ Hin).
  unfold entry_okb in Hall. simpl in Hall.
  destruct (items st !! id) as [it|]; [|done].
  apply andb_prop in Hall as [Hsn Hab].
  exists it. split; [done|]. split; [by apply Z.eqb_eq|].
  by destruct (isAborted it).
Qed.

Lemma abort_marks st sn0 item :
  pending_ok st ->
  JsMap.get sn0 (_pendingCallApis st) = Some item ->
  let r := abort sn0 st in
  isAborted (deref (state r) item) = true
  /\ onReturn (deref (state r) item) = None
  /\ JsMap.get sn0 (_pendingCallApis (state r)) = None.
Proof.
  intros Hok Hget.
  pose proof (JsMap_get_elem _ _ _ Hget) as Hin.
  destruct (pending_ok_deref _ _ _ Hok Hin) as (_ & _ & Hlt).
  apply lookup_lt_is_Some_2 in Hlt as [it Hit].
  assert (Hres : forall c' : Conn,
    items c' = alter (set_isAborted true) item
                 (alter (set_onReturn None) item (items st)) ->
    _pendingCallApis c' = JsMap.delete sn0 (_pendingCallApis st) ->
    isAborted (deref c' item) = true
    /\ onReturn (deref c' item) = None
    /\ JsMap.get sn0 (_pendingCallApis c') = None).
  { intros c' Hi Hp. unfold deref.
    rewrite Hi, Hp, !list_lookup_alter_eq, Hit. simpl.
    split; [done|]. split; [done|]. apply JsMap_get_delete. }
  unfold abort. munfold. rewrite Hget.
  unfold pending_delete, updateItem. munfold.
  destruct (logApi (options (config st))), (onAbort (deref st item));
    simpl; by apply Hres.
Qed.

(** C4. For every pending call, [onReturn] is invoked at most once in
    any run of the connection, and never once the call is aborted;
    [abort(sn)] marks the call aborted and takes it out of the pending
    map, and a [res] or [err] whose sn is not in the pending map, or is
    that of an aborted item, is dropped without invoking [onReturn]. *)
Theorem onReturn_at_most_once (cfg : Config) (evs : list Event)
  (item : ItemId) :
  let r := run evs (newConnection cfg) in
  count_onReturn item (effects r) <= 1
  /\ (isAborted (deref (state r) item) = true ->
      forall evs',
        count_onReturn item (effects (run evs' (state r))) = 0)
  /\ (forall sn0,
        JsMap.get sn0 (_pendingCallApis (state r)) = Some item ->
        let r' := abort sn0 (state r) in
        isAborted (deref (state r') item) = true
        /\ onReturn (deref (state r') item) = None
        /\ JsMap.get sn0 (_pendingCallApis (state r')) = None)
  /\ (forall (st : Conn) (td : TransportData) (sn0 : Z),
        (exists s b p, td = td_res s sn0 b p)
        \/ (exists e p, td = td_err sn0 e p) ->
        JsMap.get sn0 (_pendingCallApis st) = None
        \/ (exists i, JsMap.get sn0 (_pendingCallApis st) = Some i
                      /\ isAborted (deref st i) = true) ->
        state (_recvApiReturn td st) = st
        /\ forall i, count_onReturn i (effects (_recvApiReturn td st)) = 0).
Proof.
  intros r.
  pose proof (tracked_run evs (newConnection cfg)
                (pending_ok_newConnection cfg)) as Hr.
  fold r in Hr. split; [apply (tr_once _ _ _ Hr)|].
  split; [|split].
  - intros Hab evs'.
    pose proof (tracked_run evs' (state r) (tr_ok _ _ _ Hr)) as Hr'.
    pose proof (tr_once _ _ _ Hr' item) as Hle.
    destruct (decide (0 < count_onReturn item (effects (run evs' (state r)))))
      as [Hpos|]; [|lia].
    exfalso. destruct (tr_ret _ _ _ Hr' _ Hpos) as ([[k Hin]|Hfresh] & _).
    + destruct (pending_ok_deref _ _ _ (tr_ok _ _ _ Hr) Hin) as (_ & Hf & _).
      congruence.
    + apply lookup_ge_None_2 in Hfresh. unfold deref in Hab.
      by rewrite Hfresh in Hab.
  - intros sn0 Hget. by apply abort_marks; [apply (tr_ok _ _ _ Hr)|].
  - intros st td sn0 Htd Hdrop.
    assert (Hd : forall ret,
      let m : M unit :=
        st ← getS;
        match JsMap.get sn0 (_pendingCallApis st) with
        | None => mret tt
        | Some i =>
            if isAborted (deref st i) then mret tt
            else call_onReturn i ret
        end in
      state (m st) = st /\ forall i, count_onReturn i (effects (m st)) = 0).
    { intros ret. munfold.
      destruct Hdrop as [->|(i & -> & ->)]; simpl; done. }
    destruct Htd as [(s & b & p & ->)|(e & p & ->)]; simpl.
    + apply Hd.
    + destruct (sn0 =? 0)%Z; [done|]. apply Hd.
Qed.

(** ** Disconnection *)

#[global] Instance keeps_status_transitional : Transitional keeps_status.
Proof.
  split; [done|]. unfold keeps_status.
  intros ????? [H1 H2] [H3 H4]. split; [congruence|].
  by rewrite List.filter_app, H2, H4.
Qed.

#[local] Hint Extern 1 (sat keeps_status (emit _)) =>
  intros ?; split; reflexivity : sat.
#[local] Hint Extern 1 (sat keeps_status (log _ _)) =>
  intros ?; split; reflexivity : sat.
#[local] Hint Extern 1 (sat keeps_status (clearTimeout _)) =>
  intros ?; split; reflexivity : sat.
#[local] Hint Extern 1 (sat keeps_status (setTimeout _ _)) =>
  intros ?; split; reflexivity : sat.
#[local] Hint Extern 1 (sat keeps_status (modify (set_heartbeat _))) =>
  intros ?; split; reflexivity : sat.
#[local] Hint Extern 1 (sat keeps_status (pending_delete _)) =>
  intros ?; split; reflexivity : sat.
#[local] Hint Extern 1
  (sat keeps_status (modify (fun st => set_promises _ st))) =>
  intros ?; split; reflexivity : sat.

Lemma keeps_status_stopHeartbeat : sat keeps_status _stopHeartbeat.
Proof. unfold _stopHeartbeat. sat_auto. Qed.

Lemma keeps_status_call_onReturn i r : sat keeps_status (call_onReturn i r).
Proof. unfold call_onReturn, resolve. sat_auto. Qed.

#[local] Hint Resolve keeps_status_stopHeartbeat
  keeps_status_call_onReturn : sat.

Lemma filter_nil_length {A} (f : A -> bool) l :
  length (List.filter f l) = 0 -> List.filter f l = [].
Proof. by destruct (List.filter f l). Qed.

(** The loop of [_disconnect]: a visited call with [onReturn] installed
    has it invoked once, with the given return. *)
Lemma forEach_onReturn_filter ret item l st :
  pending_ok st ->
  NoDup l.*1 ->
  (forall e, e ∈ l -> e ∈ _pendingCallApis st) ->
  let m := forEach_from l (fun v => call_onReturn v ret) in
  List.filter (is_onReturn item) (effects (m st))
  = if decide (item ∈ l.*2) then
      match onReturn (deref st item) with
      | Some _ => [e_onReturn item ret]
      | None => []
      end
    else [].
Proof.
  revert st. induction l as [|[k id] l IH]; intros st Hok Hnd Hl;
    cbn [forEach_from]; rewrite ?fmap_cons in *; cbn [fst snd] in *.
  - destruct (decide (item ∈ [])) as [H|]; [|done].
    by apply elem_of_nil in H.
  - apply NoDup_cons in Hnd as [Hk Hnd].
    assert (Hin : (k, id) ∈ _pendingCallApis st) by (apply Hl; left).
    destruct (pending_ok_deref _ _ _ Hok Hin) as (Hsn & _ & _).
    munfold. rewrite (JsMap_elem_has _ _ _ Hin).
    pose proof (call_onReturn_tracks st k id ret Hok Hin) as H1.
    assert (Hnotin : id ∉ l.*2).
    { intros Hid. apply list_elem_of_fmap in Hid as ([k' id'] & Hid & He).
      simpl in Hid. subst id'. apply Hk. apply list_elem_of_fmap.
      exists (k', id). split; [|done]. simpl.
      assert (Hin' : (k', id) ∈ _pendingCallApis st) by (apply Hl; by right).
      destruct (pending_ok_deref _ _ _ Hok Hin') as (Hsn' & _ & _).
      congruence. }
    assert (Hstep :
      items (state (call_onReturn id ret st)) = items st
      /\ (forall e, e ∈ l ->
            e ∈ _pendingCallApis (state (call_onReturn id ret st)))
      /\ List.filter (is_onReturn item) (effects (call_onReturn id ret st))
         = if decide (item = id) then
             match onReturn (deref st item) with
             | Some _ => [e_onReturn item ret]
             | None => []
             end
           else []).
    { destruct (onReturn (deref st id)) as [p|] eqn:Hon.
      - destruct (call_onReturn_Some st id ret p Hon)
          as (Hi & Hp & _ & Hf & _).
        split; [done|]. split.
        + intros [k' id'] He. rewrite Hp. apply JsMap_elem_delete.
          split; [apply Hl; by right|]. rewrite Hsn. intros ->.
          apply Hk. apply list_elem_of_fmap. by exists (k, id').
        + rewrite Hf. destruct (decide (item = id)) as [->|]; [|done].
          by rewrite Hon.
      - rewrite (call_onReturn_None _ _ _ Hon). cbn [fst snd state effects].
        split; [done|]. split; [intros; apply Hl; by right|].
        destruct (decide (item = id)) as [->|]; [|done]. by rewrite Hon. }
    destruct Hstep as (Hi & Hrest & Hf).
    unfold state, effects in *.
    destruct (call_onReturn id ret st) as [[[] st1] e1]. cbn [fst snd] in *.
    specialize (IH st1 (tr_ok _ _ _ H1) Hnd Hrest).
    destruct (forEach_from l (fun v => call_onReturn v ret) st1)
      as [[[] st2] e2]. cbn [fst snd] in *.
    rewrite app_nil_l, List.filter_app, Hf, IH.
    assert (Hd : deref st1 item = deref st item)
      by (unfold deref; by rewrite Hi).
    rewrite Hd.
    destruct (decide (item = id)) as [->|Hne].
    + rewrite (decide_True (P := id ∈ id :: l.*2)) by left.
      rewrite (decide_False (P := id ∈ l.*2)) by done.
      by rewrite app_nil_r.
    + destruct (decide (item ∈ l.*2)) as [Hm|Hm].
      * rewrite (decide_True (P := item ∈ id :: l.*2)) by (by right).
        done.
      * rewrite (decide_False (P := item ∈ id :: l.*2)); [done|].
        intros H. apply elem_of_cons in H as [?|?]; done.
Qed.

Lemma disconnect_afterRace_runs_flow isManual reason p st :
  List.filter is_postDisconnect
    (effects (_disconnect_afterRace isManual reason p st))
  = [e_flow (postDisconnectFlow isManual reason)]
  /\ _status (state (_disconnect_afterRace isManual reason p st))
     = Disconnected.
Proof.
  unfold _disconnect_afterRace. munfold. simpl.
  destruct (logConnect (options (config st))), (side (config st)),
    isManual; simpl; done.
Qed.

(** C2 (as amended). When [_disconnect] takes a connected connection to
    [Disconnecting], every pending call whose [onReturn] is installed has
    it invoked exactly once, with a [NetworkError] of code [LOST_CONN],
    and a pending call without [onReturn] receives nothing; the
    post-disconnect flow is not run by this segment but by the one that
    follows the race. *)
Theorem disconnect_fails_waiting_calls (st : Conn) (isManual : bool)
  (reason : option string) :
  wf_pendingb st = true ->
  _status st = Connected ->
  _disconnecting st = None ->
  let r := _disconnect isManual reason st in
  _status (state r) = Disconnecting
  /\ (forall k item, (k, item) ∈ _pendingCallApis st ->
        List.filter (is_onReturn item) (effects r)
        = match onReturn (deref st item) with
          | Some _ => [e_onReturn item (lostConnReturn reason)]
          | None => []
          end)
  /\ (exists msg,
        lostConnReturn reason
        = ApiFail (mkTsrpcError msg NetworkError (Some "LOST_CONN")))
  /\ List.filter is_postDisconnect (effects r) = []
  /\ (forall p,
        List.filter is_postDisconnect
          (effects (_disconnect_afterRace isManual reason p (state r)))
        = [e_flow (postDisconnectFlow isManual reason)]).
Proof.
  intros Hwf Hst Hd. apply wf_pendingb_ok in Hwf.
  cut (let r := _disconnect isManual reason st in
       _status (state r) = Disconnecting
       /\ (forall k item, (k, item) ∈ _pendingCallApis st ->
             List.filter (is_onReturn item) (effects r)
             = match onReturn (deref st item) with
               | Some _ => [e_onReturn item (lostConnReturn reason)]
               | None => []
               end)
       /\ List.filter is_postDisconnect (effects r) = []).
  { intros (H1 & H2 & H3). split; [done|]. split; [done|].
    split; [by eexists|]. split; [done|].
    intros p. apply disconnect_afterRace_runs_flow. }
  unfold _disconnect. cbv [mbind M_bind getS]. rewrite Hd.
  destruct (decide (_status st = Disconnected)); [congruence|].
  destruct (decide (_status st = Connected)); [|done].
  cbv [modify]. set (st1 := set_status Disconnecting st).
  pose proof (frames_stopHeartbeat st1) as (Hp2 & Hi2 & Hc2).
  pose proof (keeps_status_stopHeartbeat st1) as (Hs2 & Hn2).
  unfold state, effects in *.
  destruct (_stopHeartbeat st1) as [[[] st2] e2]. cbn [fst snd] in *.
  assert (Hok2 : pending_ok st2).
  { destruct Hwf as [Hok Hnd]. split; rewrite Hp2; [|done].
    intros k id Hin. rewrite Hi2. by apply Hok. }
  unfold pending_forEach. cbv [mbind M_bind getS].
  set (f := fun v => call_onReturn v (lostConnReturn reason)).
  pose proof (fun item => forEach_onReturn_filter (lostConnReturn reason)
                item (_pendingCallApis st2) st2 Hok2
                (proj2 Hok2) (fun e H => H)) as Hf3.
  assert (Hk3 : sat keeps_status (forEach_from (_pendingCallApis st2) f)).
  { apply sat_forEach_from; [apply _|]. intros. apply keeps_status_call_onReturn. }
  specialize (Hk3 st2) as (Hs3 & Hn3).
  fold f in Hf3. unfold state, effects in *.
  destruct (forEach_from (_pendingCallApis st2) f st2) as [[[] st3] e3].
  cbn [fst snd] in *.
  cbv [emit setTimeout newDisconnectPromise mret M_ret]. simpl.
  split; [by rewrite Hs3, Hs2|]. split.
  - intros k item Hin.
    rewrite !List.filter_app. simpl. rewrite app_nil_r.
    rewrite (filter_nil_length _ _ (Hc2 item)). simpl.
    rewrite Hf3.
    replace (deref st2 item) with (deref st item)
      by (unfold deref; by rewrite Hi2).
    rewrite decide_True; [done|].
    rewrite Hp2. apply list_elem_of_fmap. by exists (k, item).
  - rewrite !List.filter_app, Hn2, Hn3. done.
Qed.

(** The claim as stated fails for a call that is still in its pre-call
    flow: it is in the pending map, [_disconnect] invokes nothing for it,
    and the call later ends with a [LocalError]. *)
Lemma disconnect_skips_call_without_onReturn :
  _status demoCalling = Connected
  /\ _pendingCallApis demoCalling = [(1%Z, 0)]
  /\ onReturn (deref demoCalling 0) = None
  /\ _status (state (_disconnect true None demoCalling)) = Disconnecting
  /\ effects (_disconnect true None demoCalling)
     = [e_doDisconnect true None; e_setTimeout 0 3000]
  /\ count_onReturn 0 (effects (_disconnect true None demoCalling)) = 0
  /\ (let st := state (_disconnect true None demoCalling) in
      let r := callApi_afterPreCall 0 "Echo" None (Some echoFlow) st in
      exists k,
        result r = Suspended (awaits_doCallApi 0 "Echo" echoFlow k)
        /\ dc_promiseSend k = Resolved (errConnNotConnected st)
        /\ result (_doCallApi_afterSend k (errConnNotConnected st) (state r))
           = Resolved (ApiFail (mkTsrpcError "The client is not connected"
                                  LocalError None))).
Proof.
  repeat (split; [reflexivity|]).
  eexists. split; [reflexivity|]. split; reflexivity.
Qed.

Lemma disconnect_fails_waiting_calls_witness :
  wf_pendingb demoWaiting = true
  /\ _status demoWaiting = Connected
  /\ _disconnecting demoWaiting = None
  /\ _pendingCallApis demoWaiting = [(1%Z, 0)]
  /\ List.filter (is_onReturn 0)
       (effects (_disconnect true (Some "bye") demoWaiting))
     = [e_onReturn 0
          (ApiFail (mkTsrpcError "Disconnected to server, reason: bye"
                      NetworkError (Some "LOST_CONN")))].
Proof.
  split; [reflexivity|]. split; [reflexivity|]. split; [reflexivity|].
  split; [reflexivity|].
  exact (proj1 (proj2 (disconnect_fails_waiting_calls demoWaiting true
                         (Some "bye") eq_refl eq_refl eq_refl))
           1%Z 0 (list_elem_of_here _ _)).
Defined.

(** ** Timeouts *)

(** [_waitApiReturn] arms a timer exactly when the timeout is not [0]. *)
Lemma waitApiReturn_timer item timeout st :
  let r := _waitApiReturn item timeout st in
  let p := length (promises st) in
  result r = p
  /\ (if truthyZ timeout then
        timers (state r)
          = timers st ++ [mkTimer (cb_apiTimeout item p) timeout true]
        /\ promises (state r)
           = promises st
             ++ [mkReturnPromise (Some (length (timers st))) None]
      else
        timers (state r) = timers st
        /\ promises (state r) = promises st ++ [mkReturnPromise None None])
  /\ items (state r) = alter (set_onReturn (Some p)) item (items st).
Proof.
  unfold _waitApiReturn, newPromise, setTimeout, updateItem. munfold.
  destruct (truthyZ timeout); simpl; [|done].
  split; [done|]. split; [|done]. split; [done|].
  rewrite alter_app_r_alt by lia. by rewrite Nat.sub_diag.
Qed.

(** [_doCallApi] waits with [options?.timeout ?? this.options.callApiTimeout]. *)
Lemma doCallApi_effective_timeout s r item o st :
  let td := td_req s (sn (deref st item)) r
              (match _remoteProtoInfo st with
               | None => Some (_localProtoInfo (config st))
               | Some _ => None
               end) in
  let st1 := state (_sendTransportData td o None st) in
  state (_doCallApi s r item o st)
  = state (_waitApiReturn item
             (default (callApiTimeout (options (config st)))
                      (o ≫= opt_timeout)) st1).
Proof.
  cbv zeta. unfold _doCallApi. cbv [mbind M_bind getS state].
  destruct (_sendTransportData _ o None st) as [[a st1] e1]. cbn [fst snd].
  destruct (_waitApiReturn _ _ st1) as [[b st2] e2]. reflexivity.
Qed.

(** C5. When the timer of [_waitApiReturn] fires for a call that is
    waiting, the call's promise is resolved with the [NetworkError] of
    code [TIMEOUT] and message [Request Timeout], and the call is removed
    from the pending map; [_doCallApi] returns that value and [callApi],
    once the return flow has handed it back, resolves to it; a [res] or
    [err] that arrives later with that sn changes nothing and invokes no
    [onReturn].  The timer is armed by [_waitApiReturn] for the timeout
    [options.timeout ?? options.callApiTimeout] it is given by
    [_doCallApi], and not at all when that is [0]. *)
Theorem timeout_resolves_and_drops_late_reply (st : Conn) (now : Z)
  (t : TimerId) (item : ItemId) (p : PromiseId)
  (it : PendingCallApiItem) (ms : Z) (apiName0 : string)
  (preCall : CallApiFlowData) (k : DoCallApiCont) :
  items st !! item = Some it ->
  isAborted it = false ->
  timers st !! t = Some (mkTimer (cb_apiTimeout item p) ms true) ->
  promises st !! p = Some (mkReturnPromise (Some t) None) ->
  dc_pendingItem k = item ->
  let st' := state (timer_fired now t st) in
  timeoutReturn
    = ApiFail (mkTsrpcError "Request Timeout" NetworkError (Some "TIMEOUT"))
  /\ promises st' !! p = Some (mkReturnPromise None (Some timeoutReturn))
  /\ JsMap.get (sn it) (_pendingCallApis st') = None
  /\ _doCallApi_afterSend k (OpSucc tt) st' = (Suspended k, st', [])
  /\ _doCallApi_afterReturn k timeoutReturn st'
     = (Resolved timeoutReturn, st', [])
  /\ callApi_afterGetReturn item apiName0 preCall timeoutReturn st'
     = (Suspended (awaits_preCallApiReturnFlow item apiName0), st',
        [e_flow (preCallApiReturnFlow
                   (mkCallApiReturnFlowData (f_apiName preCall)
                      (f_req preCall) timeoutReturn))])
  /\ result (callApi_afterPreReturn item apiName0
               (Some (mkCallApiReturnFlowData (f_apiName preCall)
                        (f_req preCall) timeoutReturn)) st')
     = Resolved timeoutReturn
  /\ (forall s b e pinfo td,
        td = td_res s (sn it) b pinfo \/ td = td_err (sn it) e pinfo ->
        state (_recvApiReturn td st') = st'
        /\ forall i, count_onReturn i (effects (_recvApiReturn td st')) = 0)
  /\ (forall item' st0,
        timers (state (_waitApiReturn item' 0 st0)) = timers st0)
  /\ (forall item' ms' st0,
        ms' <> 0%Z ->
        timers (state (_waitApiReturn item' ms' st0))
        = timers st0
          ++ [mkTimer (cb_apiTimeout item' (length (promises st0))) ms'
                true])
  /\ (forall s r item' o st0,
        state (_doCallApi s r item' o st0)
        = state (_waitApiReturn item'
                   (default (callApiTimeout (options (config st0)))
                            (o ≫= opt_timeout))
                   (state (_sendTransportData
                             (td_req s (sn (deref st0 item')) r
                                (match _remoteProtoInfo st0 with
                                 | None =>
                                     Some (_localProtoInfo (config st0))
                                 | Some _ => None
                                 end)) o None st0)))).
Proof.
  intros Hit Hab Ht Hp Hk st'.
  assert (Hst' : items st' = items st
    /\ promises st' !! p = Some (mkReturnPromise None (Some timeoutReturn))
    /\ JsMap.get (sn it) (_pendingCallApis st') = None).
  { subst st'. unfold timer_fired. munfold. rewrite Ht. simpl.
    unfold apiTimeout, pending_delete, resolve. munfold. simpl.
    unfold deref. simpl. rewrite Hit. simpl.
    split; [done|]. split; [|apply JsMap_get_delete].
    by rewrite !list_lookup_alter_eq, Hp. }
  destruct Hst' as (Hi & Hp' & Hget).
  assert (Hd : deref st' item = it)
    by (unfold deref; by rewrite Hi, Hit).
  clearbody st'.
  split; [done|]. split; [done|]. split; [done|]. split; [done|].
  split; [unfold _doCallApi_afterReturn; munfold; by rewrite Hk, Hd, Hab|].
  split; [unfold callApi_afterGetReturn; munfold; by rewrite Hd, Hab|].
  split.
  { unfold callApi_afterPreReturn. munfold. rewrite Hd, Hab.
    unfold pending_delete. munfold.
    by destruct (logApi (options (config st'))). }
  split.
  - intros s b e pinfo td Htd.
    assert (Hdrop : forall ret,
      let m : M unit :=
        c ← getS;
        match JsMap.get (sn it) (_pendingCallApis c) with
        | None => mret tt
        | Some i =>
            if isAborted (deref c i) then mret tt else call_onReturn i ret
        end in
      state (m st') = st'
      /\ forall i, count_onReturn i (effects (m st')) = 0).
    { intros ret. munfold. by rewrite Hget. }
    destruct Htd as [->| ->]; simpl; [apply Hdrop|].
    destruct (sn it =? 0)%Z; [done|apply Hdrop].
  - split; [|split].
    + intros item' st0.
      by destruct (waitApiReturn_timer item' 0 st0) as (_ & [H _] & _).
    + intros item' ms' st0 Hms.
      destruct (waitApiReturn_timer item' ms' st0) as (_ & H & _).
      unfold truthyZ in H. destruct (Z.eqb_spec ms' 0); [done|].
      by destruct H.
    + intros. apply doCallApi_effective_timeout.
Qed.

Lemma timeout_resolves_and_drops_late_reply_witness :
  timers demoWaiting !! 0 = Some (mkTimer (cb_apiTimeout 0 0) 15000 true)
  /\ result (callApi_afterPreReturn 0 "Echo"
               (Some (mkCallApiReturnFlowData "Echo" "hi" timeoutReturn))
               (state (timer_fired 0 0 demoWaiting)))
     = Resolved timeoutReturn
  /\ JsMap.get 1 (_pendingCallApis (state (timer_fired 0 0 demoWaiting)))
     = None.
Proof.
  pose proof (timeout_resolves_and_drops_late_reply demoWaiting 0 0 0 0
                (mkItem 1 "Echo" "hi" false None None None (Some 0))
                15000 "Echo" echoFlow
                (mkDoCallApiCont 0 (Resolved (OpSucc tt)) 0)
                eq_refl eq_refl eq_refl eq_refl eq_refl) as H.
  split; [reflexivity|].
  split; [exact (proj1 (proj2 (proj2 (proj2 (proj2 (proj2 (proj2 H)))))))|].
  exact (proj1 (proj2 (proj2 H))).
Defined.

(** ** Sequence numbers of requests *)

#[global] Instance only_req_transitional n : Transitional (only_req n).
Proof.
  split; [intros st; apply Forall_nil_2|].
  unfold only_req. intros ????? H1 H2. by apply Forall_app.
Qed.

Lemma only_req_emit n e :
  (forall m, req_sn e = Some m -> m = n) -> sat (only_req n) (emit e).
Proof. intros H st. by apply Forall_singleton. Qed.

#[local] Hint Extern 1 (sat (only_req _) (emit _)) =>
  apply only_req_emit; simpl; solve [done | intros ? [=]; done] : sat.
#[local] Hint Extern 1 (sat (only_req _) (log _ _)) =>
  apply only_req_emit; simpl; done : sat.
#[local] Hint Extern 1 (sat (only_req _) (modify _)) =>
  intros ?; apply Forall_nil_2 : sat.
#[local] Hint Extern 1 (sat (only_req _) newPromise) =>
  intros ?; apply Forall_nil_2 : sat.
#[local] Hint Extern 1 (sat (only_req _) (updateItem _ _)) =>
  intros ?; apply Forall_nil_2 : sat.
#[local] Hint Extern 1 (sat (only_req _) (setTimeout _ _)) =>
  intros ?; apply Forall_singleton; simpl; done : sat.

Lemma only_req_sendTransportData n s r pinfo o c :
  sat (only_req n) (_sendTransportData (td_req s n r pinfo) o c).
Proof. unfold _sendTransportData, _sendBox. sat_auto. Qed.

Lemma only_req_waitApiReturn n i t : sat (only_req n) (_waitApiReturn i t).
Proof. unfold _waitApiReturn. sat_auto. Qed.

(** Taking the branches of a segment one by one. *)
Ltac mcase :=
  match goal with
  | |- context [match ?x with _ => _ end] =>
      lazymatch x with
      | context [match _ with _ => _ end] => fail
      | _ => destruct x eqn:?
      end
  end.
Ltac mrun := munfold; repeat (mcase; cbv beta iota).

Lemma sendTransportData_keeps_data td o c st k :
  result (_sendTransportData td o c st) = Suspended k ->
  sb_transportData k = td.
Proof.
  unfold _sendTransportData, _sendBox. mrun; cbn [fst snd]; try done;
    intros [= ?]; by subst.
Qed.

Lemma doCallApi_promiseSend s r item o st :
  dc_promiseSend (result (_doCallApi s r item o st))
  = result (_sendTransportData
              (td_req s (sn (deref st item)) r
                 (match _remoteProtoInfo st with
                  | None => Some (_localProtoInfo (config st))
                  | Some _ => None
                  end)) o None st).
Proof.
  unfold _doCallApi. cbv [mbind M_bind getS result mret M_ret].
  destruct (_sendTransportData _ o None st) as [[a st1] e1]. cbn [fst snd].
  destruct (_waitApiReturn _ _ st1) as [[b st2] e2]. reflexivity.
Qed.

Lemma only_req_sns n es :
  Forall (fun e => forall m, req_sn e = Some m -> m = n) es ->
  forall m, m ∈ req_sns es -> m = n.
Proof.
  intros H m Hm. apply list_elem_of_omap in Hm as (e & He & Hr).
  rewrite Forall_forall in H. eauto.
Qed.

(** X1. The request built by [_doCallApi] carries the sequence number
    of the pending item it was given; [callApi] registers that item
    under this number, and a [res] with this number invokes its
    [onReturn]. *)
Theorem doCallApi_req_carries_pending_sn (st : Conn) (s : string)
  (r : Body) (item : ItemId) (o : option TransportOptions) :
  (forall n, n ∈ req_sns (effects (_doCallApi s r item o st)) ->
             n = sn (deref st item))
  /\ (forall k,
        dc_promiseSend (result (_doCallApi s r item o st)) = Suspended k ->
        exists pinfo,
          sb_transportData k = td_req s (sn (deref st item)) r pinfo)
  /\ (let r1 := callApi s r o st in
      let item1 := length (items st) in
      let sn1 := sn (deref (state r1) item1) in
      result r1 = awaits_preCallApiFlow item1 s o
      /\ sn1 = ctr_next (_callApiSn st)
      /\ JsMap.get sn1 (_pendingCallApis (state r1)) = Some item1)
  /\ (forall sv b pinfo p,
        JsMap.get (sn (deref st item)) (_pendingCallApis st) = Some item ->
        isAborted (deref st item) = false ->
        onReturn (deref st item) = Some p ->
        List.filter (is_onReturn item)
          (effects (_recvApiReturn
                      (td_res sv (sn (deref st item)) b pinfo) st))
        = [e_onReturn item (ApiSucc b)]).
Proof.
  split; [|split; [|split]].
  - apply only_req_sns. unfold _doCallApi.
    cbv [mbind M_bind getS effects mret M_ret].
    pose proof (only_req_sendTransportData (sn (deref st item)) s r
                  (match _remoteProtoInfo st with
                   | None => Some (_localProtoInfo (config st))
                   | Some _ => None
                   end) o None st) as H1.
    unfold only_req, effects in H1.
    destruct (_sendTransportData _ o None st) as [[a st1] e1].
    pose proof (only_req_waitApiReturn (sn (deref st item)) item
                  (default (callApiTimeout (options (config st)))
                           (o ≫= opt_timeout)) st1) as H2.
    unfold only_req, effects in H2.
    destruct (_waitApiReturn _ _ st1) as [[b st2] e2]. cbn [fst snd] in *.
    rewrite app_nil_l, app_nil_r. by apply Forall_app.
  - intros k. rewrite doCallApi_promiseSend. intros Hk.
    apply sendTransportData_keeps_data in Hk. eauto.
  - unfold callApi, getNext, newItem, pending_set, deref. munfold.
    destruct (logApi (options (config st)));
      destruct (option_bind _ _ opt_abortSignal o); simpl;
      rewrite list_lookup_middle by done; simpl;
      (split; [done|]; split; [done|]; apply JsMap_get_set).
  - intros sv b pinfo p Hget Hab Hon.
    destruct (call_onReturn_Some st item (ApiSucc b) p Hon)
      as (_ & _ & _ & Hf & _).
    specialize (Hf item). rewrite decide_True in Hf by done.
    unfold _recvApiReturn. munfold. rewrite Hget, Hab.
    by destruct (call_onReturn item (ApiSucc b) st) as [[[] ?] ?].
Qed.

(** In the older copy of the class the request is numbered with
    [this._nextSn], a number read from the counter when [_doCallApi]
    runs, and not with the number of the pending item: the number of the
    request does not depend on the call it belongs to. *)
Lemma legacy_doCallApi_req_sn st s r item o :
  forall n, n ∈ req_sns (effects (Legacy._doCallApi s r item o st)) ->
            n = Legacy._nextSn st.
Proof.
  apply only_req_sns. unfold Legacy._doCallApi.
  cbv [mbind M_bind getS effects mret M_ret].
  assert (H1 : sat (only_req (Legacy._nextSn st))
                 (Legacy._sendTransportData
                    (td_req s (Legacy._nextSn st) r
                       (match _remoteProtoInfo st with
                        | None => Some (_localProtoInfo (config st))
                        | Some _ => None
                        end)) o)).
  { unfold Legacy._sendTransportData. sat_auto. }
  specialize (H1 st). unfold only_req, effects in H1.
  destruct (Legacy._sendTransportData _ o st) as [[a st1] e1].
  pose proof (only_req_waitApiReturn (Legacy._nextSn st) item
                (default (callApiTimeout (options (config st)))
                         (o ≫= opt_timeout)) st1) as H2.
  unfold only_req, effects in H2.
  destruct (_waitApiReturn _ _ st1) as [[b st2] e2]. cbn [fst snd] in *.
  rewrite app_nil_l, app_nil_r. by apply Forall_app.
Qed.

(** C1, in the older copy of the class. Two calls are started and both
    wait in their pre-call flow; they are registered under 1 and 2.
    When the flow of the first returns, its request is sent with
    sequence number 3, and so is the request of the second: the reply to
    either request finds no pending call, while the pending calls 1 and
    2 are never answered.  With a single call the request carries 2 and
    the call is registered under 1. *)
Theorem legacy_doCallApi_req_sn_mismatch :
  _pendingCallApis legacyTwoCalls = [(1%Z, 0); (2%Z, 1)]
  /\ sn (deref legacyTwoCalls 0) = 1%Z
  /\ sn (deref legacyTwoCalls 1) = 2%Z
  /\ (let r := Legacy.callApi_afterPreCall 0 "A" None
                 (Some (mkCallApiFlowData "A" "x" None)) legacyTwoCalls in
      req_sns (effects r) = [3%Z]
      /\ (let r' := Legacy.callApi_afterPreCall 1 "B" None
                      (Some (mkCallApiFlowData "B" "y" None)) (state r) in
          req_sns (effects r') = [3%Z]
          /\ Legacy._recvApiReturn (td_res (Some "A") 3 "x" None) (state r')
             = (None, state r',
                [e_log error "Invalid SN for callApi return: "])))
  /\ (let r := Legacy.callApi_afterPreCall 0 "A" None
                 (Some (mkCallApiFlowData "A" "x" None)) legacyOneCall in
      _pendingCallApis legacyOneCall = [(1%Z, 0)]
      /\ req_sns (effects r) = [2%Z]).
Proof. vm_compute. repeat split. Qed.

(** ** Heartbeat *)

Lemma startHeartbeat_recv_only st now :
  heartbeatSendInterval (options (config st)) = 0%Z ->
  _heartbeat st = None ->
  _startHeartbeat now st = (tt, st, []).
Proof.
  intros Hi Hh. unfold _startHeartbeat, _resetHeartbeatTimeout. munfold.
  rewrite Hh, Hi. cbv beta iota. unfold truthyZ. simpl. by rewrite Hh.
Qed.

Lemma recvHeartbeat_without_state st now sn0 isReply :
  _heartbeat st = None ->
  _recvHeartbeat now sn0 isReply st = (tt, st, []).
Proof. intros Hh. unfold _recvHeartbeat. munfold. by rewrite Hh. Qed.

(** With heartbeat enabled and [heartbeatSendInterval = 0] the
    heartbeat state is never created, so no receive timeout is armed and
    a received ping is ignored. *)
Lemma recv_only_heartbeat_inert (st : Conn) (now now' : Z) (sn0 : Z)
  (isReply : option bool) :
  heartbeatSendInterval (options (config st)) = 0%Z ->
  _heartbeat st = None ->
  _status st <> Connected ->
  let r := status_setter now Connected st in
  _status (state r) = Connected
  /\ _heartbeat (state r) = None
  /\ timers (state r) = timers st
  /\ effects r = [e_flow postConnectFlow]
  /\ _recvHeartbeat now' sn0 isReply (state r) = (tt, state r, []).
Proof.
  intros Hi Hh Hs.
  assert (Hr : status_setter now Connected st
               = (tt, set_status Connected st, [e_flow postConnectFlow])).
  { unfold status_setter. munfold.
    destruct (decide (_status st = Connected)); [done|].
    destruct (decide (Connected = Connected)); [|done].
    destruct (heartbeat (options (config st))); [|done].
    by rewrite startHeartbeat_recv_only. }
  cbv zeta. rewrite Hr. unfold state, effects. cbn [fst snd].
  repeat split; try done.
  by apply recvHeartbeat_without_state.
Qed.

(** C3, on a client in receive-only mode ([heartbeat = true],
    [heartbeatSendInterval = 0]): once connected it has no heartbeat
    state and no timer, and a ping leaves it unchanged and is not
    answered.  A client that sends pings answers the same ping and has
    its receive timeout armed. *)
Theorem recv_only_heartbeat_never_started :
  heartbeat recvOnlyOptions = true
  /\ heartbeatSendInterval recvOnlyOptions = 0%Z
  /\ _status demoRecvOnly = Connected
  /\ _heartbeat demoRecvOnly = None
  /\ timers demoRecvOnly = []
  /\ _recvTransportData 7 (td_heartbeat 1 None) demoRecvOnly
     = (tt, demoRecvOnly, [])
  /\ List.filter (fun tm => tm_armed tm) (timers demoPinging)
     = [mkTimer cb_recvHeartbeatTimeout 5000 true]
  /\ effects (_recvTransportData 7 (td_heartbeat 1 None) demoPinging)
     = [e_clearTimeout 0; e_setTimeout 1 5000;
        e_flow (preSendDataFlow
                  (mkSendDataFlowData (raw_text "body")
                     (td_heartbeat 1 (Some true)) None))].
Proof. vm_compute. repeat split. Qed.

(** ** Inbound [err] with sn 0 *)

(** C6. An [err] with [sn = 0] is only logged: [_recvApiReturn] leaves
    the connection as it is, and through the dispatch of
    [_recvTransportData] the pending map, the items and the promises are
    unchanged and no [onReturn] is invoked. *)
Theorem recvApiReturn_err_sn0 (st : Conn) (now : Z) (err0 : TsrpcError)
  (pinfo : option ProtoInfo) :
  _recvApiReturn (td_err 0 err0 pinfo) st
    = (tt, st, [e_log error "[RemoteErr]"])
  /\ (let r := _recvTransportData now (td_err 0 err0 pinfo) st in
      _pendingCallApis (state r) = _pendingCallApis st
      /\ items (state r) = items st
      /\ promises (state r) = promises st
      /\ forall item, count_onReturn item (effects r) = 0).
Proof.
  split; [reflexivity|].
  unfold _recvTransportData, _recvApiReturn. munfold.
  destruct (debugBuf (options (config st))), pinfo; cbn;
    repeat split; reflexivity.
Qed.



(** ** Sending and receiving while not connected *)

(** C7. While the status is not [Connected], [_sendTransportData]
    returns the connection-not-connected error of the transport without
    touching the connection (it emits at most its debug log, and nothing
    is handed to a flow or to the transport), and [_recvData] returns
    without emitting anything or changing the connection. *)
Theorem not_connected_send_recv (st : Conn) (td : TransportData)
  (opts : option TransportOptions) (call : option nat) (data : RawData)
  (boxInfo : option Box) :
  _status st <> Connected ->
  _sendTransportData td opts call st
    = (Resolved (errConnNotConnected st), st,
       if debugBuf (options (config st))
       then [e_log debug "[debugBuf] [SendTransportData]"] else [])
  /\ _recvData data boxInfo st = (PROMISE_ABORTED, st, []).
Proof.
  intros H. unfold _sendTransportData, _recvData. munfold.
  destruct (decide (_status st = Connected)); [done|].
  by destruct (debugBuf (options (config st))).
Qed.

Lemma not_connected_send_recv_witness :
  _status (newConnection (demoConfig quietOptions)) <> Connected
  /\ _sendTransportData demoPing None None
       (newConnection (demoConfig quietOptions))
     = (Resolved (OpFail "The client is not connected" None),
        newConnection (demoConfig quietOptions), [])
  /\ _recvData (raw_text "{}") None
       (newConnection (demoConfig quietOptions))
     = (PROMISE_ABORTED, newConnection (demoConfig quietOptions), []).
Proof.
  assert (H : _status (newConnection (demoConfig quietOptions))
              <> Connected) by discriminate.
  split; [exact H|].
  exact (not_connected_send_recv (newConnection (demoConfig quietOptions))
           demoPing None None (raw_text "{}") None H).
Defined.

(** C9. When [_sendBox] resumes from the pre-send flow and the status is
    not [Connected], it calls [_sendData] for nothing, leaves the
    connection as it is and, unless the flow cancelled, returns the
    connection-not-connected error; and no segment of the connection
    started in such a state calls [_sendData]. *)
Theorem sendBox_rechecks_status (st : Conn) (k : SendBoxCont)
  (pre : option SendDataFlowData) :
  _status st <> Connected ->
  List.filter is_sendData (effects (_sendBox_afterPreSendData k pre st)) = []
  /\ state (_sendBox_afterPreSendData k pre st) = st
  /\ (forall d, pre = Some d ->
        result (_sendBox_afterPreSendData k pre st)
        = Resolved (errConnNotConnected st))
  /\ (forall ev, List.filter is_sendData (effects (handle ev st)) = []).
Proof.
  intros H. split; [|split; [|split]].
  - unfold _sendBox_afterPreSendData. destruct pre as [d|]; munfold;
      [|done]. by destruct (decide (_status st = Connected)).
  - unfold _sendBox_afterPreSendData. destruct pre as [d|]; munfold;
      [|done]. by destruct (decide (_status st = Connected)).
  - intros d ->. unfold _sendBox_afterPreSendData. munfold.
    by destruct (decide (_status st = Connected)).
  - intros ev. by apply handle_no_send_unless_connected.
Qed.

(** The send pipeline of a ping is started while connected; the flow
    returns after the disconnection has begun. *)
Lemma sendBox_rechecks_status_witness :
  result (_sendTransportData demoPing None None demoConnected)
    = Suspended demoPingCont
  /\ effects (_sendBox_afterPreSendData demoPingCont (Some demoPingData)
                demoConnected)
     = [e_sendData (raw_text "body") demoPing None]
  /\ _status demoDisconnecting <> Connected
  /\ result (_sendBox_afterPreSendData demoPingCont (Some demoPingData)
               demoDisconnecting)
     = Resolved (OpFail "The client is not connected" None)
  /\ List.filter is_sendData
       (effects (_sendBox_afterPreSendData demoPingCont
                   (Some demoPingData) demoDisconnecting))
     = [].
Proof.
  assert (H : _status demoDisconnecting <> Connected) by discriminate.
  split; [reflexivity|]. split; [reflexivity|]. split; [exact H|].
  destruct (sendBox_rechecks_status demoDisconnecting demoPingCont
              (Some demoPingData) H) as (H1 & _ & H3 & _).
  split; [exact (H3 demoPingData eq_refl)|exact H1].
Defined.

(** ** Calling [disconnect] *)

(** C8 (as amended). While a disconnection is in flight, [_disconnect]
    returns the promise kept in [_disconnecting], whatever the status.
    Otherwise: from [Disconnected] it succeeds and changes nothing; from
    [Connecting] or [Disconnecting] it fails with a message and changes
    nothing; from [Connected] it moves to [Disconnecting] and returns a
    new promise, which every later call returns as long as it is kept. *)
Theorem disconnect_by_status (st : Conn) (isManual : bool)
  (reason : option string) :
  let r := _disconnect isManual reason st in
  (forall p, _disconnecting st = Some p -> r = (dr_promise p, st, []))
  /\ (_disconnecting st = None -> _status st = Disconnected ->
      r = (dr_value (OpSucc tt), st, []))
  /\ (_disconnecting st = None ->
      _status st = Connecting \/ _status st = Disconnecting ->
      exists msg, r = (dr_value (OpFail msg None), st, []))
  /\ (_disconnecting st = None -> _status st = Connected ->
      exists p,
        result r = dr_promise p
        /\ _disconnecting (state r) = Some p
        /\ _status (state r) = Disconnecting
        /\ disconnects (state r) !! p = Some None
        /\ forall isManual' reason',
             _disconnect isManual' reason' (state r)
             = (dr_promise p, state r, [])).
Proof.
  cbv zeta. split; [|split; [|split]].
  - intros p Hp. unfold _disconnect. munfold. by rewrite Hp.
  - intros Hd Hs. unfold _disconnect. munfold. rewrite Hd.
    by destruct (decide (_status st = Disconnected)).
  - intros Hd Hs. unfold _disconnect. munfold. rewrite Hd.
    destruct (decide (_status st = Disconnected)) as [Heq|];
      [destruct Hs; congruence|].
    destruct (decide (_status st = Connected)) as [Heq|];
      [destruct Hs; congruence|].
    by eexists.
  - intros Hd Hs.
    assert (Hnext : forall (c : Conn) p,
              _disconnecting c = Some p ->
              forall isManual' reason',
                _disconnect isManual' reason' c = (dr_promise p, c, [])).
    { intros c p Hp ??. unfold _disconnect. munfold. by rewrite Hp. }
    unfold _disconnect. cbv [mbind M_bind getS]. rewrite Hd.
    destruct (decide (_status st = Disconnected)); [congruence|].
    destruct (decide (_status st = Connected)); [|done].
    cbv [modify].
    destruct (_stopHeartbeat (set_status Disconnecting st))
      as [[[] st2] e2] eqn:E2.
    pose proof (keeps_status_stopHeartbeat (set_status Disconnecting st))
      as [Hs2 _].
    rewrite E2 in Hs2. unfold state in Hs2. cbn [fst snd] in Hs2.
    pose proof (sat_pending_forEach keeps_status
                  (fun v => call_onReturn v (lostConnReturn reason))
                  (fun v => keeps_status_call_onReturn v _) st2)
      as [Hs3 _].
    destruct (pending_forEach
                (fun v => call_onReturn v (lostConnReturn reason)) st2)
      as [[[] st3] e3].
    unfold state in Hs3. cbn [fst snd] in Hs3.
    cbv [emit setTimeout newDisconnectPromise mret M_ret state result].
    cbn [fst snd].
    exists (length (disconnects st3)).
    split; [done|]. split; [done|].
    split; [simpl; by rewrite Hs3, Hs2|].
    split; [simpl; by apply list_lookup_middle|].
    by apply Hnext.
Qed.

(** The claim as stated rejects every call made while the status is
    [Disconnecting]; but while a disconnection is in flight the status is
    [Disconnecting] and the call is given the promise of that
    disconnection, which then resolves successfully. *)
Lemma disconnect_in_flight_not_rejected :
  _status demoDisconnecting = Disconnecting
  /\ _disconnecting demoDisconnecting = Some 0
  /\ _disconnect true None demoDisconnecting
     = (dr_promise 0, demoDisconnecting, [])
  /\ (forall msg phase,
        result (_disconnect true None demoDisconnecting)
        <> dr_value (OpFail msg phase))
  /\ disconnects
       (state (_disconnect_afterRace true None 0 demoDisconnecting)) !! 0
     = Some (Some (OpSucc tt)).
Proof.
  split; [reflexivity|]. split; [reflexivity|]. split; [reflexivity|].
  split; [intros msg phase; discriminate|reflexivity].
Qed.

Lemma disconnect_by_status_witness :
  _disconnecting demoConnected = None
  /\ _status demoConnected = Connected
  /\ exists p,
       result (_disconnect true None demoConnected) = dr_promise p
       /\ _status (state (_disconnect true None demoConnected))
          = Disconnecting
       /\ _disconnect false (Some "again")
            (state (_disconnect true None demoConnected))
          = (dr_promise p, state (_disconnect true None demoConnected), []).
Proof.
  split; [reflexivity|]. split; [reflexivity|].
  destruct (proj2 (proj2 (proj2 (disconnect_by_status demoConnected true
                                   None))) eq_refl eq_refl)
    as (p & H1 & _ & H3 & _ & H5).
  exists p. split; [exact H1|]. split; [exact H3|]. apply H5.
Defined.

(** ** Implementing an API *)

(** C10. [implementApi] tests [this._apiHandlers[apiName]], and
    [_apiHandlers] is a plain object: for a name inherited from
    [Object.prototype], such as [constructor], the test succeeds although
    no handler is registered, so that [implementApi] throws
    [implementApi duplicately for: constructor] and registers nothing,
    even on a new connection.  For every name: when the name has a
    handler, [implementApi] throws and changes nothing, so the
    registered handler stays; when it has none and is not an inherited
    name, the handler is registered under that name and the other names
    are left as they are. *)
Theorem implementApi_throws_on_inherited_name (cfg : Config) (st : Conn)
  (apiName0 : string) (handler : ApiHandler) :
  (let r0 := Legacy.implementApi "constructor" handler (newConnection cfg) in
   _apiHandlers (newConnection cfg) !! "constructor" = None
   /\ r0 = (inl "implementApi duplicately for: constructor",
            newConnection cfg, [])
   /\ _apiHandlers (state r0) !! "constructor" = None)
  /\ (let r := Legacy.implementApi apiName0 handler st in
      match _apiHandlers st !! apiName0 with
      | Some (Some old) =>
          result r
          = inl ("implementApi duplicately for: " ++ apiName0)%string
          /\ state r = st
          /\ effects r = []
          /\ _apiHandlers (state r) !! apiName0 = Some (Some old)
      | Some None =>
          result r = inr tt
          /\ _apiHandlers (state r) !! apiName0 = Some (Some handler)
          /\ (forall other, other <> apiName0 ->
                _apiHandlers (state r) !! other = _apiHandlers st !! other)
      | None =>
          if bool_decide (apiName0 ∈ Legacy.Object_prototype_keys) then
            result r
            = inl ("implementApi duplicately for: " ++ apiName0)%string
            /\ state r = st
            /\ effects r = []
          else
            result r = inr tt
            /\ _apiHandlers (state r) !! apiName0 = Some (Some handler)
            /\ (forall other, other <> apiName0 ->
                  _apiHandlers (state r) !! other
                  = _apiHandlers st !! other)
      end).
Proof.
  split.
  - cbv zeta. unfold Legacy.implementApi, Legacy.apiHandler_truthy.
    munfold. cbn [_apiHandlers newConnection].
    rewrite lookup_empty. split; [done|]. split; by vm_compute.
  - cbv zeta. unfold Legacy.implementApi, Legacy.apiHandler_truthy.
    munfold.
    destruct (_apiHandlers st !! apiName0) as [[old|]|] eqn:E; cbn.
    + by rewrite E.
    + split; [done|]. split; [apply lookup_insert_eq|].
      intros. by apply lookup_insert_ne.
    + destruct (bool_decide (apiName0 ∈ Legacy.Object_prototype_keys));
        cbn; [done|].
      split; [done|]. split; [apply lookup_insert_eq|].
      intros. by apply lookup_insert_ne.
Qed.

(** Registering twice: the second call throws and the first handler is
    still the one registered. *)
Example implementApi_twice :
  let st1 := state (Legacy.implementApi "Echo" 1 demoConnected) in
  let r2 := Legacy.implementApi "Echo" 2 st1 in
  result (Legacy.implementApi "Echo" 1 demoConnected) = inr tt
  /\ result r2 = inl "implementApi duplicately for: Echo"
  /\ _apiHandlers (state r2) !! "Echo" = Some (Some 1).
Proof. vm_compute. repeat split. Qed.

(** * Further properties of the connection *)

(** ** Aborting calls *)

Lemma abort_unknown st sn0 :
  JsMap.get sn0 (_pendingCallApis st) = None ->
  abort sn0 st = (tt, st, []).
Proof. intros H. unfold abort. munfold. by rewrite H. Qed.

(** X3. [abort(sn)] for an [sn] that is not in the pending map changes
    nothing, calls nothing and logs nothing; so aborting a call a second
    time is a no-op. *)
Theorem abort_twice (st : Conn) (sn0 : Z) :
  let r := abort sn0 st in
  abort sn0 (state r) = (tt, state r, [])
  /\ (JsMap.get sn0 (_pendingCallApis st) = None -> r = (tt, st, [])).
Proof.
  cbv zeta. split; [|apply abort_unknown].
  apply abort_unknown.
  destruct (JsMap.get sn0 (_pendingCallApis st)) as [item|] eqn:Hget.
  - unfold abort. munfold. rewrite Hget.
    unfold pending_delete, updateItem. munfold.
    destruct (logApi (options (config st))), (onAbort (deref st item));
      simpl; apply JsMap_get_delete.
  - by rewrite abort_unknown.
Qed.

(** What [abort(sn)] does to a call that is pending. *)
Lemma abort_pending st k id :
  pending_ok st -> (k, id) ∈ _pendingCallApis st ->
  let r := abort k st in
  _pendingCallApis (state r) = JsMap.delete k (_pendingCallApis st)
  /\ items (state r)
     = alter (set_isAborted true) id (alter (set_onReturn None) id (items st))
  /\ (forall i, count_onReturn i (effects r) = 0)
  /\ List.filter is_sendData (effects r) = [].
Proof.
  intros Hok Hin. pose proof Hok as [_ Hnd].
  pose proof (JsMap_elem_get _ _ _ Hnd Hin) as Hget.
  unfold abort. munfold. rewrite Hget.
  unfold pending_delete, updateItem. munfold.
  by destruct (logApi (options (config st))), (onAbort (deref st id)).
Qed.

(** Two entries of a well-formed pending map that refer to the same item
    are the same entry. *)
Lemma pending_ok_inj st k k' id :
  pending_ok st -> (k, id) ∈ _pendingCallApis st ->
  (k', id) ∈ _pendingCallApis st -> k = k'.
Proof.
  intros Hok H1 H2.
  destruct (pending_ok_deref _ _ _ Hok H1) as (<- & _).
  by destruct (pending_ok_deref _ _ _ Hok H2) as (<- & _).
Qed.

Lemma pending_ok_key st k id id' :
  pending_ok st -> (k, id) ∈ _pendingCallApis st ->
  (k, id') ∈ _pendingCallApis st -> id = id'.
Proof.
  intros [_ Hnd] H1 H2.
  apply (JsMap_elem_get _ _ _ Hnd) in H1, H2. congruence.
Qed.

(** A loop over the pending map that aborts the calls selected by [P]:
    [l] is what is left to visit. *)
Lemma forEach_abort (P : PendingCallApiItem -> bool)
  (f : ItemId -> M unit) l st :
  (forall v c, f v c = if P (deref c v) then abort (sn (deref c v)) c
                       else (tt, c, [])) ->
  pending_ok st ->
  NoDup l.*1 ->
  (forall e, e ∈ l -> e ∈ _pendingCallApis st) ->
  let r := forEach_from l f st in
  pending_ok (state r)
  /\ (forall k id, (k, id) ∈ _pendingCallApis (state r) <->
        (k, id) ∈ _pendingCallApis st
        /\ ~ ((k, id) ∈ l /\ P (deref st id) = true))
  /\ (forall k id, (k, id) ∈ l -> P (deref st id) = true ->
        items (state r) !! id
        = set_isAborted true <$> (set_onReturn None <$> items st !! id))
  /\ (forall id, ~ (exists k, (k, id) ∈ l /\ P (deref st id) = true) ->
        items (state r) !! id = items st !! id)
  /\ (forall i, count_onReturn i (effects r) = 0)
  /\ List.filter is_sendData (effects r) = [].
Proof.
  intros Hf. revert st.
  induction l as [|[k id] l IH]; intros st Hok Hnd Hl; cbv zeta.
  - simpl. split; [done|]. split.
    { intros k id. split; [intros H; split; [done|]|by intros [? _]].
      intros [H' _]. by apply elem_of_nil in H'. }
    split; [intros k id H; by apply elem_of_nil in H|]. done.
  - rewrite fmap_cons in Hnd. cbn [fst] in Hnd.
    apply NoDup_cons in Hnd as [Hk Hnd].
    assert (Hin : (k, id) ∈ _pendingCallApis st) by (apply Hl; left).
    destruct (pending_ok_deref _ _ _ Hok Hin) as (Hsn & Hab & Hlt).
    assert (Hfresh : forall k' id', (k', id') ∈ l -> k' <> k /\ id' <> id).
    { intros k' id' He.
      assert (k' <> k).
      { intros ->. apply Hk. apply list_elem_of_fmap. by exists (k, id'). }
      split; [done|]. intros ->.
      assert ((k', id) ∈ _pendingCallApis st) by (apply Hl; by right).
      by pose proof (pending_ok_inj _ _ _ _ Hok Hin H0). }
    cbn [forEach_from]. munfold. rewrite (JsMap_elem_has _ _ _ Hin).
    rewrite Hf. destruct (P (deref st id)) eqn:HP.
    + (* the call is aborted *)
      rewrite Hsn.
      destruct (abort_pending st k id Hok Hin) as (Hp1 & Hi1 & Hc1 & Hs1).
      pose proof (tracked_abort k st Hok) as Ht1.
      unfold state, effects in *.
      destruct (abort k st) as [[[] st1] e1]. cbn [fst snd] in *.
      assert (Hin1 : forall e, e ∈ l -> e ∈ _pendingCallApis st1).
      { intros [k' id'] He. rewrite Hp1. apply JsMap_elem_delete.
        split; [apply Hl; by right|]. by apply (Hfresh k' id'). }
      assert (Hd1 : forall id', id' <> id -> deref st1 id' = deref st id').
      { intros id' Hne. unfold deref.
        by rewrite Hi1, !list_lookup_alter_ne. }
      specialize (IH st1 (tr_ok _ _ _ Ht1) Hnd Hin1). cbv zeta in IH.
      destruct (forEach_from l f st1) as [[[] st2] e2]. cbn [fst snd] in *.
      destruct IH as (Hok2 & Hm2 & Ha2 & Hu2 & Hc2 & Hs2).
      split; [done|]. split; [|split; [|split; [|split]]].
      * intros k' id'. rewrite Hm2, Hp1, JsMap_elem_delete. split.
        -- intros [[Hin' Hne] Hn]. split; [done|]. intros [He HP'].
           apply elem_of_cons in He as [[= -> ->]|He]; [done|].
           apply Hn. split; [done|].
           rewrite Hd1; [done|]. by apply (Hfresh k' id').
        -- intros [Hin' Hn].
           assert (Hne : k' <> k).
           { intros ->. apply Hn.
             rewrite (pending_ok_key _ _ _ _ Hok Hin' Hin).
             split; [left|done]. }
           split; [done|]. intros [He HP']. apply Hn.
           split; [by right|]. rewrite <- Hd1; [done|].
           by apply (Hfresh k' id').
      * intros k' id' He HP'.
        apply elem_of_cons in He as [[= -> ->]|He].
        -- rewrite Hu2.
           ++ by rewrite Hi1, !list_lookup_alter_eq.
           ++ intros (k' & He & _). by destruct (Hfresh _ _ He).
        -- destruct (Hfresh _ _ He) as [_ Hne].
           rewrite (Ha2 k' id' He) by (by rewrite Hd1).
           by rewrite Hi1, !list_lookup_alter_ne.
      * intros id' Hn.
        assert (Hne : id' <> id).
        { intros ->. apply Hn. exists k. split; [left|done]. }
        rewrite Hu2.
        -- by rewrite Hi1, !list_lookup_alter_ne.
        -- intros (k' & He & HP'). apply Hn. exists k'.
           split; [by right|]. by rewrite <- Hd1.
      * intros i. unfold count_onReturn in *.
        rewrite app_nil_l, List.filter_app, length_app.
        by rewrite Hc1, Hc2.
      * by rewrite app_nil_l, List.filter_app, Hs1, Hs2.
    + (* the call is left alone *)
      specialize (IH st Hok Hnd (fun e He => Hl e (list_elem_of_further _ _ _ He))).
      cbv zeta in IH. unfold state, effects in *.
      destruct (forEach_from l f st) as [[[] st2] e2]. cbn [fst snd] in *.
      destruct IH as (Hok2 & Hm2 & Ha2 & Hu2 & Hc2 & Hs2).
      split; [done|]. split; [|split; [|split; [|split]]].
      * intros k' id'. rewrite Hm2. split.
        -- intros [Hin' Hn]. split; [done|]. intros [He HP'].
           apply elem_of_cons in He as [[= -> ->]|He]; [congruence|].
           by apply Hn.
        -- intros [Hin' Hn]. split; [done|]. intros [He HP'].
           apply Hn. split; [by right|done].
      * intros k' id' He HP'.
        apply elem_of_cons in He as [[= -> ->]|He]; [congruence|].
        by apply (Ha2 k' id').
      * intros id' Hn. apply Hu2. intros (k' & He & HP').
        apply Hn. exists k'. split; [by right|done].
      * done.
      * done.
Qed.

Lemma abort_loop_item st st' id it :
  items st !! id = Some it ->
  items st' !! id
  = set_isAborted true <$> (set_onReturn None <$> items st !! id) ->
  isAborted (deref st' id) = true /\ onReturn (deref st' id) = None.
Proof. intros Hit H. unfold deref. by rewrite H, Hit. Qed.

(** X4. [abortByKey(key)], on a well-formed pending map: exactly the
    pending calls whose [abortKey] is [key] are taken out of the map, and
    each of them is marked aborted with its [onReturn] removed; the
    other pending calls keep their entry and are not modified; no
    [onReturn] is invoked and nothing is sent. *)
Theorem abortByKey_aborts_matching (st : Conn) (key : string) :
  wf_pendingb st = true ->
  let r := abortByKey key st in
  (forall k id, (k, id) ∈ _pendingCallApis (state r) <->
     (k, id) ∈ _pendingCallApis st /\ abortKey (deref st id) <> Some key)
  /\ (forall k id, (k, id) ∈ _pendingCallApis st ->
        abortKey (deref st id) = Some key ->
        isAborted (deref (state r) id) = true
        /\ onReturn (deref (state r) id) = None)
  /\ (forall k id, (k, id) ∈ _pendingCallApis st ->
        abortKey (deref st id) <> Some key ->
        deref (state r) id = deref st id)
  /\ (forall i, count_onReturn i (effects r) = 0)
  /\ List.filter is_sendData (effects r) = [].
Proof.
  intros Hwf. apply wf_pendingb_ok in Hwf as Hok. pose proof Hok as [Hit Hnd].
  set (P := fun it => bool_decide (abortKey it = Some key)).
  pose proof (forEach_abort P
    (fun v => c ← getS;
       if decide (abortKey (deref c v) = Some key)
       then abort (sn (deref c v)) else mret tt)
    (_pendingCallApis st) st) as H.
  cbv zeta in *. unfold abortByKey, pending_forEach.
  cbv [mbind M_bind getS] in *. unfold state, effects in *.
  destruct (forEach_from _ _ st) as [[[] st'] es]. cbn [fst snd] in *.
  destruct H as (_ & Hm & Ha & Hu & Hc & Hs); [|done|done|done|].
  { intros v c. subst P. cbv beta. unfold mret, M_ret.
    destruct (decide (abortKey (deref c v) = Some key)) as [He|He].
    - rewrite bool_decide_eq_true_2 by done.
      by destruct (abort _ c) as [[[] ?] ?].
    - by rewrite bool_decide_eq_false_2. }
  subst P. cbv beta in *.
  split; [|split; [|split; [|split]]].
  - intros k id. rewrite Hm. split.
    + intros [Hin Hn]. split; [done|]. intros He. apply Hn.
      split; [done|]. by apply bool_decide_eq_true_2.
    + intros [Hin Hn]. split; [done|]. intros [_ He].
      by apply bool_decide_eq_true_1 in He.
  - intros k id Hin He. destruct (Hit _ _ Hin) as (it & Hi & _).
    eapply abort_loop_item; [done|].
    apply (Ha k id Hin). by apply bool_decide_eq_true_2.
  - intros k id Hin He. unfold deref. rewrite Hu; [done|].
    intros (k' & _ & He'). by apply bool_decide_eq_true_1 in He'.
  - by rewrite app_nil_l.
  - by rewrite app_nil_l.
Qed.

Lemma abortByKey_aborts_matching_witness :
  wf_pendingb demoKeyed = true
  /\ _pendingCallApis demoKeyed = [(1%Z, 0); (2%Z, 1); (3%Z, 2)]
  /\ isAborted (deref (state (abortByKey "page" demoKeyed)) 2) = true
  /\ deref (state (abortByKey "page" demoKeyed)) 1 = deref demoKeyed 1.
Proof.
  pose proof (abortByKey_aborts_matching demoKeyed "page" eq_refl) as H.
  split; [reflexivity|]. split; [reflexivity|]. split.
  - refine (proj1 (proj1 (proj2 H) 3%Z 2 _ eq_refl)).
    apply list_elem_of_further, list_elem_of_further, list_elem_of_here.
  - refine (proj1 (proj2 (proj2 H)) 2%Z 1 _ _); [|discriminate].
    apply list_elem_of_further, list_elem_of_here.
Defined.

(** X5. [abortAll()], on a well-formed pending map: the map is left
    empty and every call that was pending is marked aborted with its
    [onReturn] removed; no [onReturn] is invoked, nothing is sent, and a
    [res] or [err] received afterwards changes nothing. *)
Theorem abortAll_empties_pending (st : Conn) :
  wf_pendingb st = true ->
  let r := abortAll st in
  _pendingCallApis (state r) = []
  /\ (forall k id, (k, id) ∈ _pendingCallApis st ->
        isAborted (deref (state r) id) = true
        /\ onReturn (deref (state r) id) = None)
  /\ (forall i, count_onReturn i (effects r) = 0)
  /\ List.filter is_sendData (effects r) = []
  /\ (forall td, state (_recvApiReturn td (state r)) = state r).
Proof.
  intros Hwf. apply wf_pendingb_ok in Hwf as Hok. pose proof Hok as [Hit Hnd].
  pose proof (forEach_abort (fun _ => true)
    (fun v => c ← getS; abort (sn (deref c v)))
    (_pendingCallApis st) st) as H.
  cbv zeta in *. unfold abortAll, pending_forEach.
  cbv [mbind M_bind getS] in *. unfold state, effects in *.
  destruct (forEach_from _ _ st) as [[[] st'] es]. cbn [fst snd] in *.
  destruct H as (_ & Hm & Ha & Hu & Hc & Hs); [|done|done|done|].
  { intros v c. by destruct (abort _ c) as [[[] ?] ?]. }
  assert (He : _pendingCallApis st' = []).
  { destruct (_pendingCallApis st') as [|[k id] m]; [done|].
    destruct (proj1 (Hm k id) (list_elem_of_here _ _)) as [Hin Hn].
    exfalso. by apply Hn. }
  split; [done|]. split; [|split; [|split]].
  - intros k id Hin. destruct (Hit _ _ Hin) as (it & Hi & _).
    eapply abort_loop_item; [done|]. by apply (Ha k id).
  - by rewrite app_nil_l.
  - by rewrite app_nil_l.
  - intros td. unfold _recvApiReturn. munfold.
    destruct td as [| |sn1 err1 pinfo1| | |]; try done.
    + by rewrite He.
    + destruct (sn1 =? 0)%Z; [done|]. by rewrite He.
Qed.

Lemma abortAll_empties_pending_witness :
  wf_pendingb demoKeyed = true
  /\ _pendingCallApis (state (abortAll demoKeyed)) = []
  /\ isAborted (deref (state (abortAll demoKeyed)) 1) = true.
Proof.
  pose proof (abortAll_empties_pending demoKeyed eq_refl) as H.
  split; [reflexivity|]. split; [exact (proj1 H)|].
  refine (proj1 (proj1 (proj2 H) 2%Z 1 _)).
  apply list_elem_of_further, list_elem_of_here.
Defined.

(** ** The steps of [callApi] *)

(** What [callApi] has done when it reaches its first await. *)
Lemma callApi_registers a r o st :
  let r1 := callApi a r o st in
  let item := length (items st) in
  let sn0 := ctr_next (_callApiSn st) in
  result r1 = awaits_preCallApiFlow item a o
  /\ items (state r1)
     = items st ++ [mkItem sn0 a r false (o ≫= opt_abortKey)
                      (o ≫= opt_abortSignal) None None]
  /\ _pendingCallApis (state r1) = JsMap.set sn0 item (_pendingCallApis st)
  /\ timers (state r1) = timers st
  /\ promises (state r1) = promises st
  /\ _status (state r1) = _status st
  /\ req_sns (effects r1) = []
  /\ List.filter is_sendData (effects r1) = []
  /\ (forall i, count_onReturn i (effects r1) = 0).
Proof.
  unfold callApi, getNext, newItem, pending_set. munfold.
  by destruct (logApi (options (config st)));
    destruct (option_bind _ _ opt_abortSignal o).
Qed.

(** X6. When [preCallApiFlow] supplies the return value itself,
    [callApi] sends no request and arms no timer: it goes on to
    [preCallApiReturnFlow] with the value from the flow, and, once that
    flow hands a value back, resolves to it and removes the call from
    the pending map. *)
Theorem callApi_flow_supplied_return (st : Conn) (a : string) (r : Body)
  (o : option TransportOptions) (a' : string) (r' : Body)
  (ret : ApiReturn) (pr : CallApiReturnFlowData) :
  let r1 := callApi a r o st in
  let item := length (items st) in
  let r2 := callApi_afterPreCall item a o
              (Some (mkCallApiFlowData a' r' (Some ret))) (state r1) in
  let r3 := callApi_afterPreReturn item a (Some pr) (state r2) in
  r2 = (Suspended (awaits_preCallApiReturnFlow item a), state r1,
        [e_flow (preCallApiReturnFlow
                   (mkCallApiReturnFlowData a' r' ret))])
  /\ result r3 = Resolved (fr_return pr)
  /\ JsMap.get (ctr_next (_callApiSn st)) (_pendingCallApis (state r3))
     = None
  /\ timers (state r3) = timers st
  /\ promises (state r3) = promises st
  /\ req_sns (effects r1 ++ effects r2 ++ effects r3) = []
  /\ List.filter is_sendData (effects r1 ++ effects r2 ++ effects r3) = [].
Proof.
  cbv zeta.
  destruct (callApi_registers a r o st)
    as (_ & Hi & Hp & Ht & Hpr & _ & Hq & Hs & _).
  set (st1 := state (callApi a r o st)) in *.
  set (e1 := effects (callApi a r o st)) in *. clearbody st1 e1.
  assert (Hd : deref st1 (length (items st))
               = mkItem (ctr_next (_callApiSn st)) a r false
                   (o ≫= opt_abortKey) (o ≫= opt_abortSignal) None None).
  { unfold deref. by rewrite Hi, list_lookup_middle. }
  assert (H2 : callApi_afterPreCall (length (items st)) a o
                 (Some (mkCallApiFlowData a' r' (Some ret))) st1
               = (Suspended (awaits_preCallApiReturnFlow (length (items st)) a),
                  st1,
                  [e_flow (preCallApiReturnFlow
                             (mkCallApiReturnFlowData a' r' ret))])).
  { unfold callApi_afterPreCall, callApi_afterGetReturn. munfold.
    rewrite Hd. cbn. by rewrite Hd. }
  rewrite H2. unfold state, effects, result. cbn [fst snd].
  split; [done|].
  unfold callApi_afterPreReturn, pending_delete. munfold. rewrite Hd.
  cbn [isAborted sn].
  assert (Hq' : forall es, req_sns es = [] ->
            req_sns (e1 ++ [e_flow (preCallApiReturnFlow
                                      (mkCallApiReturnFlowData a' r' ret))]
                     ++ es) = []).
  { intros es Hes. unfold req_sns in *.
    by rewrite !omap_app, Hq, Hes. }
  assert (Hs' : forall es, List.filter is_sendData es = [] ->
            List.filter is_sendData
              (e1 ++ [e_flow (preCallApiReturnFlow
                                (mkCallApiReturnFlowData a' r' ret))]
               ++ es) = []).
  { intros es Hes. by rewrite !List.filter_app, Hs, Hes. }
  destruct (logApi (options (config st1))); cbn [fst snd];
    [destruct (fr_return pr) as [b|e] eqn:Hr; cbn [isSucc];
       [|destruct (decide (type e = ApiError))]|];
    cbn [fst snd _pendingCallApis set_pendingCallApis timers promises];
    rewrite ?Hp, ?JsMap_get_delete;
    (split_and!; first [done | by apply Hq' | by apply Hs']).
Qed.

(** [abort] of the call that [callApi] has just registered. *)
Lemma abort_new_call st st1 sn0 a r ak asg :
  items st1 = items st ++ [mkItem sn0 a r false ak asg None None] ->
  _pendingCallApis st1
  = JsMap.set sn0 (length (items st)) (_pendingCallApis st) ->
  let r2 := abort sn0 st1 in
  isAborted (deref (state r2) (length (items st))) = true
  /\ onReturn (deref (state r2) (length (items st))) = None
  /\ JsMap.get sn0 (_pendingCallApis (state r2)) = None
  /\ timers (state r2) = timers st1
  /\ promises (state r2) = promises st1
  /\ req_sns (effects r2) = []
  /\ List.filter is_sendData (effects r2) = []
  /\ (forall i, count_onReturn i (effects r2) = 0).
Proof.
  intros Hi Hp.
  assert (Hd : deref st1 (length (items st))
               = mkItem sn0 a r false ak asg None None).
  { unfold deref. by rewrite Hi, list_lookup_middle. }
  unfold abort. munfold. rewrite Hp, JsMap_get_set, Hd.
  unfold pending_delete, updateItem, deref. munfold.
  destruct (logApi (options (config st1)));
    cbn [fst snd items set_items set_pendingCallApis _pendingCallApis
         timers promises onAbort];
    rewrite !list_lookup_alter_eq, Hi, list_lookup_middle by done;
    (split_and!; first [done | apply JsMap_get_delete]).
Qed.

(** X7. When [preCallApiFlow] cancels the call (it returns nothing),
    [callApi] never resolves; the call is marked aborted, loses its
    [onReturn] and leaves the pending map; no request is sent and no
    timer is armed.  The same holds when the call was aborted while the
    flow was running: the flow's result is then ignored. *)
Theorem callApi_flow_cancel (st : Conn) (a : string) (r : Body)
  (o : option TransportOptions) (pc : CallApiFlowData) :
  let r1 := callApi a r o st in
  let item := length (items st) in
  let sn0 := ctr_next (_callApiSn st) in
  let r2 := callApi_afterPreCall item a o None (state r1) in
  let r2' := callApi_afterPreCall item a o (Some pc)
               (state (abort sn0 (state r1))) in
  (result r2 = PROMISE_ABORTED
   /\ isAborted (deref (state r2) item) = true
   /\ onReturn (deref (state r2) item) = None
   /\ JsMap.get sn0 (_pendingCallApis (state r2)) = None
   /\ timers (state r2) = timers st
   /\ req_sns (effects r1 ++ effects r2) = []
   /\ List.filter is_sendData (effects r1 ++ effects r2) = []
   /\ (forall i, count_onReturn i (effects r1 ++ effects r2) = 0))
  /\ r2' = (PROMISE_ABORTED, state (abort sn0 (state r1)), []).
Proof.
  cbv zeta.
  destruct (callApi_registers a r o st)
    as (_ & Hi & Hp & Ht & Hpr & _ & Hq & Hs & Hc).
  set (st1 := state (callApi a r o st)) in *.
  set (e1 := effects (callApi a r o st)) in *. clearbody st1 e1.
  assert (Hd : deref st1 (length (items st))
               = mkItem (ctr_next (_callApiSn st)) a r false
                   (o ≫= opt_abortKey) (o ≫= opt_abortSignal) None None).
  { unfold deref. by rewrite Hi, list_lookup_middle. }
  destruct (abort_new_call st st1 _ _ _ _ _ Hi Hp)
    as (Hab & Hon & Hget & Ht2 & _ & Hq2 & Hs2 & Hc2).
  split.
  - unfold callApi_afterPreCall.
    cbv [mbind mret M_bind M_ret getS state effects result] in *.
    rewrite Hd. cbn [sn].
    destruct (abort (ctr_next (_callApiSn st)) st1) as [[[] st2] e2].
    cbn [fst snd] in *.
    split_and!; try done; try congruence.
    + unfold req_sns in *. by rewrite !omap_app, Hq, app_nil_r, Hq2.
    + by rewrite !List.filter_app, Hs, app_nil_r, Hs2.
    + intros i. unfold count_onReturn in *.
      rewrite !List.filter_app, !length_app. simpl.
      specialize (Hc i). specialize (Hc2 i). lia.
  - unfold callApi_afterPreCall.
    cbv [mbind mret M_bind M_ret getS state effects result] in *.
    destruct (abort (ctr_next (_callApiSn st)) st1) as [[[] st2] e2] eqn:E.
    cbn [fst snd] in *. rewrite Hab.
    assert (Hsn : sn (deref st2 (length (items st)))
                  = ctr_next (_callApiSn st)).
    { revert E. unfold abort. munfold. rewrite Hp, JsMap_get_set.
      unfold pending_delete, updateItem, deref. munfold.
      destruct (logApi (options (config st1))), (onAbort _);
        intros [= <- _]; cbn [items set_items];
        by rewrite !list_lookup_alter_eq, Hi, list_lookup_middle. }
    rewrite Hsn. by rewrite (abort_unknown _ _ Hget).
Qed.

(** X8. A call made while the connection is not connected does not
    hang: [_doCallApi] hands nothing to the send pipeline, its send
    result is the transport's not-connected error, and it returns a
    [LocalError] with that message, with which [callApi] goes on to
    [preCallApiReturnFlow]. *)
Theorem callApi_not_connected (st : Conn) (item : ItemId) (a : string)
  (o : option TransportOptions) (a' : string) (r' : Body) :
  _status st <> Connected ->
  isAborted (deref st item) = false ->
  let pc := mkCallApiFlowData a' r' None in
  let err := ApiFail (mkTsrpcError (_errConnNotConnected (config st))
                        LocalError None) in
  let r2 := callApi_afterPreCall item a o (Some pc) st in
  exists k,
    result r2 = Suspended (awaits_doCallApi item a pc k)
    /\ dc_promiseSend k = Resolved (errConnNotConnected st)
    /\ _doCallApi_afterSend k (errConnNotConnected st) (state r2)
       = (Resolved err, state r2, [])
    /\ callApi_afterGetReturn item a pc err (state r2)
       = (Suspended (awaits_preCallApiReturnFlow item a), state r2,
          [e_flow (preCallApiReturnFlow
                     (mkCallApiReturnFlowData a' r' err))])
    /\ req_sns (effects r2) = []
    /\ List.filter is_sendData (effects r2) = [].
Proof.
  intros Hs Hab. cbv zeta.
  unfold callApi_afterPreCall, _doCallApi, _sendTransportData,
    _waitApiReturn, newPromise, setTimeout, updateItem.
  munfold. rewrite Hab. cbn [f_return f_apiName f_req].
  destruct (decide (_status st = Connected)) as [|_]; [done|].
  assert (Hd : forall c, items c = alter (set_onReturn (Some (length (promises st)))) item (items st) ->
            isAborted (deref c item) = false).
  { intros c Hc. unfold deref in *. rewrite Hc.
    destruct (decide (item < length (items st))) as [Hlt|Hge].
    - apply lookup_lt_is_Some_2 in Hlt as [it Hit].
      rewrite list_lookup_alter_eq, Hit in *. done.
    - rewrite list_lookup_alter_eq.
      rewrite lookup_ge_None_2 by lia. done. }
  unfold callApi_afterGetReturn, _doCallApi_afterSend, errConnNotConnected.
  munfold.
  destruct (debugBuf (options (config st)));
    destruct (truthyZ _); cbn [fst snd];
    (eexists; split; [reflexivity|]; cbn [dc_promiseSend];
     split; [reflexivity|]; split; [reflexivity|];
     rewrite Hd by reflexivity; split; [reflexivity|];
     split; reflexivity).
Qed.

Lemma callApi_not_connected_witness :
  _status demoOffline = Disconnected
  /\ exists k,
       result (callApi_afterPreCall 0 "Echo" None (Some echoFlow)
                 demoOffline)
       = Suspended (awaits_doCallApi 0 "Echo" echoFlow k)
       /\ dc_promiseSend k
          = Resolved (OpFail "The client is not connected" None).
Proof.
  split; [reflexivity|].
  destruct (callApi_not_connected demoOffline 0 "Echo" None "Echo" "hi")
    as (k & H1 & H2 & _); [discriminate|reflexivity|].
  exists k. split; [exact H1|exact H2].
Defined.

(** ** The send pipeline *)

(** X9. The send pipeline, when the connection is connected and both
    encoders succeed: [_sendTransportData] encodes with the codec of
    [options.dataType ?? this.dataType] and hands the encoded data to
    [preSendDataFlow]; when the flow returns [pre] and the connection is
    still connected, [_sendData] is called with [pre.data], the
    transport data and the options of the caller; [postSendDataFlow]
    runs, with [pre.data], exactly when [_sendData] succeeded, and the
    result of [_sendData] is returned as it is.  When the flow cancels,
    nothing is sent.  None of this changes the connection. *)
Theorem send_pipeline (st : Conn) (td : TransportData)
  (o : option TransportOptions) (c : option nat) (box : Box)
  (data : RawData) :
  let cfg := config st in
  let dt := default (dataType cfg) (o ≫= opt_dataType) in
  _status st = Connected ->
  (if decide (dt = buffer)
   then encodeBodyBuffer (util cfg) td (skipEncodeValidate (options cfg))
   else encodeBodyText (util cfg) td (skipEncodeValidate (options cfg)))
  = OpSucc box ->
  (if decide (dt = buffer)
   then encodeBoxBuffer (util cfg) box (_encodeSkipSN cfg)
   else encodeBoxText (util cfg) box (_encodeSkipSN cfg))
  = OpSucc data ->
  let r1 := _sendTransportData td o c st in
  let k := mkSendBoxCont td o c in
  result r1 = Suspended k
  /\ state r1 = st
  /\ calls (effects r1)
     = [e_flow (preSendDataFlow (mkSendDataFlowData data td c))]
  /\ (forall st1, _sendBox_afterPreSendData k None st1
                  = (PROMISE_ABORTED, st1, []))
  /\ (forall st1 pre,
        _status st1 = Connected ->
        let r2 := _sendBox_afterPreSendData k (Some pre) st1 in
        let k2 := mkSendDataCont (sd_data pre) td c in
        result r2 = Suspended k2
        /\ state r2 = st1
        /\ calls (effects r2) = [e_sendData (sd_data pre) td o]
        /\ (forall st2,
              _sendBox_afterSendData k2 (OpSucc tt) st2
              = (OpSucc tt, st2,
                 [e_flow (postSendDataFlow
                            (mkSendDataFlowData (sd_data pre) td c))]))
        /\ (forall st2 m p,
              _sendBox_afterSendData k2 (OpFail m p) st2
              = (OpFail m p, st2, []))).
Proof.
  intros cfg dt Hs Hbody Hbox. subst cfg dt. cbv zeta.
  assert (H1 : _sendTransportData td o c st
    = (Suspended (mkSendBoxCont td o c), st,
       (if debugBuf (options (config st))
        then [e_log debug "[debugBuf] [SendTransportData]";
              e_log debug "[debugBuf] [SendBox]"]
        else [])
       ++ [e_flow (preSendDataFlow (mkSendDataFlowData data td c))])).
  { unfold _sendTransportData, _sendBox. munfold. rewrite Hs.
    destruct (decide (Connected = Connected)); [|done].
    rewrite Hbody.
    destruct (debugBuf (options (config st))) eqn:Hd; cbv beta iota;
      rewrite Hbox, ?Hd; done. }
  rewrite H1. unfold result, state, effects. cbn [fst snd].
  split_and!; try done.
  - by destruct (debugBuf (options (config st))).
  - intros st1 pre Hs1. cbv zeta.
    unfold _sendBox_afterPreSendData. munfold. rewrite Hs1.
    destruct (decide (Connected = Connected)); [|done].
    by destruct (debugBuf (options (config st1))).
Qed.

Lemma send_pipeline_witness :
  _status demoConnected = Connected
  /\ calls (effects (_sendTransportData demoPing None None demoConnected))
     = [e_flow (preSendDataFlow demoPingData)].
Proof.
  split; [reflexivity|].
  exact (proj1 (proj2 (proj2
    (send_pipeline demoConnected demoPing None None
       (mkBox box_req 0 None "body") (raw_text "body")
       eq_refl eq_refl eq_refl)))).
Defined.

(** X10. When the body or the envelope cannot be encoded,
    [_sendTransportData] returns the failure of the encoder as it is;
    no flow runs, nothing is handed to the transport and the connection
    is not changed. *)
Theorem send_encode_failure (st : Conn) (td : TransportData)
  (o : option TransportOptions) (c : option nat) (m : string)
  (p : option string) :
  let cfg := config st in
  let dt := default (dataType cfg) (o ≫= opt_dataType) in
  let opEncodeBody :=
    if decide (dt = buffer)
    then encodeBodyBuffer (util cfg) td (skipEncodeValidate (options cfg))
    else encodeBodyText (util cfg) td (skipEncodeValidate (options cfg)) in
  _status st = Connected ->
  opEncodeBody = OpFail m p
  \/ (exists box,
        opEncodeBody = OpSucc box
        /\ (if decide (dt = buffer)
            then encodeBoxBuffer (util cfg) box (_encodeSkipSN cfg)
            else encodeBoxText (util cfg) box (_encodeSkipSN cfg))
           = OpFail m p) ->
  let r := _sendTransportData td o c st in
  result r = Resolved (OpFail m p)
  /\ state r = st
  /\ calls (effects r) = [].
Proof.
  intros cfg dt opEncodeBody Hs H. subst cfg dt opEncodeBody. cbv zeta.
  unfold _sendTransportData, _sendBox. munfold. rewrite Hs.
  destruct (decide (Connected = Connected)); [|done].
  destruct H as [Hbody|(box & Hbody & Hbox)]; rewrite Hbody;
    destruct (debugBuf (options (config st))) eqn:Hd; cbv beta iota;
    rewrite ?Hbox, ?Hd; done.
Qed.

Lemma send_encode_failure_witness :
  _status demoRejecting = Connected
  /\ result (_sendTransportData demoPing None None demoRejecting)
     = Resolved (OpFail "Invalid body" (Some "validate"))
  /\ state (_sendTransportData demoPing None None demoRejecting)
     = demoRejecting.
Proof.
  pose proof (send_encode_failure demoRejecting demoPing None None
                "Invalid body" (Some "validate") eq_refl
                (or_introl eq_refl)) as H.
  split; [reflexivity|].
  split; [exact (proj1 H)|exact (proj1 (proj2 H))].
Defined.

(** ** Replies *)

(** [_sendTransportData] reads the connection and does not change it. *)
Lemma sendTransportData_state td o c st :
  state (_sendTransportData td o c st) = st.
Proof.
  unfold _sendTransportData, _sendBox. mrun; done.
Qed.

(** The closure installed by [_waitApiReturn], run on a promise that is
    not yet settled. *)
Lemma call_onReturn_resolves st item ret pr tmr :
  onReturn (deref st item) = Some pr ->
  promises st !! pr = Some (mkReturnPromise tmr None) ->
  let r := call_onReturn item ret st in
  items (state r) = items st
  /\ _pendingCallApis (state r)
     = JsMap.delete (sn (deref st item)) (_pendingCallApis st)
  /\ promises (state r) !! pr = Some (mkReturnPromise None (Some ret))
  /\ timers (state r)
     = match tmr with
       | Some t => alter disarm t (timers st)
       | None => timers st
       end
  /\ effects r
     = e_onReturn item ret
       :: match tmr with Some t => [e_clearTimeout t] | None => [] end
       ++ [e_resolve pr ret]
  /\ _status (state r) = _status st
  /\ _heartbeat (state r) = _heartbeat st.
Proof.
  intros Hon Hp. unfold call_onReturn. munfold. rewrite Hon, Hp.
  unfold pending_delete, resolve, clearTimeout. munfold.
  destruct tmr as [t|]; simpl; rewrite !list_lookup_alter_eq, Hp; done.
Qed.

(** A timer that was cleared does nothing when its time comes. *)
Lemma timer_fired_disarmed st st' now t :
  timers st' !! t = disarm <$> timers st !! t ->
  timer_fired now t st' = (tt, st', []).
Proof.
  intros H. unfold timer_fired. munfold. rewrite H.
  by destruct (timers st !! t).
Qed.

(** A [res] or [err] for a call that is waiting. *)
Lemma recvApiReturn_delivers st td k ret item pr tmr :
  (exists s b pinfo, td = td_res s k b pinfo /\ ret = ApiSucc b)
  \/ (exists e pinfo, td = td_err k e pinfo /\ ret = ApiFail e
                      /\ k <> 0%Z) ->
  JsMap.get k (_pendingCallApis st) = Some item ->
  isAborted (deref st item) = false ->
  onReturn (deref st item) = Some pr ->
  promises st !! pr = Some (mkReturnPromise tmr None) ->
  _recvApiReturn td st = call_onReturn item ret st.
Proof.
  intros Htd Hget Hab Hon Hp. unfold _recvApiReturn. munfold.
  destruct Htd as [(s & b & pinfo & -> & ->)|(e & pinfo & -> & -> & Hk)].
  - rewrite Hget, Hab. by destruct (call_onReturn _ _ st) as [[[] ?] ?].
  - destruct (Z.eqb_spec k 0) as [|_]; [done|].
    rewrite Hget, Hab. by destruct (call_onReturn _ _ st) as [[[] ?] ?].
Qed.

Lemma recvTransportData_delivers st now td k ret item pr tmr :
  (exists s b pinfo, td = td_res s k b pinfo /\ ret = ApiSucc b)
  \/ (exists e pinfo, td = td_err k e pinfo /\ ret = ApiFail e
                      /\ k <> 0%Z) ->
  JsMap.get k (_pendingCallApis st) = Some item ->
  isAborted (deref st item) = false ->
  onReturn (deref st item) = Some pr ->
  promises st !! pr = Some (mkReturnPromise tmr None) ->
  exists st1 pre,
    _recvTransportData now td st
    = (tt, state (call_onReturn item ret st1),
       pre ++ effects (call_onReturn item ret st1))
    /\ items st1 = items st
    /\ _pendingCallApis st1 = _pendingCallApis st
    /\ promises st1 = promises st
    /\ timers st1 = timers st
    /\ _status st1 = _status st
    /\ _remoteProtoInfo st1
       = match td_protoInfo td with
         | Some p => Some p
         | None => _remoteProtoInfo st
         end
    /\ calls pre = [].
Proof.
  intros Htd Hget Hab Hon Hp.
  set (st1 := match td_protoInfo td with
              | Some p => set_remoteProtoInfo (Some p) st
              | None => st
              end).
  assert (H1 : items st1 = items st /\ _pendingCallApis st1 = _pendingCallApis st
               /\ promises st1 = promises st /\ timers st1 = timers st
               /\ _status st1 = _status st)
    by (subst st1; by destruct (td_protoInfo td)).
  destruct H1 as (Hi & Hpe & Hpr & Htm & Hst).
  assert (Hr : _recvApiReturn td st1 = call_onReturn item ret st1).
  { apply (recvApiReturn_delivers st1 td k ret item pr tmr); try done.
    - by rewrite Hpe.
    - unfold deref. by rewrite Hi.
    - unfold deref. by rewrite Hi.
    - by rewrite Hpr. }
  exists st1, (if debugBuf (options (config st))
               then [e_log debug "[debugBuf] [RecvTransportData]"] else []).
  split; [|split_and!; try done].
  - clear Hi Hpe Hpr Htm Hst Hget Hab Hon Hp. revert Hr. subst st1.
    unfold _recvTransportData. munfold.
    destruct Htd as [(s & b & pinfo & -> & ->)|(e & pinfo & -> & -> & Hk)];
      destruct pinfo as [pi|]; cbn [td_protoInfo]; intros Hr;
      destruct (debugBuf (options (config st))); cbv beta iota;
      rewrite Hr; by destruct (call_onReturn _ _ _) as [[[] ?] ?].
  - subst st1. by destruct (td_protoInfo td).
  - by destruct (debugBuf (options (config st))).
Qed.

Lemma recvTransportData_reply (st : Conn) (now : Z)
  (td : TransportData) (k : Z) (ret : ApiReturn) (item : ItemId)
  (pr : PromiseId) (tmr : option TimerId) :
  (exists s b pinfo, td = td_res s k b pinfo /\ ret = ApiSucc b)
  \/ (exists e pinfo, td = td_err k e pinfo /\ ret = ApiFail e
                      /\ k <> 0%Z) ->
  JsMap.get k (_pendingCallApis st) = Some item ->
  isAborted (deref st item) = false ->
  onReturn (deref st item) = Some pr ->
  promises st !! pr = Some (mkReturnPromise tmr None) ->
  let r := _recvTransportData now td st in
  List.filter (is_onReturn item) (effects r) = [e_onReturn item ret]
  /\ e_resolve pr ret ∈ effects r
  /\ promises (state r) !! pr = Some (mkReturnPromise None (Some ret))
  /\ _pendingCallApis (state r)
     = JsMap.delete (sn (deref st item)) (_pendingCallApis st)
  /\ (forall t, tmr = Some t ->
        e_clearTimeout t ∈ effects r
        /\ forall now', timer_fired now' t (state r) = (tt, state r, [])).
Proof.
  intros Htd Hget Hab Hon Hp.
  destruct (recvTransportData_delivers st now td k ret item pr tmr
              Htd Hget Hab Hon Hp)
    as (st1 & pre & -> & Hi & Hpe & Hpr & Htm & _ & _ & Hpre).
  assert (Hon1 : onReturn (deref st1 item) = Some pr)
    by (unfold deref; by rewrite Hi).
  assert (Hp1 : promises st1 !! pr = Some (mkReturnPromise tmr None))
    by (by rewrite Hpr).
  destruct (call_onReturn_resolves st1 item ret pr tmr Hon1 Hp1)
    as (_ & Hp2 & Hpr2 & Htm2 & He2 & _).
  assert (Hd : deref st1 item = deref st item)
    by (unfold deref; by rewrite Hi).
  cbv zeta. unfold state, effects in *. cbn [fst snd].
  assert (Hnr : List.filter (is_onReturn item) pre = []).
  { unfold calls in Hpre. clear -Hpre.
    induction pre as [|e pre IH]; [done|]. simpl in *.
    destruct e; simpl in *; try done. by apply IH. }
  rewrite He2. split_and!.
  - rewrite List.filter_app, Hnr. simpl. rewrite Nat.eqb_refl.
    rewrite List.filter_app.
    by destruct tmr.
  - apply elem_of_app. right. apply elem_of_cons. right.
    apply elem_of_app. right. left.
  - done.
  - by rewrite Hp2, Hd, Hpe.
  - intros t ->. split.
    + apply elem_of_app. right. right. left.
    + intros now'. apply (timer_fired_disarmed st1).
      rewrite Htm2. apply list_lookup_alter_eq.
Qed.

(** X11. A [res], or an [err] whose sn is not [0], for a call that is
    waiting (pending, not aborted, [onReturn] installed, promise not
    settled): [onReturn] is invoked once with the matching return, the
    promise of the call is settled with it, the call leaves the pending
    map, and the timeout timer of the call is cleared, so that it does
    nothing when its time comes. *)
Theorem reply_resolves_and_cancels_timeout (st : Conn) (now : Z)
  (td : TransportData) (k : Z) (ret : ApiReturn) (item : ItemId)
  (pr : PromiseId) (tmr : option TimerId) :
  (exists s b pinfo, td = td_res s k b pinfo /\ ret = ApiSucc b)
  \/ (exists e pinfo, td = td_err k e pinfo /\ ret = ApiFail e
                      /\ k <> 0%Z) ->
  JsMap.get k (_pendingCallApis st) = Some item ->
  isAborted (deref st item) = false ->
  onReturn (deref st item) = Some pr ->
  promises st !! pr = Some (mkReturnPromise tmr None) ->
  let r := _recvTransportData now td st in
  List.filter (is_onReturn item) (effects r) = [e_onReturn item ret]
  /\ e_resolve pr ret ∈ effects r
  /\ promises (state r) !! pr = Some (mkReturnPromise None (Some ret))
  /\ _pendingCallApis (state r)
     = JsMap.delete (sn (deref st item)) (_pendingCallApis st)
  /\ (forall t, tmr = Some t ->
        e_clearTimeout t ∈ effects r
        /\ forall now', timer_fired now' t (state r) = (tt, state r, [])).
Proof. apply recvTransportData_reply. Qed.

Lemma reply_resolves_and_cancels_timeout_witness :
  JsMap.get 1 (_pendingCallApis demoWaiting) = Some 0
  /\ promises demoWaiting !! 0 = Some (mkReturnPromise (Some 0) None)
  /\ promises
       (state (_recvTransportData 0 (td_res (Some "Echo") 1 "ok" None)
                 demoWaiting)) !! 0
     = Some (mkReturnPromise None (Some (ApiSucc "ok"))).
Proof.
  split; [reflexivity|]. split; [reflexivity|].
  refine (proj1 (proj2 (proj2
    (reply_resolves_and_cancels_timeout demoWaiting 0
       (td_res (Some "Echo") 1 "ok" None) 1 (ApiSucc "ok") 0 0 (Some 0)
       _ eq_refl eq_refl eq_refl eq_refl)))).
  left. by exists (Some "Echo"), "ok", None.
Defined.

(** ** Data that cannot be decoded *)

Lemma calls_app es1 es2 : calls (es1 ++ es2) = calls es1 ++ calls es2.
Proof. apply List.filter_app. Qed.

(** What [_recvBox] does when the body cannot be decoded: besides
    logging, it answers a [req] and fails the call of a [res]. *)
Lemma recvBox_fail st now box dt m p :
  (if decide (dt = text)
   then decodeBodyText (util (config st)) box
          (skipDecodeValidate (options (config st)))
   else decodeBodyBuffer (util (config st)) box
          (skipDecodeValidate (options (config st))))
  = OpFail m p ->
  exists reason pre (x : M unit),
    _recvBox now box dt st
    = (OpFail reason None, state (x st), pre ++ effects (x st))
    /\ calls pre = []
    /\ (p = Some "validate" \/ dt = text -> reason = m)
    /\ x = match box_type box with
           | box_req =>
               _ ← _sendTransportData
                     (td_err (box_sn box)
                        (mkTsrpcError reason RemoteError None)
                        (Some (_localProtoInfo (config st)))) None None;
               mret tt
           | box_res =>
               _recvTransportData now
                 (td_err (box_sn box)
                    (mkTsrpcError reason LocalError None)
                    (box_protoInfo box))
           | _ => mret tt
           end.
Proof.
  intros Hdec.
  set (reason :=
    if decide (p = Some "validate") then m
    else if decide (dt = text) then m
    else if match box_protoInfo box with
            | Some remote =>
                negb (String.eqb (md5 remote)
                        (md5 (_localProtoInfo (config st))))
            | None => false
            end
         then errProtoDifferent else errBodyUnknown).
  exists reason,
    ((if debugBuf (options (config st))
      then [e_log debug "[debugBuf] [RecvBox]"; e_log debug "[DecodeBodyErr]"]
      else []) ++ [e_log error "[RecvDataErr] "]).
  set (x := match box_type box with
            | box_req =>
                _ ← _sendTransportData
                      (td_err (box_sn box)
                         (mkTsrpcError reason RemoteError None)
                         (Some (_localProtoInfo (config st)))) None None;
                mret tt
            | box_res =>
                _recvTransportData now
                  (td_err (box_sn box)
                     (mkTsrpcError reason LocalError None)
                     (box_protoInfo box))
            | _ => mret tt
            end : M unit).
  exists x. split; [|split; [|split; [|reflexivity]]].
  - unfold _recvBox. subst x. munfold. rewrite Hdec. fold reason.
    destruct (debugBuf (options (config st))) eqn:Hd; cbv beta iota;
      rewrite ?Hd; cbv beta iota;
      destruct (box_type box); cbv beta iota;
      try (destruct (_sendTransportData _ _ _ _) as [[? ?] ?]);
      try (destruct (_recvTransportData _ _ _) as [[[] ?] ?]);
      cbn [fst snd]; by rewrite ?app_nil_r.
  - by destruct (debugBuf (options (config st))).
  - subst reason. intros [->| ->].
    + by destruct (decide (Some "validate" = Some "validate")).
    + destruct (decide (p = Some "validate")); [done|].
      by destruct (decide (text = text)).
Qed.

(** X12. When the body of a received box cannot be decoded, [_recvBox]
    returns a failure with the reason it logged (the decoder's message
    for text data and for validation errors).  For a [req] box it
    answers with an [err] of the same sn and of type [RemoteError]; for
    a [res] box it turns the reply into an [err] of type [LocalError],
    which is delivered to the waiting call like any reply; a box of
    another type is only logged. *)
Theorem recvBox_undecodable_body (st : Conn) (now : Z) (box : Box)
  (dt : BaseConnectionDataType) (m : string) (p : option string) :
  (if decide (dt = text)
   then decodeBodyText (util (config st)) box
          (skipDecodeValidate (options (config st)))
   else decodeBodyBuffer (util (config st)) box
          (skipDecodeValidate (options (config st))))
  = OpFail m p ->
  let r := _recvBox now box dt st in
  exists reason,
    result r = OpFail reason None
    /\ (p = Some "validate" \/ dt = text -> reason = m)
    /\ (box_type box = box_req ->
        state r = st
        /\ calls (effects r)
           = calls (effects
                      (_sendTransportData
                         (td_err (box_sn box)
                            (mkTsrpcError reason RemoteError None)
                            (Some (_localProtoInfo (config st))))
                         None None st)))
    /\ (box_type box = box_res ->
        forall item pr tmr,
          box_sn box <> 0%Z ->
          JsMap.get (box_sn box) (_pendingCallApis st) = Some item ->
          isAborted (deref st item) = false ->
          onReturn (deref st item) = Some pr ->
          promises st !! pr = Some (mkReturnPromise tmr None) ->
          let ret := ApiFail (mkTsrpcError reason LocalError None) in
          List.filter (is_onReturn item) (effects r) = [e_onReturn item ret]
          /\ promises (state r) !! pr
             = Some (mkReturnPromise None (Some ret))
          /\ _pendingCallApis (state r)
             = JsMap.delete (sn (deref st item)) (_pendingCallApis st))
    /\ (box_type box <> box_req -> box_type box <> box_res ->
        state r = st /\ calls (effects r) = []).
Proof.
  intros Hdec. cbv zeta.
  destruct (recvBox_fail st now box dt m p Hdec)
    as (reason & pre & x & -> & Hpre & Hm & Hx).
  exists reason. unfold result, state, effects. cbn [fst snd].
  split; [done|]. split; [done|].
  assert (Hnr : forall i, List.filter (is_onReturn i) pre = []).
  { intros i. unfold calls in Hpre. clear -Hpre.
    induction pre as [|e pre IH]; [done|]. simpl in *.
    destruct e; simpl in *; try done. by apply IH. }
  split_and!.
  - intros Ht. rewrite Ht in Hx. subst x. munfold.
    pose proof (sendTransportData_state
      (td_err (box_sn box) (mkTsrpcError reason RemoteError None)
         (Some (_localProtoInfo (config st)))) None None st) as Hs.
    unfold state in Hs.
    destruct (_sendTransportData _ None None st) as [[? ?] es].
    cbn [fst snd] in *. split; [done|].
    by rewrite calls_app, Hpre, app_nil_r.
  - intros Ht item pr tmr Hk Hget Hab Hon Hp. rewrite Ht in Hx. subst x.
    destruct (recvTransportData_reply st now
                (td_err (box_sn box)
                   (mkTsrpcError reason LocalError None)
                   (box_protoInfo box))
                (box_sn box)
                (ApiFail (mkTsrpcError reason LocalError None))
                item pr tmr) as (Hf & _ & Hpr & Hpe & _); try done.
    { right. by eexists _, _. }
    unfold state, effects in *. split_and!; [|done|done].
    by rewrite List.filter_app, Hnr, Hf.
  - intros Hn1 Hn2.
    assert (x = mret tt) as -> by (subst x; by destruct (box_type box)).
    munfold. split; [done|]. by rewrite app_nil_r.
Qed.

Lemma recvBox_undecodable_body_witness :
  decodeBodyText (util (config demoWaiting))
    (mkBox box_res 1 None "garbled") false
  = OpFail "cannot decode" None
  /\ exists reason,
       result (_recvBox 0 (mkBox box_res 1 None "garbled") text demoWaiting)
       = OpFail reason None
       /\ reason = "cannot decode".
Proof.
  split; [reflexivity|].
  destruct (recvBox_undecodable_body demoWaiting 0
              (mkBox box_res 1 None "garbled") text
              "cannot decode" None eq_refl)
    as (reason & H1 & H2 & _).
  exists reason. split; [exact H1|]. apply H2. by right.
Defined.



(** X14. Only [res] and [err] data can complete a call: whatever else
    is received ([req], [msg], [heartbeat], [custom]) leaves the pending
    map and the pending calls as they are and invokes no [onReturn]. *)
Theorem recv_other_data_keeps_pending (st : Conn) (now : Z)
  (td : TransportData) :
  is_return td = false ->
  let r := _recvTransportData now td st in
  _pendingCallApis (state r) = _pendingCallApis st
  /\ items (state r) = items st
  /\ (forall item, count_onReturn item (effects r) = 0).
Proof.
  intros Htd.
  assert (H : sat frames (_recvTransportData now td)).
  { unfold _recvTransportData.
    destruct td as [| |sn1 err1 pinfo1| | |]; try done; sat_auto. }
  apply H.
Qed.

Lemma recv_other_data_keeps_pending_witness :
  is_return (td_msg "Chat" "hello") = false
  /\ _pendingCallApis
       (state (_recvTransportData 0 (td_msg "Chat" "hello") demoWaiting))
     = _pendingCallApis demoWaiting.
Proof.
  split; [reflexivity|].
  exact (proj1 (recv_other_data_keeps_pending demoWaiting 0
                  (td_msg "Chat" "hello") eq_refl)).
Defined.

(** ** Parts of the connection that a segment keeps *)

#[global] Instance keeps_transitional {A} (part : Conn -> A) :
  Transitional (keeps part).
Proof. split; [done|]. unfold keeps. intros. congruence. Qed.

#[local] Hint Extern 1 (sat (keeps _) (emit _)) =>
  intros ?; reflexivity : sat.
#[local] Hint Extern 1 (sat (keeps _) (log _ _)) =>
  intros ?; reflexivity : sat.
#[local] Hint Extern 1 (sat (keeps _) (modify _)) =>
  intros ?; reflexivity : sat.
#[local] Hint Extern 1 (sat (keeps _) (setTimeout _ _)) =>
  intros ?; reflexivity : sat.
#[local] Hint Extern 1 (sat (keeps _) (clearTimeout _)) =>
  intros ?; reflexivity : sat.
#[local] Hint Extern 1 (sat (keeps _) newPromise) =>
  intros ?; reflexivity : sat.
#[local] Hint Extern 1 (sat (keeps _) (pending_delete _)) =>
  intros ?; reflexivity : sat.
#[local] Hint Extern 1 (sat (keeps _) (updateItem _ _)) =>
  intros ?; reflexivity : sat.
#[local] Hint Extern 1 (sat (keeps _) (modify_heartbeat _)) =>
  intros ?; reflexivity : sat.

Lemma keeps_sendTransportData {A} (part : Conn -> A) td o c :
  sat (keeps part) (_sendTransportData td o c).
Proof. intros st. unfold keeps. by rewrite sendTransportData_state. Qed.

#[local] Hint Resolve keeps_sendTransportData : sat.

Lemma keeps_status_resolve p r : sat (keeps _status) (resolve p r).
Proof. unfold resolve. sat_auto. Qed.
Lemma keeps_heartbeat_resolve p r : sat (keeps _heartbeat) (resolve p r).
Proof. unfold resolve. sat_auto. Qed.
Lemma keeps_disconnecting_resolve p r :
  sat (keeps _disconnecting) (resolve p r).
Proof. unfold resolve. sat_auto. Qed.

#[local] Hint Resolve keeps_status_resolve keeps_heartbeat_resolve
  keeps_disconnecting_resolve : sat.

Lemma keeps_heartbeat_call_onReturn i r :
  sat (keeps _heartbeat) (call_onReturn i r).
Proof. unfold call_onReturn. sat_auto. Qed.
Lemma keeps_disconnecting_call_onReturn i r :
  sat (keeps _disconnecting) (call_onReturn i r).
Proof. unfold call_onReturn. sat_auto. Qed.
Lemma keeps_status_call_onReturn' i r :
  sat (keeps _status) (call_onReturn i r).
Proof. unfold call_onReturn. sat_auto. Qed.

#[local] Hint Resolve keeps_heartbeat_call_onReturn
  keeps_disconnecting_call_onReturn keeps_status_call_onReturn' : sat.

(** The send pipeline reads only the configuration and the status. *)
Lemma sendTransportData_cong td o c st1 st2 :
  config st1 = config st2 -> _status st1 = _status st2 ->
  result (_sendTransportData td o c st1)
  = result (_sendTransportData td o c st2)
  /\ effects (_sendTransportData td o c st1)
     = effects (_sendTransportData td o c st2).
Proof.
  intros Hc Hs. unfold _sendTransportData, _sendBox. munfold.
  rewrite Hc, Hs.
  destruct (debugBuf (options (config st2))) eqn:Hd; cbv beta iota;
    rewrite ?Hc, ?Hd;
    destruct (decide (_status st2 = Connected)); try done;
    cbv beta iota; rewrite ?Hc, ?Hd;
    repeat (mcase; cbv beta iota; rewrite ?Hc, ?Hd);
    unfold errConnNotConnected; rewrite ?Hc; done.
Qed.

(** ** Heartbeat *)

(** The timers known to a connection after the receive timeout has been
    re-armed. *)
Lemma resetHeartbeatTimeout_armed st hb :
  _heartbeat st = Some hb ->
  let t := length (timers st) in
  let ms := heartbeatRecvTimeout (options (config st)) in
  _resetHeartbeatTimeout st
  = (tt,
     set_heartbeat (Some (set_hb_recvTimeout (Some t) hb))
       (set_timers
          (match recvTimeout hb with
           | Some t0 => alter disarm t0 (timers st)
           | None => timers st
           end ++ [mkTimer cb_recvHeartbeatTimeout ms true]) st),
     match recvTimeout hb with
     | Some t0 => [e_clearTimeout t0]
     | None => []
     end ++ [e_setTimeout t ms]).
Proof.
  intros Hh. cbv zeta.
  unfold _resetHeartbeatTimeout, modify_heartbeat, setTimeout, clearTimeout.
  munfold. rewrite Hh.
  destruct (recvTimeout hb) as [t0|]; cbn; rewrite ?length_alter, ?Hh; done.
Qed.

Lemma timer_fired_unarmed st now t :
  (forall tm, timers st !! t = Some tm -> tm_armed tm = false) ->
  timer_fired now t st = (tt, st, []).
Proof.
  intros H. unfold timer_fired. munfold.
  destruct (timers st !! t) as [tm|] eqn:E; [|done].
  by rewrite (H tm).
Qed.

(** X15. A connection whose heartbeat is running answers a ping: the
    receive timeout is re-armed ([heartbeatRecvTimeout] from now, the
    old timer cleared and inert), and the same heartbeat, marked as a
    reply, is handed to the send pipeline. *)
Theorem heartbeat_ping_is_answered (st : Conn) (now : Z) (sn0 : Z)
  (isReply : option bool) (hb : Heartbeat) :
  _heartbeat st = Some hb ->
  default false isReply = false ->
  let r := _recvHeartbeat now sn0 isReply st in
  let t := length (timers st) in
  let ms := heartbeatRecvTimeout (options (config st)) in
  _heartbeat (state r) = Some (set_hb_recvTimeout (Some t) hb)
  /\ timers (state r) !! t = Some (mkTimer cb_recvHeartbeatTimeout ms true)
  /\ (forall t0, recvTimeout hb = Some t0 -> t0 < t ->
        e_clearTimeout t0 ∈ effects r
        /\ forall now', timer_fired now' t0 (state r) = (tt, state r, []))
  /\ effects r
     = match recvTimeout hb with
       | Some t0 => [e_clearTimeout t0]
       | None => []
       end ++ [e_setTimeout t ms]
       ++ effects (_sendTransportData (td_heartbeat sn0 (Some true))
                     None None st)
  /\ lastHeartbeatLatency (state r) = lastHeartbeatLatency st
  /\ _status (state r) = _status st.
Proof.
  intros Hh Hrep. cbv zeta.
  unfold _recvHeartbeat. cbv [mbind M_bind getS mret M_ret].
  rewrite Hh, (resetHeartbeatTimeout_armed st hb Hh), Hrep.
  set (st1 := set_heartbeat _ _).
  pose proof (sendTransportData_state (td_heartbeat sn0 (Some true))
                None None st1) as Hs.
  destruct (sendTransportData_cong (td_heartbeat sn0 (Some true))
              None None st1 st eq_refl eq_refl) as [_ He].
  unfold state, effects in *.
  destruct (_sendTransportData _ None None st1) as [[a st2] es].
  cbn [fst snd] in *. subst st2 es.
  assert (Ht : timers st1 !! length (timers st)
               = Some (mkTimer cb_recvHeartbeatTimeout
                         (heartbeatRecvTimeout (options (config st))) true)).
  { subst st1. cbn [timers set_heartbeat set_timers].
    destruct (recvTimeout hb);
      by rewrite lookup_app_r, ?length_alter, Nat.sub_diag
        by (rewrite ?length_alter; lia). }
  split_and!; try done.
  - intros t0 H0 Hlt. rewrite H0. split; [left|].
    intros now'. apply timer_fired_unarmed. intros tm.
    subst st1. cbn [timers set_heartbeat set_timers]. rewrite H0.
    rewrite lookup_app_l by (rewrite length_alter; lia).
    rewrite list_lookup_alter_eq.
    destruct (timers st !! t0); simpl; [|done]. by intros [= <-].
  - rewrite app_nil_l, app_nil_r. by rewrite <- app_assoc.
Qed.

Lemma heartbeat_ping_is_answered_witness :
  _heartbeat demoPinging
  = Some (mkHeartbeat (mkCounter 1 MAX_SAFE_INTEGER 1) None (Some 0) 0)
  /\ timers (state (_recvHeartbeat 10 7 None demoPinging)) !! 1
     = Some (mkTimer cb_recvHeartbeatTimeout 5000 true)
  /\ effects (_recvHeartbeat 10 7 None demoPinging)
     = [e_clearTimeout 0; e_setTimeout 1 5000]
       ++ effects (_sendTransportData (td_heartbeat 7 (Some true))
                     None None demoPinging).
Proof.
  pose proof (heartbeat_ping_is_answered demoPinging 10 7 None
                (mkHeartbeat (mkCounter 1 MAX_SAFE_INTEGER 1) None (Some 0) 0)
                eq_refl eq_refl) as H.
  split; [reflexivity|].
  split; [exact (proj1 (proj2 H))|].
  exact (proj1 (proj2 (proj2 (proj2 H)))).
Defined.

(** X16. A pong gives the latency of the round trip
    ([now - lastSendTime]), re-arms the receive timeout and, nothing
    being sent, schedules the next ping after [heartbeatSendInterval];
    when that timer fires, a ping with the next heartbeat number is
    handed to the send pipeline and [lastSendTime] is set. *)
Theorem heartbeat_pong_schedules_next_ping (st : Conn) (now : Z)
  (sn0 : Z) (hb : Heartbeat) :
  _heartbeat st = Some hb ->
  heartbeatSendInterval (options (config st)) <> 0%Z ->
  let r := _recvHeartbeat now sn0 (Some true) st in
  let t := length (timers st) in
  let ms := heartbeatRecvTimeout (options (config st)) in
  let interval := heartbeatSendInterval (options (config st)) in
  lastHeartbeatLatency (state r) = (now - lastSendTime hb)%Z
  /\ _heartbeat (state r)
     = Some (set_hb_sendTimer (Some (S t))
               (set_hb_recvTimeout (Some t) hb))
  /\ timers (state r) !! S t = Some (mkTimer cb_sendHeartbeat interval true)
  /\ effects r
     = match recvTimeout hb with
       | Some t0 => [e_clearTimeout t0]
       | None => []
       end ++ [e_setTimeout t ms; e_setTimeout (S t) interval]
  /\ (forall now',
        let r' := timer_fired now' (S t) (state r) in
        effects r'
        = effects (_sendTransportData
                     (td_heartbeat (ctr_next (hb_sn hb)) None)
                     None None st)
        /\ lastSendTime <$> _heartbeat (state r') = Some now').
Proof.
  intros Hh Hi. cbv zeta.
  unfold _recvHeartbeat. cbv [mbind M_bind getS mret M_ret].
  rewrite Hh, (resetHeartbeatTimeout_armed st hb Hh).
  cbn [default]. unfold truthyZ.
  destruct (Z.eqb_spec (heartbeatSendInterval (options (config st))) 0)
    as [|_]; [done|].
  cbn [negb]. unfold modify_heartbeat, setTimeout, modify.
  cbn [fst snd state effects result _heartbeat set_heartbeat set_timers
       timers set_lastHeartbeatLatency lastHeartbeatLatency fmap
       option_fmap option_map default id].
  rewrite !length_app.
  assert (Hlen : length (match recvTimeout hb with
                         | Some t0 => alter disarm t0 (timers st)
                         | None => timers st
                         end) = length (timers st))
    by (destruct (recvTimeout hb); by rewrite ?length_alter).
  rewrite Hlen. cbn [length]. rewrite Nat.add_1_r.
  split_and!; try done.
  - rewrite lookup_app_r by (rewrite length_app, Hlen; simpl; lia).
    rewrite length_app, Hlen. cbn [length].
    by replace (S (length (timers st)) - (length (timers st) + 1)) with 0
      by lia.
  - by rewrite <- !app_assoc.
  - intros now'. unfold timer_fired. cbv [mbind M_bind getS mret M_ret].
    cbn [timers set_timers set_heartbeat set_lastHeartbeatLatency].
    rewrite lookup_app_r by (rewrite length_app, Hlen; simpl; lia).
    rewrite length_app, Hlen. cbn [length].
    replace (S (length (timers st)) - (length (timers st) + 1)) with 0
      by lia.
    cbn [lookup list_lookup tm_armed tm_callback].
    unfold _sendHeartbeat, modify, getNext.
    cbv [mbind M_bind getS mret M_ret].
    cbn [_heartbeat set_heartbeat set_timers set_lastHeartbeatLatency
         hb_sn set_hb_sendTimer set_hb_recvTimeout].
    set (st2 := set_heartbeat _ _).
    pose proof (sendTransportData_state
                  (td_heartbeat (ctr_next (hb_sn hb)) None) None None st2)
      as Hs.
    destruct (sendTransportData_cong
                (td_heartbeat (ctr_next (hb_sn hb)) None) None None st2 st
                eq_refl eq_refl) as [_ He].
    unfold state, effects in *.
    destruct (_sendTransportData _ None None st2) as [[a st3] es].
    cbn [fst snd] in *. subst st3 es.
    split; [by rewrite app_nil_l, app_nil_r|]. by subst st2.
Qed.

Lemma heartbeat_pong_schedules_next_ping_witness :
  heartbeatSendInterval (options (config demoPinging)) = 1000%Z
  /\ lastHeartbeatLatency (state (_recvHeartbeat 25 1 (Some true) demoPinging))
     = 25%Z
  /\ timers (state (_recvHeartbeat 25 1 (Some true) demoPinging)) !! 2
     = Some (mkTimer cb_sendHeartbeat 1000 true).
Proof.
  pose proof (heartbeat_pong_schedules_next_ping demoPinging 25 1
                (mkHeartbeat (mkCounter 1 MAX_SAFE_INTEGER 1) None (Some 0) 0)
                eq_refl) as H.
  split; [reflexivity|].
  specialize (H ltac:(discriminate)).
  split; [exact (proj1 H)|exact (proj1 (proj2 (proj2 H)))].
Defined.
